(** * vcluster: the cluster-operations engine, embedded and verified

    A shallow embedding of the operation reducers of [vclusterops]:
    the catalog-version election of [nmaReadCatalogEditorOp], the quorum
    reduction of [NMALoadRemoteCatalogOp], the aggregation of
    [httpsStartReplicationOp], the fan-out of [AdapterPool.sendRequest],
    the [prepare] phases and [generateReviveVDB].

    Conventions.
    - A Go [map[string]V] is a [gmap string V].  A [for k, v := range m]
      loop visits the entries of [m] in an order Go leaves unspecified:
      the loop bodies are folds over a list of entries, and that list (the
      order of the visit) is an explicit argument of the embedded function.
    - A Go [error] is an [option goError]; [nil] is [None].
    - A function that can panic (index out of range) returns [option]. *)

From Stdlib Require Import ZArith String Ascii List Lia.
From stdpp Require Import base option list gmap strings sorting pretty.

Set Warnings "-clear-no-such-hyp".

Open Scope string_scope.
Open Scope list_scope.
Open Scope Z_scope.

(** ** Go errors *)

(** [errors.New]/[fmt.Errorf] without [%w] give an [errorString];
    [fmt.Errorf] with one [%w] gives a [wrapError] (the text before the
    wrapped error and the wrapped error); [errors.Join] gives a
    [joinError]. *)
#[warnings="-register-all"]
Inductive goError : Type :=
| errorString (msg : string)
| wrapError (msg : string) (inner : goError)
| joinError (errs : list goError).

Definition error : Type := option goError.

(** [errors.Join(errs...)]: nil arguments are discarded, and the result is
    nil when every argument is nil. *)
Definition errors_Join (errs : list error) : error :=
  match omap id errs with
  | [] => None
  | es => Some (joinError es)
  end.

(** [fmt.Errorf(prefix + "%w", e)] *)
Definition Errorf_w (prefix : string) (e : goError) : goError :=
  wrapError prefix e.

(** The errors an error holds: the joins made by [errors.Join] form a tree
    whose leaves are the errors that were joined, in their order (the
    lines [joinError.Error] prints). *)
Fixpoint joinedErrors (e : goError) : list goError :=
  match e with
  | joinError errs =>
      (fix all (l : list goError) : list goError :=
         match l with
         | [] => []
         | x :: l => joinedErrors x ++ all l
         end) errs
  | _ => [e]
  end.

Definition errorsOf (e : error) : list goError :=
  match e with
  | None => []
  | Some e => joinedErrors e
  end.

(** ** strconv / json.Number *)

Definition digitValue (c : ascii) : option Z :=
  let n := Z.of_N (N_of_ascii c) in
  if (48 <=? n) && (n <=? 57) then Some (n - 48) else None.

Fixpoint parseDigits (acc : Z) (s : string) : option Z :=
  match s with
  | EmptyString => Some acc
  | String c rest =>
      match digitValue c with
      | Some d => parseDigits (10 * acc + d) rest
      | None => None
      end
  end.

Definition minInt64 : Z := - 2 ^ 63.
Definition maxInt64 : Z := 2 ^ 63 - 1.

(** [json.Number.Int64], that is [strconv.ParseInt(string(n), 10, 64)]: an
    optional sign, at least one decimal digit, nothing else, and a value
    in the range of [int64]. *)
Definition Int64 (n : string) : goError + Z :=
  let syntaxErr := errorString ("strconv.ParseInt: parsing " +:+ n +:+ ": invalid syntax") in
  let rangeErr := errorString ("strconv.ParseInt: parsing " +:+ n +:+ ": value out of range") in
  let '(neg, digits) :=
    match n with
    | String "-" rest => (true, rest)
    | String "+" rest => (false, rest)
    | _ => (false, n)
    end in
  match digits with
  | EmptyString => inl syntaxErr
  | _ =>
      match parseDigits 0 digits with
      | None => inl syntaxErr
      | Some v =>
          let v := if neg : bool then - v else v in
          if (minInt64 <=? v) && (v <=? maxInt64) then inr v else inl rangeErr
      end
  end.

(** [int(u)] for a [uint] [u]: the 64 bits of [u] read as a signed
    integer, negative from 2^63 up. *)
Definition intOfUint (u : nat) : Z :=
  let bits := Z.of_nat u mod 2 ^ 64 in
  if bits <? 2 ^ 63 then bits else bits - 2 ^ 64.

(** ** Requests and results *)

Inductive httpMethod := GetMethod | PostMethod | PutMethod | DeleteMethod.

Inductive endpointKind := nodeMgmt | dbHTTPS.

(** Modelled from the spec: [hostHTTPRequest] is declared outside the files modelled here.
    The spec lists {method, endpoint-kind, path, query-params, body,
    per-request timeout, optional username+password}; [buildNMAEndpoint]
    and [buildHTTPSEndpoint] set the endpoint kind and the path. *)
Record hostHTTPRequest := mkRequest {
  Method : httpMethod;
  Endpoint : option (endpointKind * string);
  QueryParams : gmap string string;
  RequestData : string;
  Timeout : Z;
  Username : string;
  Password : option string
}.

Definition emptyRequest : hostHTTPRequest :=
  mkRequest GetMethod None ∅ "" 0 "" None.

Definition setMethod (m : httpMethod) (r : hostHTTPRequest) : hostHTTPRequest :=
  mkRequest m (Endpoint r) (QueryParams r) (RequestData r) (Timeout r) (Username r) (Password r).
Definition buildNMAEndpoint (path : string) (r : hostHTTPRequest) : hostHTTPRequest :=
  mkRequest (Method r) (Some (nodeMgmt, path)) (QueryParams r) (RequestData r) (Timeout r) (Username r) (Password r).
Definition buildHTTPSEndpoint (path : string) (r : hostHTTPRequest) : hostHTTPRequest :=
  mkRequest (Method r) (Some (dbHTTPS, path)) (QueryParams r) (RequestData r) (Timeout r) (Username r) (Password r).
Definition setQueryParams (q : gmap string string) (r : hostHTTPRequest) : hostHTTPRequest :=
  mkRequest (Method r) (Endpoint r) q (RequestData r) (Timeout r) (Username r) (Password r).
Definition setRequestData (d : string) (r : hostHTTPRequest) : hostHTTPRequest :=
  mkRequest (Method r) (Endpoint r) (QueryParams r) d (Timeout r) (Username r) (Password r).
Definition setTimeout (t : Z) (r : hostHTTPRequest) : hostHTTPRequest :=
  mkRequest (Method r) (Endpoint r) (QueryParams r) (RequestData r) t (Username r) (Password r).
Definition setCredentials (u : string) (p : option string) (r : hostHTTPRequest) : hostHTTPRequest :=
  mkRequest (Method r) (Endpoint r) (QueryParams r) (RequestData r) (Timeout r) u p.

Inductive resultStatus := passing | failure | unauthorized | eof | exception.

Global Instance resultStatus_eq_dec : EqDecision resultStatus.
Proof. solve_decision. Defined.

(** Modelled from the spec: [hostHTTPResult] and its predicates are declared
    outside the files modelled here.  The spec lists {host, status-class in {passing, failure,
    unauthorized, eof, exception}, http-status, content, err} with the
    derived predicates [isPassing] and [isUnauthorized]. *)
Record hostHTTPResult := mkResult {
  host : string;
  status : resultStatus;
  statusCode : Z;
  content : string;
  err : error
}.

Definition isPassing (r : hostHTTPResult) : bool :=
  bool_decide (status r = passing).
Definition isUnauthorizedRequest (r : hostHTTPResult) : bool :=
  bool_decide (status r = unauthorized).

Record ClusterHTTPRequest := mkClusterRequest {
  RequestName : string;
  RequestCollection : gmap string hostHTTPRequest;
  ResultCollection : gmap string hostHTTPResult
}.

(** The order in which a [range] loop may visit a map: any arrangement of
    its entries. *)
Definition rangeOrder {V : Type} (m : gmap string V) (order : list (string * V)) : Prop :=
  order ≡ₚ map_to_list m.

(** [opBase]: the fields the operations below use. *)
Record opBase := mkOpBase {
  name : string;
  description : string;
  hosts : list string;
  clusterHTTPRequest : ClusterHTTPRequest
}.

Definition setHosts (hs : list string) (b : opBase) : opBase :=
  mkOpBase (name b) (description b) hs (clusterHTTPRequest b).
Definition setRequestCollection (rc : gmap string hostHTTPRequest) (b : opBase) : opBase :=
  mkOpBase (name b) (description b) (hosts b)
    (mkClusterRequest (RequestName (clusterHTTPRequest b)) rc
       (ResultCollection (clusterHTTPRequest b))).
Definition requests (b : opBase) : gmap string hostHTTPRequest :=
  RequestCollection (clusterHTTPRequest b).

(** ** The coordination database *)

Inductive nodeState := NodeUpState | NodeDownState | NodeUnknownState.

Global Instance nodeState_eq_dec : EqDecision nodeState.
Proof. solve_decision. Defined.

(** Modelled from the spec: [VCoordinationNode] and [VCoordinationDatabase]
    are declared outside the files modelled here; the fields are those of the spec's
    CoordinationNode and CoordinationDatabase, under the names the source
    uses for them. *)
Record VCoordinationNode := mkVNode {
  Name : string;
  Address : string;
  CatalogPath : string;
  DataPath : string;
  DepotPath : string;
  StorageLocations : list string;
  UserStorageLocations : list string;
  Subcluster : string;
  IsPrimary : bool;
  IsEphemeral : bool;
  State : nodeState;
  Sandbox : string
}.

Definition setAddress (a : string) (n : VCoordinationNode) : VCoordinationNode :=
  mkVNode (Name n) a (CatalogPath n) (DataPath n) (DepotPath n) (StorageLocations n)
    (UserStorageLocations n) (Subcluster n) (IsPrimary n) (IsEphemeral n) (State n) (Sandbox n).

Record VCoordinationDatabase := mkVDB {
  DBName : string;
  IsEon : bool;
  Ipv6 : bool;
  CatalogPrefix : string;
  DataPrefix : string;
  DepotPrefix : string;
  UseDepot : bool;
  HostList : list string;
  HostNodeMap : gmap string VCoordinationNode;
  CommunalStorageLocation : string;
  PrimaryNodeCount : nat
}.

(** [MakeVCoordinationDatabase]: every field at its zero value. *)
Definition MakeVCoordinationDatabase : VCoordinationDatabase :=
  mkVDB "" false false "" "" "" false [] ∅ "" 0.

(** ** The catalog descriptor returned by GET /catalog/database *)

Record nmaVersions := mkVersions {
  Global : string;
  Local : string;
  Session : string;
  Spread : string;
  Transaction : string;
  TwoPhaseID : string
}.

Record nmaVNode := mkNmaVNode {
  nAddress : string;
  nCatalogPath : string;
  nControlAddress : string;
  nControlPort : string;
  nIsEphemeral : bool;
  nIsPrimary : bool;
  nName : string;
  nStorageLocations : list string
}.

Record nmaVDatabase := mkNmaVDB {
  vName : string;
  Versions : nmaVersions;
  Nodes : list nmaVNode;
  vHostNodeMap : gmap string nmaVNode;
  ControlMode : string;
  WillUpgrade : bool;
  SpreadEncryption : string;
  vCommunalStorageLocation : string;
  vPrimaryNodeCount : nat
}.

(** The zero value [nmaVDatabase{}]. *)
Definition zeroNmaVDatabase : nmaVDatabase :=
  mkNmaVDB "" (mkVersions "" "" "" "" "" "") [] ∅ "" false "" "" 0.

Definition setDerived (m : gmap string nmaVNode) (c : nat) (d : nmaVDatabase) : nmaVDatabase :=
  mkNmaVDB (vName d) (Versions d) (Nodes d) m (ControlMode d) (WillUpgrade d)
    (SpreadEncryption d) (vCommunalStorageLocation d) c.

(** ** The execution context *)

(** Modelled from the spec: [opEngineExecContext] is declared outside the files modelled here;
    these are the fields the operations modelled here read and write.  The
    dispatcher is kept abstract: it is the set of hosts [setup] was called
    with. *)
Record opEngineExecContext := mkCtx {
  dispatcher : list (list string);
  nodesInfo : list VCoordinationNode;
  ctxHostsWithLatestCatalog : list string;
  ctxNmaVDatabase : nmaVDatabase
}.

Definition dispatcher_setup (hs : list string) (c : opEngineExecContext) : opEngineExecContext :=
  mkCtx (hs :: dispatcher c) (nodesInfo c) (ctxHostsWithLatestCatalog c) (ctxNmaVDatabase c).
Definition publishElection (hs : list string) (d : nmaVDatabase) (c : opEngineExecContext)
  : opEngineExecContext :=
  mkCtx (dispatcher c) (nodesInfo c) hs d.

(** A decoder for the worked scenarios: the JSON decoder of
    [parseAndCheckResponse] is outside the files modelled here and is a parameter of the
    reducers below; the scenarios run them with a decoder that knows a
    finite table of response bodies and rejects every other body. *)
Definition tableDecoder {T : Type} (table : list (string * T))
    (_host body : string) : goError + T :=
  match list_find (λ kv, kv.1 = body) table with
  | Some (_, (_, d)) => inr d
  | None => inl (errorString "invalid character looking for beginning of value")
  end.

(** ** nmaReadCatalogEditorOp: the catalog-version election *)

Module nmaReadCatalogEditorOp.

Record t := mkOp {
  base : opBase;
  initiator : list string;
  vdb : VCoordinationDatabase;
  catalogPathMap : gmap string string
}.

Definition setBase (b : opBase) (op : t) : t :=
  mkOp b (initiator op) (vdb op) (catalogPathMap op).
Definition setCatalogPathMap (m : gmap string string) (op : t) : t :=
  mkOp (base op) (initiator op) (vdb op) m.

(** The local variables of [processResult]. *)
Record election := mkElection {
  allErrs : error;
  hostsWithLatestCatalog : list string;
  maxGlobalVersion : Z;
  latestNmaVDB : nmaVDatabase
}.

Definition initElection : election := mkElection None [] 0 zeroNmaVDatabase.

Definition addErr (e : error) (st : election) : election :=
  mkElection (errors_Join [allErrs st; e]) (hostsWithLatestCatalog st)
    (maxGlobalVersion st) (latestNmaVDB st).

(** The inner loop over [nmaVDB.Nodes]: the host-to-node map and the number
    of primary nodes. *)
Definition buildHostNodeMap (nodes : list nmaVNode) : gmap string nmaVNode * nat :=
  foldl (λ acc n,
           (<[nAddress n := n]> (acc.1),
            if nIsPrimary n then S (acc.2) else acc.2))
        (∅, 0%nat) nodes.

Definition derive (d : nmaVDatabase) : nmaVDatabase :=
  let '(hostNodeMap, primaryNodeCount) := buildHostNodeMap (Nodes d) in
  setDerived hostNodeMap primaryNodeCount d.

Section Reducer.

(** [opBase.parseAndCheckResponse], the JSON decoder, is outside the files modelled here. *)
Variable parseAndCheckResponse : string → string → goError + nmaVDatabase.

(** One iteration of the loop of [processResult]. *)
Definition visit (op : t) (st : election) (entry : string * hostHTTPResult) : election :=
  let '(h, result) := entry in
  if isPassing result then
    match parseAndCheckResponse h (content result) with
    | inl e =>
        addErr (Some (Errorf_w ("[" +:+ name (base op) +:+ "] fail to parse result on host "
                                  +:+ h +:+ ", details: ") e)) st
    | inr nmaVDB =>
        let nmaVDB := derive nmaVDB in
        match Int64 (Global (Versions nmaVDB)) with
        | inl e =>
            addErr (Some (Errorf_w ("[" +:+ name (base op)
                                      +:+ "] fail to convert spread Version to integer "
                                      +:+ h +:+ ", details: ") e)) st
        | inr globalVersion =>
            if globalVersion >? maxGlobalVersion st then
              mkElection (allErrs st) [h] globalVersion nmaVDB
            else if globalVersion =? maxGlobalVersion st then
              mkElection (allErrs st) (hostsWithLatestCatalog st ++ [h])
                (maxGlobalVersion st) (latestNmaVDB st)
            else st
        end
    end
  else addErr (err result) st.

Definition elect (op : t) (order : list (string * hostHTTPResult)) : election :=
  foldl (visit op) initElection order.

(** [processResult]: [order] is the order in which the [range] loop visits
    [op.clusterHTTPRequest.ResultCollection]. *)
Definition processResult (op : t) (execContext : opEngineExecContext)
    (order : list (string * hostHTTPResult)) : opEngineExecContext * error :=
  let st := elect op order in
  if (length (hostsWithLatestCatalog st) =? 0)%nat then
    (execContext,
     errors_Join [allErrs st;
                  Some (errorString ("[" +:+ name (base op)
                                       +:+ "] cannot find any host with the latest catalog"))])
  else
    (publishElection (hostsWithLatestCatalog st) (latestNmaVDB st) execContext,
     allErrs st).

(** *** What a host contributes *)

(** The descriptor a host returned, with its derived fields and its
    global version: defined when the result is passing, its body decodes
    and [versions.global] converts to an [int64]. *)
Definition parsed (entry : string * hostHTTPResult) : option (Z * nmaVDatabase) :=
  if isPassing entry.2 then
    match parseAndCheckResponse entry.1 (content entry.2) with
    | inl _ => None
    | inr d =>
        match Int64 (Global (Versions (derive d))) with
        | inl _ => None
        | inr v => Some (v, derive d)
        end
    end
  else None.

Definition globalOf (entry : string * hostHTTPResult) : option Z :=
  fst <$> parsed entry.

(** The maximum the loop computes: it starts from 0. *)
Definition maxSeen (order : list (string * hostHTTPResult)) : Z :=
  foldl Z.max 0 (omap globalOf order).

Definition winners (m : Z) (order : list (string * hostHTTPResult)) : list string :=
  (filter (λ e, globalOf e = Some m) order).*1.

(** The first host visited at version [m]. *)
Definition firstAt (m : Z) (order : list (string * hostHTTPResult))
  : option (string * hostHTTPResult) :=
  head (filter (λ e, globalOf e = Some m) order).

(** The error a host contributes to [allErrs], nil for a host whose
    descriptor was parsed. *)
Definition hostError (op : t) (entry : string * hostHTTPResult) : error :=
  let '(h, result) := entry in
  if isPassing result then
    match parseAndCheckResponse h (content result) with
    | inl e =>
        Some (Errorf_w ("[" +:+ name (base op) +:+ "] fail to parse result on host "
                          +:+ h +:+ ", details: ") e)
    | inr d =>
        match Int64 (Global (Versions (derive d))) with
        | inl e =>
            Some (Errorf_w ("[" +:+ name (base op)
                              +:+ "] fail to convert spread Version to integer "
                              +:+ h +:+ ", details: ") e)
        | inr _ => None
        end
    end
  else err result.

End Reducer.

(** *** prepare *)

Definition makeNMAReadCatalogEditorOpWithInitiator
    (initiator : list string) (vdb : VCoordinationDatabase) : t :=
  mkOp (mkOpBase "NMAReadCatalogEditorOp" "Read catalog" []
          (mkClusterRequest "" ∅ ∅))
       initiator vdb ∅.

Definition makeNMAReadCatalogEditorOp (vdb : VCoordinationDatabase) : t :=
  makeNMAReadCatalogEditorOpWithInitiator [] vdb.

Definition catalogRequest (catalogPath : string) : hostHTTPRequest :=
  setQueryParams {[ "catalog_path" := catalogPath ]}
    (buildNMAEndpoint "catalog/database" (setMethod GetMethod emptyRequest)).

Definition putRequest (h : string) (r : hostHTTPRequest) (op : t) : t :=
  setBase (setRequestCollection (<[h := r]> (requests (base op))) (base op)) op.

(** [setupClusterHTTPRequest]: the loop stops with an error at the first
    host without a catalog path; the requests stored before stay. *)
Fixpoint setupClusterHTTPRequest (op : t) (hs : list string) : t * error :=
  match hs with
  | [] => (op, None)
  | h :: rest =>
      match catalogPathMap op !! h with
      | None =>
          (op, Some (errorString ("[" +:+ name (base op)
                                    +:+ "] cannot find catalog path of host " +:+ h)))
      | Some catalogPath =>
          setupClusterHTTPRequest (putRequest h (catalogRequest catalogPath) op) rest
      end
  end.

(** The loop of [prepare] over a non-empty initiator list.  (The error text
    ends with a dump of [vdb.HostNodeMap], left out here.) *)
Fixpoint initiatorLoop (op : t) (init : list string) : t * error :=
  match init with
  | [] => (op, None)
  | h :: rest =>
      let op := setBase (setHosts (hosts (base op) ++ [h]) (base op)) op in
      match HostNodeMap (vdb op) !! h with
      | None =>
          (op, Some (errorString ("[" +:+ name (base op)
                                    +:+ "] cannot find the initiator host " +:+ h
                                    +:+ " from vdb.HostNodeMap")))
      | Some vnode =>
          initiatorLoop (setCatalogPathMap (<[h := CatalogPath vnode]> (catalogPathMap op)) op) rest
      end
  end.

(** The loop of [prepare] over [vdb.HostNodeMap] when no initiator is
    given. *)
Definition rangePaths (cpm : gmap string string)
    (entries : list (string * VCoordinationNode)) : gmap string string :=
  foldl (λ m kv, <[kv.1 := CatalogPath kv.2]> m) cpm entries.

(** [prepare].  [keys] is the order in which [maps.Keys] lists the hosts of
    [vdb.HostNodeMap], [entries] the order in which the [range] loop visits
    them. *)
Definition prepare (op : t) (execContext : opEngineExecContext)
    (keys : list string) (entries : list (string * VCoordinationNode))
  : t * opEngineExecContext * error :=
  let op := setCatalogPathMap ∅ op in
  let '(op, e) :=
    if (length (initiator op) =? 0)%nat then
      let op := setBase (setHosts keys (base op)) op in
      (setCatalogPathMap (rangePaths (catalogPathMap op) entries) op, None)
    else initiatorLoop op (initiator op) in
  match e with
  | Some _ => (op, execContext, e)
  | None =>
      let execContext := dispatcher_setup (hosts (base op)) execContext in
      let '(op, e) := setupClusterHTTPRequest op (hosts (base op)) in
      (op, execContext, e)
  end.

(** The requests [setupClusterHTTPRequest] leaves: those of the hosts up to
    the first one without a catalog path. *)
Fixpoint foundPrefix (cpm : gmap string string) (hs : list string) : list string :=
  match hs with
  | [] => []
  | h :: rest =>
      match cpm !! h with
      | Some _ => h :: foundPrefix cpm rest
      | None => []
      end
  end.

(** What [initiatorLoop] computes from [vdb.HostNodeMap] alone: the catalog
    paths of the initiators, up to the first one the map does not hold. *)
Fixpoint initiatorPaths (hnm : gmap string VCoordinationNode)
    (cpm : gmap string string) (init : list string) : gmap string string * option string :=
  match init with
  | [] => (cpm, None)
  | h :: rest =>
      match hnm !! h with
      | None => (cpm, Some h)
      | Some vnode => initiatorPaths hnm (<[h := CatalogPath vnode]> cpm) rest
      end
  end.

End nmaReadCatalogEditorOp.

(** ** httpsStartReplicationOp *)

Module httpsStartReplicationOp.

Record t := mkOp {
  base : opBase;
  useHTTPPassword : bool;
  userName : string;
  httpsPassword : option string;
  hostRequestBodyMap : gmap string string;
  sourceDB : string;
  targetHosts : string;
  targetDB : string;
  sandbox : string;
  targetUserName : string;
  targetPassword : option string;
  tlsConfig : string
}.

Definition setBase (b : opBase) (op : t) : t :=
  mkOp b (useHTTPPassword op) (userName op) (httpsPassword op) (hostRequestBodyMap op)
    (sourceDB op) (targetHosts op) (targetDB op) (sandbox op) (targetUserName op)
    (targetPassword op) (tlsConfig op).
Definition setBodyMap (m : gmap string string) (op : t) : t :=
  mkOp (base op) (useHTTPPassword op) (userName op) (httpsPassword op) m
    (sourceDB op) (targetHosts op) (targetDB op) (sandbox op) (targetUserName op)
    (targetPassword op) (tlsConfig op).

Record replicateRequestData := mkReplicateData {
  TargetHost : string;
  TargetDB : string;
  TargetUserName : string;
  TargetPassword : option string;
  TLSConfig : string
}.

Section Op.

(** Outside the files modelled here: [json.Marshal], [util.SliceCommon] and the decoder
    [opBase.parseAndCheckMapResponse]. *)
Variable json_Marshal : replicateRequestData → goError + string.
Variable SliceCommon : list string → list string → list string.
Variable parseAndCheckMapResponse : string → string → goError + gmap string string.

(** *** processResult *)

Definition startReplicationOpSuccMsg : string := "REPLICATE".

(** The loop of [processResult] from a state ([allErrs], and the hosts
    [logResponse] was called for) over the results still to visit.  An
    unauthorized result returns at once. *)
Fixpoint processLoop (op : t) (allErrs : error) (logged : list string)
    (order : list (string * hostHTTPResult)) : error * list string :=
  match order with
  | [] => (allErrs, logged)
  | (h, result) :: rest =>
      let logged := logged ++ [h] in
      if isUnauthorizedRequest result then (err result, logged)
      else if negb (isPassing result) then
        processLoop op (errors_Join [allErrs; err result]) logged rest
      else
        match parseAndCheckMapResponse h (content result) with
        | inl e =>
            processLoop op
              (errors_Join [allErrs;
                 Some (Errorf_w ("[" +:+ name (base op) +:+ "] fail to parse result on host "
                                   +:+ h +:+ ", details: ") e)])
              logged rest
        | inr startRepRsp =>
            let detail := default "" (startRepRsp !! "detail") in
            if decide (detail ≠ startReplicationOpSuccMsg) then
              processLoop op
                (errors_Join [allErrs;
                   Some (errorString ("[" +:+ name (base op) +:+ "] response detail should be '"
                                        +:+ startReplicationOpSuccMsg +:+ "' but got '"
                                        +:+ detail +:+ "'"))])
                logged rest
            else processLoop op allErrs logged rest
        end
  end.

(** [processResult]: the returned error and the hosts whose results were
    inspected; [order] is the order of the visit of the result
    collection. *)
Definition processResult (op : t) (order : list (string * hostHTTPResult))
  : error * list string :=
  processLoop op None [] order.

(** *** prepare *)

Fixpoint setupRequestBody_loop (op : t) (hs : list string) : t * error :=
  match hs with
  | [] => (op, None)
  | h :: rest =>
      let replicateData :=
        mkReplicateData (targetHosts op) (targetDB op) (targetUserName op)
          (targetPassword op) (tlsConfig op) in
      match json_Marshal replicateData with
      | inl e =>
          (op, Some (Errorf_w ("[" +:+ name (base op)
                                 +:+ "] fail to marshal request data to JSON string, detail ") e))
      | inr dataBytes =>
          setupRequestBody_loop (setBodyMap (<[h := dataBytes]> (hostRequestBodyMap op)) op) rest
      end
  end.

Definition setupRequestBody (op : t) (hs : list string) : t * error :=
  setupRequestBody_loop (setBodyMap ∅ op) hs.

Definition replicationRequest (op : t) (h : string) : hostHTTPRequest :=
  let r := buildHTTPSEndpoint "replicate/start" (setMethod PostMethod emptyRequest) in
  let r := if useHTTPPassword op then setCredentials (userName op) (httpsPassword op) r else r in
  setRequestData (default "" (hostRequestBodyMap op !! h)) r.

Fixpoint setupClusterHTTPRequest (op : t) (hs : list string) : t * error :=
  match hs with
  | [] => (op, None)
  | h :: rest =>
      setupClusterHTTPRequest
        (setBase (setRequestCollection (<[h := replicationRequest op h]> (requests (base op)))
                    (base op)) op)
        rest
  end.

Definition prepare (op : t) (execContext : opEngineExecContext)
  : t * opEngineExecContext * error :=
  if (length (nodesInfo execContext) =? 0)%nat then
    (op, execContext,
     Some (errorString ("[" +:+ name (base op)
                          +:+ "] cannot find any hosts in OpEngineExecContext")))
  else
    let sourceHosts :=
      Address <$> filter (λ node, State node ≠ NodeDownState ∧ Sandbox node = sandbox op)
                    (nodesInfo execContext) in
    let sourceHosts := SliceCommon (hosts (base op)) sourceHosts in
    match sourceHosts with
    | [] =>
        if decide (sandbox op = "") then
          (op, execContext,
           Some (errorString ("[" +:+ name (base op)
                                +:+ "] cannot find any up hosts from source database "
                                +:+ sourceDB op)))
        else
          (op, execContext,
           Some (errorString ("[" +:+ name (base op)
                                +:+ "] cannot find any up hosts in the sandbox "
                                +:+ sandbox op)))
    | h0 :: _ =>
        let op := setBase (setHosts [h0] (base op)) op in
        match setupRequestBody op (hosts (base op)) with
        | (op, Some e) => (op, execContext, Some e)
        | (op, None) =>
            let execContext := dispatcher_setup (hosts (base op)) execContext in
            let '(op, e) := setupClusterHTTPRequest op (hosts (base op)) in
            (op, execContext, e)
        end
    end.

(** What the model asks of [util.SliceCommon]: its result holds the
    elements common to its two arguments. *)
Definition SliceCommon_spec : Prop :=
  ∀ a b x, x ∈ SliceCommon a b ↔ x ∈ a ∧ x ∈ b.

End Op.

End httpsStartReplicationOp.

(** ** nmaDownloadConfigOp: prepare *)

Module nmaDownloadConfigOp.

(** [hosts] is [None] for a nil slice: [prepare] tests [op.hosts == nil]. *)
Record t := mkOp {
  name : string;
  hosts : option (list string);
  clusterHTTPRequest : ClusterHTTPRequest;
  catalogPathMap : gmap string string;
  endpoint : string;
  fileContent : string;
  vdb : option VCoordinationDatabase
}.

Definition requests (op : t) : gmap string hostHTTPRequest :=
  RequestCollection (clusterHTTPRequest op).

Definition setHosts (hs : option (list string)) (op : t) : t :=
  mkOp (name op) hs (clusterHTTPRequest op) (catalogPathMap op) (endpoint op)
    (fileContent op) (vdb op).
Definition setCatalogPathMap (m : gmap string string) (op : t) : t :=
  mkOp (name op) (hosts op) (clusterHTTPRequest op) m (endpoint op)
    (fileContent op) (vdb op).
Definition putRequest (h : string) (r : hostHTTPRequest) (op : t) : t :=
  mkOp (name op) (hosts op)
    (mkClusterRequest (RequestName (clusterHTTPRequest op))
       (<[h := r]> (requests op)) (ResultCollection (clusterHTTPRequest op)))
    (catalogPathMap op) (endpoint op) (fileContent op) (vdb op).

Definition configRequest (op : t) (catalogPath : string) : hostHTTPRequest :=
  setQueryParams {[ "catalog_path" := catalogPath ]}
    (buildNMAEndpoint (endpoint op) (setMethod GetMethod emptyRequest)).

Fixpoint setupClusterHTTPRequest (op : t) (hs : list string) : t * error :=
  match hs with
  | [] => (op, None)
  | h :: rest =>
      match catalogPathMap op !! h with
      | None =>
          (op, Some (errorString ("[" +:+ name op
                                    +:+ "] fail to get catalog path from host " +:+ h)))
      | Some catalogPath =>
          setupClusterHTTPRequest (putRequest h (configRequest op catalogPath) op) rest
      end
  end.

Section Op.

(** Outside the files modelled here: [getCatalogPath] and
    [updateCatalogPathMapFromCatalogEditor] (which fills the map it is
    given). *)
Variable getCatalogPath : string → string.
Variable updateCatalogPathMapFromCatalogEditor :
  list string → nmaVDatabase → gmap string string → gmap string string * error.

(** [prepare]; [order] is the order in which the [range] loop visits
    [op.vdb.HostNodeMap].  The loop stops at the first primary node that
    is up. *)
Definition prepare (op : t) (execContext : opEngineExecContext)
    (order : list (string * VCoordinationNode)) : t * opEngineExecContext * error :=
  let op := setCatalogPathMap ∅ op in
  let noNodes :=
    match vdb op with
    | None => true
    | Some v => (size (HostNodeMap v) =? 0)%nat
    end in
  let step : t * error :=
    if noNodes then
      let picked : t * error :=
        match hosts op with
        | None =>
            match ctxHostsWithLatestCatalog execContext with
            | [] =>
                (op, Some (errorString
                             "could not find at least one host with the latest catalog"))
            | h :: _ => (setHosts (Some [h]) op, None)
            end
        | Some _ => (op, None)
        end in
      match picked with
      | (op, Some e) => (op, Some e)
      | (op, None) =>
          let '(m, e) :=
            updateCatalogPathMapFromCatalogEditor (default [] (hosts op))
              (ctxNmaVDatabase execContext) (catalogPathMap op) in
          match e with
          | Some e =>
              (setCatalogPathMap m op,
               Some (Errorf_w "failed to get catalog paths from catalog editor: " e))
          | None => (setCatalogPathMap m op, None)
          end
      end
    else
      match list_find (λ kv, IsPrimary kv.2 = true ∧ State kv.2 = NodeUpState) order with
      | Some (_, (h, vnode)) =>
          (setHosts (Some [h])
             (setCatalogPathMap
                (<[h := getCatalogPath (CatalogPath vnode)]> (catalogPathMap op)) op),
           None)
      | None => (op, Some (errorString "could not find any primary up nodes"))
      end in
  match step with
  | (op, Some e) => (op, execContext, Some e)
  | (op, None) =>
      let execContext := dispatcher_setup (default [] (hosts op)) execContext in
      let '(op, e) := setupClusterHTTPRequest op (default [] (hosts op)) in
      (op, execContext, e)
  end.

End Op.

(** Two primary nodes that are up. *)
Definition nodeA : VCoordinationNode :=
  mkVNode "v_test_db_node0001" "192.168.1.101" "/data/test_db/v_test_db_node0001_catalog"
    "" "" [] [] "" true false NodeUpState "".
Definition nodeB : VCoordinationNode :=
  mkVNode "v_test_db_node0002" "192.168.1.102" "/data/test_db/v_test_db_node0002_catalog"
    "" "" [] [] "" true false NodeUpState "".

Definition twoPrimaries : gmap string VCoordinationNode :=
  <["192.168.1.101" := nodeA]> {["192.168.1.102" := nodeB]}.

Definition sampleOp : t :=
  mkOp "NMADownloadVerticaConfigOp" None (mkClusterRequest "" ∅ ∅) ∅ "config/vertica" ""
    (Some (mkVDB "test_db" true false "" "" "" false
             ["192.168.1.101"; "192.168.1.102"] twoPrimaries "" 2)).

Definition sampleCtx : opEngineExecContext := mkCtx [] [] [] zeroNmaVDatabase.

Definition orderAB : list (string * VCoordinationNode) :=
  [("192.168.1.101", nodeA); ("192.168.1.102", nodeB)].
Definition orderBA : list (string * VCoordinationNode) :=
  [("192.168.1.102", nodeB); ("192.168.1.101", nodeA)].

End nmaDownloadConfigOp.

(** ** NMALoadRemoteCatalogOp: the quorum of primary nodes *)

Module NMALoadRemoteCatalogOp.

Definition successfulCode : Z := 0.

Record t := mkOp {
  base : opBase;
  hostRequestBodyMap : gmap string string;
  dbName : string;
  communalLocation : string;
  communalStorageParameters : gmap string string;
  oldHosts : list string;
  vdb : VCoordinationDatabase;
  timeout : nat;
  primaryNodeCount : nat
}.

Record loadCatalogResponse := mkResponse { StatusCode : Z }.

(** [vdb.HostNodeMap[host].IsPrimary]: the zero value, [false], for a host
    the map does not hold. *)
Definition isPrimaryHost (v : VCoordinationDatabase) (h : string) : bool :=
  default false (IsPrimary <$> HostNodeMap v !! h).

(** [makeNMALoadRemoteCatalogOp]; [order] is the order in which the [range]
    loop visits [vdb.HostNodeMap]. *)
Definition makeNMALoadRemoteCatalogOp (newHosts oldHosts : list string)
    (dbName communalLocation : string) (communalStorageParameters : gmap string string)
    (vdb : VCoordinationDatabase) (timeout : nat)
    (order : list (string * VCoordinationNode)) : t :=
  mkOp (mkOpBase "NMALoadRemoteCatalogOp" "" newHosts (mkClusterRequest "" ∅ ∅))
    ∅ dbName communalLocation communalStorageParameters oldHosts vdb timeout
    (foldl (λ count kv, if isPrimaryHost vdb kv.1 then S count else count) 0%nat order).

(** Modelled from the spec: [opBase.hasQuorum] is outside the files modelled here.  The spec
    defines the quorum check as "successes strictly more than half of
    primary-node-count", "returns true iff success > total/2 (strict
    majority)". *)
Definition hasQuorum (hostCount primaryNodeCount : nat) : bool :=
  (primaryNodeCount / 2 <? hostCount)%nat.

Section Reducer.

(** Outside the files modelled here: [appendHTTPSFailureError] and the JSON decoder. *)
Variable appendHTTPSFailureError : error → error.
Variable parseAndCheckResponse : string → string → goError + loadCatalogResponse.

(** One iteration of the loop of [processResult] on the pair
    ([allErrs], [successPrimaryNodeCount]). *)
Definition visit (op : t) (st : error * nat) (entry : string * hostHTTPResult)
  : error * nat :=
  let '(allErrs, successPrimaryNodeCount) := st in
  let '(h, result) := entry in
  if isPassing result then
    match parseAndCheckResponse h (content result) with
    | inl e => (errors_Join [allErrs; Some e], successPrimaryNodeCount)
    | inr response =>
        if decide (StatusCode response ≠ successfulCode) then
          (errors_Join [allErrs;
             Some (errorString ("[" +:+ name (base op)
                                  +:+ "] fail to load remote catalog on host " +:+ h))],
           successPrimaryNodeCount)
        else if isPrimaryHost (vdb op) h then (allErrs, S successPrimaryNodeCount)
        else (allErrs, successPrimaryNodeCount)
    end
  else
    let httpsErr :=
      errors_Join [Some (errorString ("[" +:+ name (base op)
                                        +:+ "] HTTPS call failed on host " +:+ h));
                   err result] in
    (errors_Join [allErrs; httpsErr], successPrimaryNodeCount).

Definition reduce (op : t) (order : list (string * hostHTTPResult)) : error * nat :=
  foldl (visit op) (None, 0%nat) order.

Definition quorumError (op : t) (successPrimaryNodeCount : nat) : goError :=
  errorString ("[" +:+ name (base op)
                 +:+ "] fail to load catalog on enough primary nodes. Success count: "
                 +:+ pretty successPrimaryNodeCount).

(** [processResult]; [order] is the order of the visit of the result
    collection. *)
Definition processResult (op : t) (order : list (string * hostHTTPResult)) : error :=
  let '(allErrs, successPrimaryNodeCount) := reduce op order in
  if negb (hasQuorum successPrimaryNodeCount (primaryNodeCount op)) then
    appendHTTPSFailureError
      (errors_Join [allErrs; Some (quorumError op successPrimaryNodeCount)])
  else None.

(** A host counts when it is a primary node of [vdb] and returned a
    passing result that decodes with status code 0. *)
Definition loaded (op : t) (entry : string * hostHTTPResult) : bool :=
  isPassing entry.2
  && match parseAndCheckResponse entry.1 (content entry.2) with
     | inl _ => false
     | inr response => bool_decide (StatusCode response = successfulCode)
     end
  && isPrimaryHost (vdb op) entry.1.

Definition successCount (op : t) (order : list (string * hostHTTPResult)) : nat :=
  length (filter (λ e, loaded op e = true) order).

(** The error a host contributes to [allErrs], nil for a host that
    returned a passing result decoding with status code 0. *)
Definition hostError (op : t) (entry : string * hostHTTPResult) : error :=
  let '(h, result) := entry in
  if isPassing result then
    match parseAndCheckResponse h (content result) with
    | inl e => Some e
    | inr response =>
        if decide (StatusCode response ≠ successfulCode) then
          Some (errorString ("[" +:+ name (base op)
                               +:+ "] fail to load remote catalog on host " +:+ h))
        else None
    end
  else
    errors_Join [Some (errorString ("[" +:+ name (base op)
                                      +:+ "] HTTPS call failed on host " +:+ h));
                 err result].

End Reducer.

End NMALoadRemoteCatalogOp.

(** ** AdapterPool.sendRequest: the fan-out *)

Module AdapterPool.

(** Modelled from the spec: the [Adapter] interface is declared outside
    the files modelled here.  Per the spec an adapter is the per-host transport: it
    "serializes one HostRequest, returns one HostResult" on the result
    channel. *)
Definition Adapter : Type := hostHTTPRequest → hostHTTPResult.

Record t := mkPool {
  forCli : bool;
  connections : gmap string Adapter
}.

Record adapterToRequest := mkAR {
  adapter : Adapter;
  request : hostHTTPRequest
}.

(** The first loop of [sendRequest] over the request collection, visited
    in [order]: it returns at the first host the pool does not hold. *)
Fixpoint collect (pool : t) (order : list (string * hostHTTPRequest))
  : goError + list adapterToRequest :=
  match order with
  | [] => inr []
  | (h, rq) :: rest =>
      match connections pool !! h with
      | None => inl (errorString ("host " +:+ h +:+ " is not found in the adapter pool"))
      | Some a =>
          match collect pool rest with
          | inl e => inl e
          | inr ars => inr (mkAR a rq :: ars)
          end
      end
  end.

(** What the goroutines put on the result channel, one result each. *)
Definition responses (ars : list adapterToRequest) : list hostHTTPResult :=
  (λ ar, adapter ar (request ar)) <$> ars.

(** The receiving loop: [hostCount] results are taken from the channel and
    stored under the host each result names. *)
Definition gather (received : list hostHTTPResult) : gmap string hostHTTPResult :=
  foldl (λ m r, <[host r := r]> m) ∅ received.

(** The workers run concurrently: the channel delivers their results in
    any order. *)
Definition arrival (pool : t) (order : list (string * hostHTTPRequest))
    (received : list hostHTTPResult) : Prop :=
  ∀ ars, collect pool order = inr ars → received ≡ₚ responses ars.

(** [sendRequest]; [order] is the order of the visit of the request
    collection, [received] the results in their order of arrival.  (The
    progress ticker prints only and is left out.) *)
Definition sendRequest (pool : t) (clusterHTTPRequest : ClusterHTTPRequest)
    (order : list (string * hostHTTPRequest)) (received : list hostHTTPResult)
  : ClusterHTTPRequest * error :=
  match collect pool order with
  | inl e => (clusterHTTPRequest, Some e)
  | inr ars =>
      (mkClusterRequest (RequestName clusterHTTPRequest)
         (RequestCollection clusterHTTPRequest) (gather received), None)
  end.

(** Every adapter of the pool answers under the host it is registered
    for. *)
Definition keyed (pool : t) : Prop :=
  ∀ h a rq, connections pool !! h = Some a → host (a rq) = h.

End AdapterPool.

(** ** generateReviveVDB *)

Module ReviveDB.

(** The order of [sort.Slice] with [vNodes[i].Name < vNodes[j].Name]: Go
    compares strings byte by byte. *)
Definition nameLe (a b : VCoordinationNode) : Prop :=
  String.leb (Name a) (Name b) = true.

Global Instance nameLe_dec a b : Decision (nameLe a b).
Proof. unfold nameLe. apply _. Defined.

Global Instance nameLe_total : Total nameLe.
Proof. intros a b. apply String.leb_total. Qed.

(** What [vNodes] may be after the map was listed and sorted: an
    arrangement of the nodes of the map in the order of their names.
    ([sort.Slice] is not stable, and the map is listed in any order: nodes
    of one name may come in any order.) *)
Definition sortedNodes (vdb : VCoordinationDatabase) (vNodes : list VCoordinationNode) : Prop :=
  vNodes ≡ₚ (map_to_list (HostNodeMap vdb)).*2 ∧ Sorted nameLe vNodes.

(** The loop over [newVDB.HostList] from position [index]; [None] is the
    panic of [vNodes[index]] out of range. *)
Fixpoint assignHosts (vNodes : list VCoordinationNode) (index : nat) (hs : list string)
    (hostNodeMap : gmap string VCoordinationNode) (oldHosts : list string)
  : option (gmap string VCoordinationNode * list string) :=
  match hs with
  | [] => Some (hostNodeMap, oldHosts)
  | newHost :: rest =>
      match vNodes !! index with
      | None => None
      | Some n =>
          let oldHosts := oldHosts ++ [Address n] in
          let vNodes := <[index := setAddress newHost n]> vNodes in
          match vNodes !! index with
          | None => None
          | Some n' => assignHosts vNodes (S index) rest (<[newHost := n']> hostNodeMap) oldHosts
          end
      end
  end.

Definition setHostList (hs : list string) (v : VCoordinationDatabase) : VCoordinationDatabase :=
  mkVDB (DBName v) (IsEon v) (Ipv6 v) (CatalogPrefix v) (DataPrefix v) (DepotPrefix v)
    (UseDepot v) hs (HostNodeMap v) (CommunalStorageLocation v) (PrimaryNodeCount v).
Definition setHostNodeMap (m : gmap string VCoordinationNode) (v : VCoordinationDatabase)
  : VCoordinationDatabase :=
  mkVDB (DBName v) (IsEon v) (Ipv6 v) (CatalogPrefix v) (DataPrefix v) (DepotPrefix v)
    (UseDepot v) (HostList v) m (CommunalStorageLocation v) (PrimaryNodeCount v).

(** [generateReviveVDB]; [vNodes] is the slice as [sort.Slice] left it. *)
Definition generateReviveVDB (vdb : VCoordinationDatabase) (hs : list string)
    (vNodes : list VCoordinationNode) : option (VCoordinationDatabase * list string) :=
  let newVDB := setHostList hs MakeVCoordinationDatabase in
  match assignHosts vNodes 0 (HostList newVDB) ∅ [] with
  | None => None
  | Some (hostNodeMap, oldHosts) => Some (setHostNodeMap hostNodeMap newVDB, oldHosts)
  end.

End ReviveDB.

(** ** NMALoadRemoteCatalogOp: prepare *)

(** [loadRemoteCatalogRequestData], the body of POST catalog/revive. *)
Module loadRemoteCatalogRequestData.

Record t := mk {
  DBName : string;
  StorageLocations : list string;
  CommunalLocation : string;
  CatalogPath : string;
  Host : string;
  NodeName : string;
  AWSAccessKeyID : string;
  AWSSecretAccessKey : string;
  NodeAddresses : gmap string (list string);
  Parameters : gmap string string
}.

End loadRemoteCatalogRequestData.

Module NMALoadRemoteCatalogOp_prepare.
Import NMALoadRemoteCatalogOp.

Definition setBase (b : opBase) (op : t) : t :=
  mkOp b (hostRequestBodyMap op) (dbName op) (communalLocation op)
    (communalStorageParameters op) (oldHosts op) (vdb op) (timeout op) (primaryNodeCount op).
Definition setBodyMap (m : gmap string string) (op : t) : t :=
  mkOp (base op) m (dbName op) (communalLocation op)
    (communalStorageParameters op) (oldHosts op) (vdb op) (timeout op) (primaryNodeCount op).

Section Op.

(** Outside the files modelled here: the network profile of a host, of
    which the operation reads [Address] and [Broadcast];
    [extractAWSAuthFromParameters], which returns the key id, the secret
    and whether they were found; [json.Marshal]; and
    [OpBase.setVersionToSemVar]. *)
Variable NetworkProfile : Type.
Variable profileAddress : NetworkProfile → string.
Variable profileBroadcast : NetworkProfile → string.
Variable extractAWSAuthFromParameters : gmap string string → goError + (string * string * bool).
Variable json_Marshal : loadRemoteCatalogRequestData.t → goError + string.
Variable setVersionToSemVar : opBase → opBase.

(** [OpEngineExecContext]: the fields [prepare] uses. *)
Record OpEngineExecContext := mkExecContext {
  dispatcher : list (list string);
  networkProfiles : gmap string NetworkProfile
}.

Definition dispatcher_Setup (hs : list string) (c : OpEngineExecContext) : OpEngineExecContext :=
  mkExecContext (hs :: dispatcher c) (networkProfiles c).

(** The first loop of [setupRequestBody]: the addresses of each node,
    under the name [vdb.HostNodeMap] gives for its host (the empty name
    for a host the map does not hold); [order] is the order of the visit
    of [execContext.networkProfiles]. *)
Definition nodeAddresses (op : t) (order : list (string * NetworkProfile))
  : gmap string (list string) :=
  foldl (λ m hp,
           let addresses := [hp.1; profileAddress hp.2; profileBroadcast hp.2] in
           let nodeName := default "" (Name <$> HostNodeMap (vdb op) !! hp.1) in
           <[nodeName := addresses]> m)
    ∅ order.

(** The request data of [host], which replaces [oldHost]. *)
Definition requestData (op : t) (nodeAddresses : gmap string (list string))
    (host oldHost : string) (aws : string * string * bool) : loadRemoteCatalogRequestData.t :=
  let vNode := HostNodeMap (vdb op) !! host in
  let '(awsKeyID, awsKeySecret, found) := aws in
  loadRemoteCatalogRequestData.mk (dbName op)
    (default [] (StorageLocations <$> vNode))
    (communalLocation op)
    (default "" (CatalogPath <$> vNode))
    oldHost
    (default "" (Name <$> vNode))
    (if found : bool then awsKeyID else "")
    (if found : bool then awsKeySecret else "")
    nodeAddresses
    (communalStorageParameters op).

(** The second loop of [setupRequestBody], from position [index] of
    [op.hosts]; [None] is the panic of [op.oldHosts[index]] out of
    range. *)
Fixpoint requestBodyLoop (op : t) (nodeAddresses : gmap string (list string))
    (index : nat) (hs : list string) : option (t * error) :=
  match hs with
  | [] => Some (op, None)
  | host :: rest =>
      match oldHosts op !! index with
      | None => None
      | Some oldHost =>
          match extractAWSAuthFromParameters (communalStorageParameters op) with
          | inl e => Some (op, Some (Errorf_w ("[" +:+ name (base op) +:+ "] ") e))
          | inr aws =>
              match json_Marshal (requestData op nodeAddresses host oldHost aws) with
              | inl e =>
                  Some (op, Some (Errorf_w
                                    ("[" +:+ name (base op)
                                       +:+ "] fail to marshal request data to JSON string, detail ")
                                    e))
              | inr dataBytes =>
                  requestBodyLoop
                    (setBodyMap (<[host := dataBytes]> (hostRequestBodyMap op)) op)
                    nodeAddresses (S index) rest
              end
          end
      end
  end.

Definition setupRequestBody (op : t) (execContext : OpEngineExecContext)
    (order : list (string * NetworkProfile)) : option (t * error) :=
  if decide (size (networkProfiles execContext) ≠ length (hosts (base op))) then
    Some (op, Some (errorString
                      ("[" +:+ name (base op)
                         +:+ "] the number of hosts in networkProfiles does not match"
                         +:+ " the number of hosts that will load remote catalogs")))
  else
    requestBodyLoop (setBodyMap ∅ op) (nodeAddresses op order) 0 (hosts (base op)).

Definition reviveRequest (op : t) (host : string) : hostHTTPRequest :=
  setTimeout (intOfUint (timeout op))
    (setRequestData (default "" (hostRequestBodyMap op !! host))
       (buildNMAEndpoint "catalog/revive" (setMethod PostMethod emptyRequest))).

Fixpoint requestLoop (op : t) (hs : list string) : t :=
  match hs with
  | [] => op
  | host :: rest =>
      requestLoop
        (setBase (setRequestCollection (<[host := reviveRequest op host]> (requests (base op)))
                    (base op)) op)
        rest
  end.

(** [setupClusterHTTPRequest]: the request of the operation is replaced by
    an empty one before the loop. *)
Definition setupClusterHTTPRequest (op : t) (hs : list string) : t * error :=
  let b := base op in
  let op := setBase (mkOpBase (name b) (description b) (hosts b) (mkClusterRequest "" ∅ ∅)) op in
  let op := setBase (setVersionToSemVar (base op)) op in
  (requestLoop op hs, None).

(** [prepare]; [None] is the panic of [setupRequestBody]. *)
Definition prepare (op : t) (execContext : OpEngineExecContext)
    (order : list (string * NetworkProfile)) : option (t * OpEngineExecContext * error) :=
  match setupRequestBody op execContext order with
  | None => None
  | Some (op, Some e) => Some (op, execContext, Some e)
  | Some (op, None) =>
      let execContext := dispatcher_Setup (hosts (base op)) execContext in
      let '(op, e) := setupClusterHTTPRequest op (hosts (base op)) in
      Some (op, execContext, e)
  end.

End Op.

Arguments mkExecContext {NetworkProfile} _ _.
Arguments dispatcher {NetworkProfile} _.
Arguments networkProfiles {NetworkProfile} _.
Arguments dispatcher_Setup {NetworkProfile} _ _.
Arguments nodeAddresses {NetworkProfile} _ _ _ _.
Arguments setupRequestBody {NetworkProfile} _ _ _ _ _ _ _.
Arguments prepare {NetworkProfile} _ _ _ _ _ _ _ _.

End NMALoadRemoteCatalogOp_prepare.

(** ** produceReviveDBInstructions2: the nodes whose directories are prepared *)

Module ReviveDBInstructions.

Definition setStorageLocations (ls : list string) (n : VCoordinationNode) : VCoordinationNode :=
  mkVNode (Name n) (Address n) (CatalogPath n) (DataPath n) (DepotPath n) ls
    (UserStorageLocations n) (Subcluster n) (IsPrimary n) (IsEphemeral n) (State n) (Sandbox n).

(** The body of the loop over [newVDB.HostNodeMap]: the storage locations
    of the node that are not user storage locations, in their order. *)
Definition excludeUserLocations (vNode : VCoordinationNode) : VCoordinationNode :=
  let userLocationSet : gset string := list_to_set (UserStorageLocations vNode) in
  let newLocations := filter (λ location, location ∉ userLocationSet) (StorageLocations vNode) in
  setStorageLocations newLocations vNode.

(** The map given to [makeNMAPrepareDirectoriesOp]; [order] is the order
    of the visit of [newVDB.HostNodeMap]. *)
Definition hostNodeMap (order : list (string * VCoordinationNode))
  : gmap string VCoordinationNode :=
  foldl (λ m kv, <[kv.1 := excludeUserLocations kv.2]> m) ∅ order.

End ReviveDBInstructions.

(** ** nmaDownloadConfigOp: processResult *)

Module nmaDownloadConfigOp_processResult.
Import nmaDownloadConfigOp.

(** [*op.fileContent = content]: the record holds the string the pointer
    of the operation points to. *)
Definition setFileContent (c : string) (op : t) : t :=
  mkOp (name op) (hosts op) (clusterHTTPRequest op) (catalogPathMap op) (endpoint op) c (vdb op).

Section Op.

(** Outside the files modelled here. *)
Variable appendHTTPSFailureError : error → error.

Fixpoint processLoop (op : t) (allErrs : error) (order : list (string * hostHTTPResult))
  : t * error :=
  match order with
  | [] => (op, appendHTTPSFailureError allErrs)
  | (_, result) :: rest =>
      if isPassing result then (setFileContent (content result) op, None)
      else processLoop op (errors_Join [allErrs; err result]) rest
  end.

(** [processResult]; [order] is the order of the visit of the result
    collection. *)
Definition processResult (op : t) (order : list (string * hostHTTPResult)) : t * error :=
  processLoop op None order.

End Op.

End nmaDownloadConfigOp_processResult.

(** ** getInitiator *)

Module CreateDB.

Section Initiator.

(** Outside the files modelled here. *)
Variable IsLocalHost : string → goError + bool.

Definition errMsg : string := "fail to find initiator node from the host list".

(** The loop of [getInitiator]; [None] when it ends without returning. *)
Fixpoint initiatorLoop (hs : list string) : option (string * error) :=
  match hs with
  | [] => None
  | host :: rest =>
      match IsLocalHost host with
      | inl e => Some ("", Some (Errorf_w (errMsg +:+ ", ") e))
      | inr true => Some (host, None)
      | inr false => initiatorLoop rest
      end
  end.

(** [getInitiator]; [None] is the panic of [hosts[0]] on an empty list. *)
Definition getInitiator (hs : list string) : option (string * error) :=
  match initiatorLoop hs with
  | Some r => Some r
  | None =>
      match hs !! 0%nat with
      | Some h => Some (h, None)
      | None => None
      end
  end.

End Initiator.

End CreateDB.

(** ** httpsPollSubscriptionStateOp: shouldStopPolling *)

Module httpsPollSubscriptionStateOp.

Record t := mkOp {
  base : opBase;
  useHTTPPassword : bool;
  userName : string;
  httpsPassword : option string;
  timeout : Z
}.

Record SubscriptionInfo := mkSubscription {
  Nodename : string;
  ShardName : string;
  SubscriptionState : string;
  IsPrimary : bool
}.

(** [SubscriptionList], a struct of one field of that name. *)
Record SubscriptionList := mkSubscriptionList {
  subscription_list : list SubscriptionInfo
}.

Section Op.

(** Outside the files modelled here: the test of a result for a wrong
    password or certificate, and the JSON decoder. *)
Variable isPasswordAndCertificateError : hostHTTPResult → bool.
Variable parseAndCheckResponse : string → string → goError + SubscriptionList.

(** The inner loop: [false] at the first subscription that is not
    ACTIVE. *)
Fixpoint allActive (l : list SubscriptionInfo) : bool :=
  match l with
  | [] => true
  | s :: rest => if decide (SubscriptionState s ≠ "ACTIVE") then false else allActive rest
  end.

(** [shouldStopPolling]; [order] is the order of the visit of the result
    collection. *)
Fixpoint shouldStopPolling (op : t) (order : list (string * hostHTTPResult)) : bool * error :=
  match order with
  | [] => (false, None)
  | (h, result) :: rest =>
      if isPasswordAndCertificateError result then
        (true, Some (errorString ("[" +:+ name (base op)
                                    +:+ "] wrong password/certificate for https service on host "
                                    +:+ h)))
      else if isPassing result then
        match parseAndCheckResponse h (content result) with
        | inl e => (true, Some e)
        | inr subscriptionList =>
            if allActive (subscription_list subscriptionList) then (true, None)
            else (false, None)
        end
      else shouldStopPolling op rest
  end.

End Op.

End httpsPollSubscriptionStateOp.

(** ** create_db: the depot size and the Eon options *)

Module CreateDBOptions.

(** [strings.Contains(s, substr)] *)
Definition strings_Contains (s substr : string) : bool :=
  match String.index 0 substr s with
  | Some _ => true
  | None => false
  end.

(** [strconv.Atoi], that is [ParseInt(s, 10, 0)] with an [int] of 64
    bits. *)
Definition Atoi (s : string) : goError + Z := Int64 s.

(** The regular expressions [^([-+]?\d+)(%)$] and [^([-+]?\d+)([KMGT])$]
    are anchored at both ends: [FindAllStringSubmatch] finds at most one
    match, the whole string, whose groups are all but the last byte and
    the last byte. *)
Definition isDigit (c : ascii) : bool :=
  match digitValue c with
  | Some _ => true
  | None => false
  end.

Fixpoint digits (s : string) : bool :=
  match s with
  | EmptyString => true
  | String c rest => isDigit c && digits rest
  end.

(** [[-+]?\d+] *)
Definition signedDigits (s : string) : bool :=
  let unsigned :=
    match s with
    | String "-" rest => rest
    | String "+" rest => rest
    | _ => s
    end in
  match unsigned with
  | EmptyString => false
  | _ => digits unsigned
  end.

(** A string split before its last byte. *)
Fixpoint splitLast (s : string) : option (string * ascii) :=
  match s with
  | EmptyString => None
  | String c EmptyString => Some (EmptyString, c)
  | String c rest =>
      match splitLast rest with
      | Some (body, l) => Some (String c body, l)
      | None => None
      end
  end.

(** The first group of the match of [^([-+]?\d+)(X)$], for a class [X]
    of bytes; [None] when [len(matches) != 1]. *)
Definition FindAllStringSubmatch (class : ascii → bool) (s : string) : option string :=
  match splitLast s with
  | Some (body, l) => if signedDigits body && class l then Some body else None
  | None => None
  end.

Definition percentClass (c : ascii) : bool := Ascii.eqb c "%".
Definition unitClass (c : ascii) : bool :=
  Ascii.eqb c "K" || Ascii.eqb c "M" || Ascii.eqb c "G" || Ascii.eqb c "T".

(** The options [ValidateEonOptions] reads, as the values their pointers
    point to. *)
Record VCreateDatabaseOptions := mkOptions {
  DepotPrefix : string;
  ShardCount : Z;
  CommunalStorageLocation : string;
  DepotSize : string;
  GetAwsCredentialsFromEnv : bool
}.

Section Validate.

(** Outside the files modelled here: [strings.TrimSpace] and the
    constants [util.MaxDepotSize] and [util.MinDepotSize]. *)
Variable TrimSpace : string → string.
Variable MaxDepotSize : Z.
Variable MinDepotSize : Z.

Definition validateDepotSizePercent (size : string) : bool * error :=
  if negb (strings_Contains size "%") then (true, None)
  else
    let cleanSize := TrimSpace size in
    match FindAllStringSubmatch percentClass cleanSize with
    | None =>
        (false,
         Some (errorString
                 (size +:+ " is not a well-formatted whole-number percentage of the format <int>%")))
    | Some valueStr =>
        match Atoi valueStr with
        | inl _ =>
            (false,
             Some (errorString
                     (size +:+ " is not a well-formatted whole-number percent of the format <int>%")))
        | inr value =>
            if MaxDepotSize <? value then
              (false,
               Some (errorString ("depot-size " +:+ size
                                    +:+ " is invalid, because it is greater than 100%")))
            else if value <? MinDepotSize then
              (false,
               Some (errorString ("depot-size " +:+ size
                                    +:+ " is invalid, because it is less than 0%")))
            else (true, None)
        end
    end.

Definition validateDepotSizeBytes (size : string) : bool * error :=
  if strings_Contains size "%" then (true, None)
  else
    let cleanSize := TrimSpace size in
    match FindAllStringSubmatch unitClass cleanSize with
    | None =>
        (false,
         Some (errorString
                 (size +:+ " is not a well-formatted whole-number size in bytes of the format <int>[KMGT]")))
    | Some valueStr =>
        match Atoi valueStr with
        | inl _ =>
            (false,
             Some (errorString
                     ("depot size " +:+ size
                        +:+ " is not a well-formatted whole-number size in bytes of the format <int>[KMGT]")))
        | inr value =>
            if value <=? 0 then
              (false,
               Some (errorString ("depot size " +:+ size
                                    +:+ " is not a valid size because it is <= 0")))
            else (true, None)
        end
    end.

Definition validateDepotSize (size : string) : bool * error :=
  let '(validDepotPercent, err) := validateDepotSizePercent size in
  if negb validDepotPercent then (validDepotPercent, err)
  else
    let '(validDepotBytes, err) := validateDepotSizeBytes size in
    if negb validDepotBytes then (validDepotBytes, err)
    else (true, None).

Definition ValidateEonOptions (opt : VCreateDatabaseOptions) : error :=
  if decide (CommunalStorageLocation opt ≠ "" ∧ DepotPrefix opt = "") then
    Some (errorString "must specify a depot path with commual storage location")
  else if decide (CommunalStorageLocation opt ≠ "" ∧ ShardCount opt = 0) then
    Some (errorString
            "must specify a shard count greater than 0 with communal storage location")
  else if decide (DepotPrefix opt ≠ "" ∧ CommunalStorageLocation opt = "") then
    Some (errorString "when depot path is given, communal storage location cannot be empty")
  else if GetAwsCredentialsFromEnv opt && bool_decide (CommunalStorageLocation opt = "") then
    Some (errorString "AWS credentials are only used in Eon mode")
  else if decide (DepotSize opt ≠ "") then
    if decide (DepotPrefix opt = "") then
      Some (errorString "when depot size is given, depot path cannot be empty")
    else
      let '(validDepotSize, err) := validateDepotSize (DepotSize opt) in
      if negb validDepotSize then err else None
  else None.

End Validate.

End CreateDBOptions.

(** ** makeHTTPSStartReplicationOp *)

Module httpsStartReplicationOp_make.
Import httpsStartReplicationOp.

Definition setSourceCredentials (u : string) (p : option string) (op : t) : t :=
  mkOp (base op) (useHTTPPassword op) u p (hostRequestBodyMap op)
    (sourceDB op) (targetHosts op) (targetDB op) (sandbox op) (targetUserName op)
    (targetPassword op) (tlsConfig op).
Definition setTargetCredentials (u : string) (p : option string) (op : t) : t :=
  mkOp (base op) (useHTTPPassword op) (userName op) (httpsPassword op) (hostRequestBodyMap op)
    (sourceDB op) (targetHosts op) (targetDB op) (sandbox op) u p (tlsConfig op).

Section Make.

(** Outside the files modelled here. *)
Variable ValidateUsernameAndPassword : string → bool → string → error.

Definition makeHTTPSStartReplicationOp (dbName : string) (sourceHosts : list string)
    (sourceUseHTTPPassword : bool) (sourceUserName : string)
    (sourceHTTPPassword : option string) (targetUseHTTPPassword : bool)
    (targetDB targetUserName targetHosts : string) (targetHTTPSPassword : option string)
    (tlsConfig sandbox : string) : t * error :=
  let op :=
    mkOp (mkOpBase "HTTPSStartReplicationOp" "Start database replication" sourceHosts
            (mkClusterRequest "" ∅ ∅))
      sourceUseHTTPPassword "" None ∅ dbName targetHosts targetDB sandbox "" None tlsConfig in
  let source : t * error :=
    if sourceUseHTTPPassword then
      match ValidateUsernameAndPassword (name (base op)) sourceUseHTTPPassword sourceUserName with
      | Some e => (op, Some e)
      | None => (setSourceCredentials sourceUserName sourceHTTPPassword op, None)
      end
    else (op, None) in
  match source with
  | (op, Some e) => (op, Some e)
  | (op, None) =>
      if targetUseHTTPPassword then
        match ValidateUsernameAndPassword (name (base op)) targetUseHTTPPassword
                targetUserName with
        | Some e => (op, Some e)
        | None => (setTargetCredentials targetUserName targetHTTPSPassword op, None)
        end
      else (op, None)
  end.

End Make.

End httpsStartReplicationOp_make.

(** * The worked scenarios *)

Definition passingResult (h body : string) : hostHTTPResult :=
  mkResult h passing 200 body None.

Definition transportError (h : string) : goError :=
  errorString ("connection refused on host " +:+ h).

Definition failedResult (h : string) : hostHTTPResult :=
  mkResult h exception 0 "" (Some (transportError h)).

Definition unauthorizedResult (h : string) : hostHTTPResult :=
  mkResult h unauthorized 401 "" (Some (errorString ("wrong password on host " +:+ h))).

Definition catalogNodes : list nmaVNode :=
  [ mkNmaVNode "A" "/data/test_db/v_test_db_node0001_catalog" "A" "4803" false true
      "v_test_db_node0001" [];
    mkNmaVNode "B" "/data/test_db/v_test_db_node0002_catalog" "B" "4803" false true
      "v_test_db_node0002" [];
    mkNmaVNode "C" "/data/test_db/v_test_db_node0003_catalog" "C" "4803" false false
      "v_test_db_node0003" [] ].

(** The descriptor of a catalog at global version [g], as decoded. *)
Definition descriptor (g : string) : nmaVDatabase :=
  mkNmaVDB "test_db" (mkVersions g "1" "1" "1" "1" "1") catalogNodes ∅
    "broadcast" false "" "" 0.

Definition catalogBodies : list (string * nmaVDatabase) :=
  [ ("catalog at 10", descriptor "10");
    ("catalog at 12", descriptor "12");
    ("catalog at 0", descriptor "0");
    ("catalog at -1", descriptor "-1") ].

Definition decodeCatalog : string → string → goError + nmaVDatabase :=
  tableDecoder catalogBodies.

Definition readCatalogOp : nmaReadCatalogEditorOp.t :=
  nmaReadCatalogEditorOp.makeNMAReadCatalogEditorOp MakeVCoordinationDatabase.

Definition freshContext : opEngineExecContext := mkCtx [] [] [] zeroNmaVDatabase.

Definition noWinnerError : goError :=
  errorString "[NMAReadCatalogEditorOp] cannot find any host with the latest catalog".

(** Scenario S1: A at 10, B and C at 12. *)
Definition cleanElection (order : list string) : list (string * hostHTTPResult) :=
  (λ h, (h, passingResult h (if decide (h = "A") then "catalog at 10" else "catalog at 12")))
    <$> order.

Definition echoAdapter (h : string) : AdapterPool.Adapter :=
  λ rq, mkResult h passing 200 (RequestData rq) None.

Definition samplePool : AdapterPool.t :=
  AdapterPool.mkPool false (<["A" := echoAdapter "A"]> {["B" := echoAdapter "B"]}).

Definition sampleRequests : gmap string hostHTTPRequest :=
  <["A" := setRequestData "ping A" emptyRequest]> {["B" := setRequestData "ping B" emptyRequest]}.

(** A [util.SliceCommon] for the worked example: the elements of the
    second slice that the first one holds. *)
Definition sliceCommon (a b : list string) : list string :=
  filter (λ x, x ∈ a) b.

Definition sampleVDB : VCoordinationDatabase :=
  mkVDB "test_db" true false "" "" "" false ["192.168.1.101"; "192.168.1.102"]
    nmaDownloadConfigOp.twoPrimaries "" 2.

Definition marshalReplicate (d : httpsStartReplicationOp.replicateRequestData)
  : goError + string :=
  inr ("host=" +:+ httpsStartReplicationOp.TargetHost d
         +:+ " dbname=" +:+ httpsStartReplicationOp.TargetDB d).

Definition upNodes : opEngineExecContext :=
  mkCtx [] [nmaDownloadConfigOp.nodeA; nmaDownloadConfigOp.nodeB] [] zeroNmaVDatabase.

Definition replicationFrom (hs : list string) : httpsStartReplicationOp.t :=
  httpsStartReplicationOp.mkOp
    (mkOpBase "HTTPSStartReplicationOp" "Start database replication" hs
       (mkClusterRequest "" ∅ ∅))
    false "" None ∅ "test_db" "T" "target_db" "" "" None "".

Definition sortedSample : list VCoordinationNode :=
  [nmaDownloadConfigOp.nodeA; nmaDownloadConfigOp.nodeB].

(** A helper for the worked example of the quorum: it joins one more
    message. *)
Definition appendFailure (e : error) : error :=
  errors_Join [e; Some (errorString "could not find a host with a passing result")].

Definition decodeLoad : string → string → goError + NMALoadRemoteCatalogOp.loadCatalogResponse :=
  tableDecoder [ ("status 0", NMALoadRemoteCatalogOp.mkResponse 0);
                 ("status 1", NMALoadRemoteCatalogOp.mkResponse 1) ].

(** Scenario S4: a database of primary nodes on the given hosts, and the
    load-remote-catalog operation [makeNMALoadRemoteCatalogOp] builds for
    it. *)
Definition primariesOn (hs : list string) : gmap string VCoordinationNode :=
  list_to_map ((λ h, (h, mkVNode ("node_" +:+ h) h "" "" "" [] [] "" true false NodeUpState ""))
                 <$> hs).

Definition reviveOpOn (hs : list string) : NMALoadRemoteCatalogOp.t :=
  NMALoadRemoteCatalogOp.makeNMALoadRemoteCatalogOp hs ((λ h, "old_" +:+ h) <$> hs)
    "test_db" "s3://bucket/test_db" ∅
    (mkVDB "test_db" true false "" "" "" false hs (primariesOn hs) "" (length hs))
    0 (map_to_list (primariesOn hs)).

Definition fiveHosts : list string := ["h1"; "h2"; "h3"; "h4"; "h5"].
Definition sevenHosts : list string := ["h1"; "h2"; "h3"; "h4"; "h5"; "h6"; "h7"].

Definition reviveOp : NMALoadRemoteCatalogOp.t := reviveOpOn fiveHosts.

Definition loadResults (ok : list string) (ko : list string) : list (string * hostHTTPResult) :=
  ((λ h, (h, passingResult h "status 0")) <$> ok) ++ ((λ h, (h, failedResult h)) <$> ko).

(** Helpers for the revive scenarios: parameters without AWS
    authentication, a marshaller that writes the replaced host and the
    node name, and network profiles given as address and broadcast. *)
Definition noAWSAuth (_ : gmap string string) : goError + (string * string * bool) :=
  inr ("", "", false).

Definition marshalRevive (d : loadRemoteCatalogRequestData.t) : goError + string :=
  inr ("host=" +:+ loadRemoteCatalogRequestData.Host d
         +:+ " node_name=" +:+ loadRemoteCatalogRequestData.NodeName d).

Definition twoProfiles : NMALoadRemoteCatalogOp_prepare.OpEngineExecContext (string * string) :=
  NMALoadRemoteCatalogOp_prepare.mkExecContext []
    (<["10.1.10.1" := ("10.1.10.1", "10.1.10.255")]>
       {["10.1.10.2" := ("10.1.10.2", "10.1.10.255")]}).

Definition noProfiles : NMALoadRemoteCatalogOp_prepare.OpEngineExecContext (string * string) :=
  NMALoadRemoteCatalogOp_prepare.mkExecContext [] ∅.

Definition oneHostReviveOp : NMALoadRemoteCatalogOp.t :=
  NMALoadRemoteCatalogOp.mkOp
    (mkOpBase "NMALoadRemoteCatalogOp" "" ["10.1.10.1"] (mkClusterRequest "" ∅ ∅))
    ∅ "test_db" "s3://bucket/test_db" ∅ ["192.168.1.101"] sampleVDB 3600 2.

(** A database of the two nodes on the hosts 10.1.10.1 and 10.1.10.2, and
    a load-remote-catalog operation on it. *)
Definition revivedVDB : VCoordinationDatabase :=
  mkVDB "" false false "" "" "" false ["10.1.10.1"; "10.1.10.2"]
    (<["10.1.10.1" := setAddress "10.1.10.1" nmaDownloadConfigOp.nodeA]>
       {["10.1.10.2" := setAddress "10.1.10.2" nmaDownloadConfigOp.nodeB]})
    "" 0.

Definition twoHostReviveOp : NMALoadRemoteCatalogOp.t :=
  NMALoadRemoteCatalogOp.mkOp
    (mkOpBase "NMALoadRemoteCatalogOp" "" ["10.1.10.1"; "10.1.10.2"] (mkClusterRequest "" ∅ ∅))
    ∅ "test_db" "s3://bucket/test_db" ∅ ["192.168.1.101"; "192.168.1.102"] revivedVDB 3600 2.

(** * Facts about the operations *)

(** ** The election *)

Module ReadCatalogFacts.
Import nmaReadCatalogEditorOp.

Section Reducer.

Variable parseAndCheckResponse : string → string → goError + nmaVDatabase.

Local Abbreviation visit := (nmaReadCatalogEditorOp.visit parseAndCheckResponse).
Local Abbreviation elect := (nmaReadCatalogEditorOp.elect parseAndCheckResponse).
Local Abbreviation processResult := (nmaReadCatalogEditorOp.processResult parseAndCheckResponse).
Local Abbreviation parsed := (nmaReadCatalogEditorOp.parsed parseAndCheckResponse).
Local Abbreviation globalOf := (nmaReadCatalogEditorOp.globalOf parseAndCheckResponse).
Local Abbreviation maxSeen := (nmaReadCatalogEditorOp.maxSeen parseAndCheckResponse).
Local Abbreviation winners := (nmaReadCatalogEditorOp.winners parseAndCheckResponse).
Local Abbreviation firstAt := (nmaReadCatalogEditorOp.firstAt parseAndCheckResponse).
Local Abbreviation hostError := (nmaReadCatalogEditorOp.hostError parseAndCheckResponse).

Lemma visit_unparsed op st e :
  parsed e = None →
  hostsWithLatestCatalog (visit op st e) = hostsWithLatestCatalog st
  ∧ maxGlobalVersion (visit op st e) = maxGlobalVersion st
  ∧ latestNmaVDB (visit op st e) = latestNmaVDB st.
Proof.
  destruct e as [h r]. unfold nmaReadCatalogEditorOp.parsed, nmaReadCatalogEditorOp.visit. simpl.
  destruct (isPassing r); [|done].
  destruct (parseAndCheckResponse h (content r)) as [e|d]; [done|].
  destruct (Int64 _); [done|discriminate].
Qed.

Lemma visit_parsed op st e v d :
  parsed e = Some (v, d) →
  visit op st e =
    if v >? maxGlobalVersion st then mkElection (allErrs st) [e.1] v d
    else if v =? maxGlobalVersion st then
      mkElection (allErrs st) (hostsWithLatestCatalog st ++ [e.1])
        (maxGlobalVersion st) (latestNmaVDB st)
    else st.
Proof.
  destruct e as [h r]. unfold nmaReadCatalogEditorOp.parsed, nmaReadCatalogEditorOp.visit. simpl.
  destruct (isPassing r); [|done].
  destruct (parseAndCheckResponse h (content r)) as [e|d']; [done|].
  destruct (Int64 _); [done|]. by intros [= -> ->].
Qed.

Lemma maxSeen_snoc order e :
  maxSeen (order ++ [e]) =
    match globalOf e with Some v => Z.max (maxSeen order) v | None => maxSeen order end.
Proof.
  unfold nmaReadCatalogEditorOp.maxSeen. rewrite omap_app, foldl_app. simpl.
  by destruct (globalOf e).
Qed.

Lemma maxSeen_nonneg order : 0 ≤ maxSeen order.
Proof.
  induction order as [|e order IH] using rev_ind; [done|].
  rewrite maxSeen_snoc. destruct (globalOf e); lia.
Qed.

Lemma maxSeen_upper order e v :
  e ∈ order → globalOf e = Some v → v ≤ maxSeen order.
Proof.
  induction order as [|e' order IH] using rev_ind; [by intros ?%elem_of_nil|].
  rewrite maxSeen_snoc. intros [Hin| ->%list_elem_of_singleton]%elem_of_app Hv.
  - specialize (IH Hin Hv). destruct (globalOf e'); lia.
  - rewrite Hv. lia.
Qed.

Lemma winners_snoc m order e :
  winners m (order ++ [e]) =
    winners m order ++ (if decide (globalOf e = Some m) then [e.1] else []).
Proof.
  unfold nmaReadCatalogEditorOp.winners. rewrite filter_app, fmap_app. f_equal.
  rewrite filter_cons, filter_nil. by destruct (decide _).
Qed.

Lemma winners_above m order : maxSeen order < m → winners m order = [].
Proof.
  intros Hlt. unfold nmaReadCatalogEditorOp.winners.
  destruct (filter _ order) as [|e l] eqn:Hf; [done|].
  assert (He : e ∈ filter (λ e, globalOf e = Some m) order) by (rewrite Hf; left).
  apply list_elem_of_filter in He as [Hv Hin].
  pose proof (maxSeen_upper _ _ _ Hin Hv). lia.
Qed.

(** The loop invariant of the election: the running maximum is [maxSeen],
    and the list holds the hosts seen at that maximum, in the order of
    the visit. *)
Lemma elect_spec op order :
  maxGlobalVersion (elect op order) = maxSeen order
  ∧ hostsWithLatestCatalog (elect op order) = winners (maxSeen order) order.
Proof.
  induction order as [|e order [IHm IHh]] using rev_ind; [done|].
  unfold nmaReadCatalogEditorOp.elect in *. rewrite foldl_snoc, maxSeen_snoc, winners_snoc.
  destruct (parsed e) as [[v d]|] eqn:Hp.
  - unfold nmaReadCatalogEditorOp.globalOf. rewrite Hp. simpl.
    rewrite (visit_parsed _ _ _ _ _ Hp), IHm.
    destruct (Z.gtb_spec v (maxSeen order)) as [Hgt|Hle].
    + simpl. rewrite Z.max_r by lia. rewrite decide_True by done.
      rewrite winners_above by lia. split; done.
    + destruct (Z.eqb_spec v (maxSeen order)) as [->|Hne]; simpl.
      * rewrite Z.max_l by lia. rewrite decide_True by done.
        rewrite IHh. split; done.
      * rewrite Z.max_l by lia. rewrite decide_False by congruence.
        rewrite app_nil_r. split; done.
  - destruct (visit_unparsed op (foldl (visit op) initElection order) e Hp)
      as (Hh & Hm & _).
    unfold nmaReadCatalogEditorOp.globalOf. rewrite Hp. simpl. rewrite app_nil_r.
    rewrite Hm, Hh. split; done.
Qed.

Lemma maxSeen_attained order :
  maxSeen order = 0 ∨ ∃ e, e ∈ order ∧ globalOf e = Some (maxSeen order).
Proof.
  induction order as [|e order IH] using rev_ind; [by left|].
  rewrite maxSeen_snoc. destruct (globalOf e) as [v|] eqn:Hv.
  - destruct (Z.max_spec (maxSeen order) v) as [[Hlt ->]|[Hge ->]].
    + right. exists e. rewrite elem_of_app, list_elem_of_singleton. auto.
    + destruct IH as [IH|(e0 & Hin & H0)]; [by left|].
      right. exists e0. rewrite elem_of_app. auto.
  - destruct IH as [IH|(e0 & Hin & H0)]; [by left|].
    right. exists e0. rewrite elem_of_app. auto.
Qed.

Lemma winners_elem m order e :
  e ∈ order → globalOf e = Some m → e.1 ∈ winners m order.
Proof.
  intros Hin Hv. unfold nmaReadCatalogEditorOp.winners. apply list_elem_of_fmap.
  exists e. split; [done|]. by apply list_elem_of_filter.
Qed.

Lemma winners_inv m order h :
  h ∈ winners m order → ∃ r, (h, r) ∈ order ∧ globalOf (h, r) = Some m.
Proof.
  unfold nmaReadCatalogEditorOp.winners. intros ([h' r] & -> & [Hv Hin]%list_elem_of_filter)%list_elem_of_fmap.
  by exists r.
Qed.

(** A winner exists exactly when some host returned a parseable
    descriptor with a non-negative version: the maximum starts from 0,
    so a negative version never wins. *)
Lemma winners_nonempty_iff order :
  winners (maxSeen order) order ≠ []
  ↔ ∃ e v, e ∈ order ∧ globalOf e = Some v ∧ 0 ≤ v.
Proof.
  split.
  - intros Hne. destruct (winners _ order) as [|h l] eqn:Hw; [done|].
    assert (Hh : h ∈ winners (maxSeen order) order) by (rewrite Hw; left).
    apply winners_inv in Hh as (r & Hin & Hv).
    exists (h, r), (maxSeen order). split_and!; [done|done|apply maxSeen_nonneg].
  - intros (e & v & Hin & Hv & Hpos).
    assert (∃ e', e' ∈ order ∧ globalOf e' = Some (maxSeen order)) as (e' & Hin' & Hv').
    { destruct (maxSeen_attained order) as [H0|?]; [|done].
      exists e. split; [done|]. pose proof (maxSeen_upper _ _ _ Hin Hv).
      rewrite Hv. f_equal. lia. }
    pose proof (winners_elem _ _ _ Hin' Hv') as Hw.
    intros Heq. rewrite Heq in Hw. by apply elem_of_nil in Hw.
Qed.

Lemma filter_above m order :
  maxSeen order < m → filter (λ e, globalOf e = Some m) order = [].
Proof.
  intros Hlt. pose proof (winners_above m order Hlt) as Hw.
  unfold nmaReadCatalogEditorOp.winners in Hw. by destruct (filter _ order).
Qed.

(** The descriptor the loop keeps: it is assigned only when a version
    exceeds the running maximum, so it stays the zero value while the
    maximum is 0, and is otherwise the descriptor of the first host
    visited at the maximum. *)
Lemma elect_latest op order :
  (maxSeen order = 0 → latestNmaVDB (elect op order) = zeroNmaVDatabase)
  ∧ (0 < maxSeen order →
     ∃ e, firstAt (maxSeen order) order = Some e
          ∧ parsed e = Some (maxSeen order, latestNmaVDB (elect op order))).
Proof.
  induction order as [|e order [IH0 IH1]] using rev_ind;
    [split; [done|unfold nmaReadCatalogEditorOp.maxSeen; simpl; lia]|].
  pose proof (proj1 (elect_spec op order)) as Hm.
  pose proof (maxSeen_nonneg order) as Hnn.
  unfold nmaReadCatalogEditorOp.elect, nmaReadCatalogEditorOp.firstAt in *. rewrite foldl_snoc, maxSeen_snoc, filter_app.
  destruct (parsed e) as [[v d]|] eqn:Hp.
  - assert (Hg : globalOf e = Some v) by (unfold nmaReadCatalogEditorOp.globalOf; by rewrite Hp).
    rewrite !Hg, (visit_parsed _ _ _ _ _ Hp), Hm.
    destruct (Z.gtb_spec v (maxSeen order)) as [Hgt|Hle]; simpl.
    + rewrite Z.max_r by lia. split; [lia|]. intros _.
      rewrite filter_above by lia. exists e. split; [|done].
      by rewrite filter_cons_True.
    + rewrite Z.max_l by lia.
      destruct (Z.eqb_spec v (maxSeen order)) as [->|Hne]; simpl.
      * split; [done|]. intros Hpos. destruct (IH1 Hpos) as (e0 & Hh & Hp0).
        exists e0. split; [|done].
        destruct (filter _ order); [done|]. done.
      * split; [done|]. intros Hpos. destruct (IH1 Hpos) as (e0 & Hh & Hp0).
        exists e0. split; [|done].
        destruct (filter _ order); [done|]. done.
  - assert (Hg : globalOf e = None) by (unfold nmaReadCatalogEditorOp.globalOf; by rewrite Hp).
    destruct (visit_unparsed op (foldl (visit op) initElection order) e Hp)
      as (_ & _ & Hl).
    rewrite !Hg, Hl.
    split; [done|]. intros Hpos. destruct (IH1 Hpos) as (e0 & Hh & Hp0).
    exists e0. split; [|done].
    destruct (filter _ order); [done|]. done.
Qed.

Lemma errors_Join_nil a b : errors_Join [a; b] = None ↔ a = None ∧ b = None.
Proof. unfold errors_Join. destruct a, b; simpl; intuition discriminate. Qed.

Lemma visit_allErrs op st e :
  allErrs (visit op st e) = None ↔ allErrs st = None ∧ hostError op e = None.
Proof.
  destruct e as [h r]. unfold nmaReadCatalogEditorOp.visit, nmaReadCatalogEditorOp.hostError.
  destruct (isPassing r).
  - destruct (parseAndCheckResponse h (content r)) as [e|d];
      [simpl; rewrite errors_Join_nil; intuition discriminate|].
    destruct (Int64 _) as [e|v]; [simpl; rewrite errors_Join_nil; intuition discriminate|].
    destruct (v >? _); [simpl; tauto|]. destruct (v =? _); simpl; tauto.
  - simpl. apply errors_Join_nil.
Qed.

Lemma elect_allErrs_nil op order :
  allErrs (elect op order) = None ↔ Forall (λ e, hostError op e = None) order.
Proof.
  induction order as [|e order IH] using rev_ind; [by split; [constructor|]|].
  unfold nmaReadCatalogEditorOp.elect in *.
  rewrite foldl_snoc, visit_allErrs, Forall_app, Forall_singleton, IH. done.
Qed.

Lemma hostError_parsed op e : hostError op e = None → status e.2 = passing → is_Some (parsed e).
Proof.
  destruct e as [h r]. unfold nmaReadCatalogEditorOp.hostError, nmaReadCatalogEditorOp.parsed, isPassing. simpl.
  intros H Hs. rewrite bool_decide_eq_true_2 in * by done.
  destruct (parseAndCheckResponse h (content r)); [done|].
  destruct (Int64 _); [done|]. by eexists.
Qed.

End Reducer.

Lemma setup_frame op hs :
  catalogPathMap (setupClusterHTTPRequest op hs).1 = catalogPathMap op
  ∧ hosts (base (setupClusterHTTPRequest op hs).1) = hosts (base op)
  ∧ vdb (setupClusterHTTPRequest op hs).1 = vdb op
  ∧ initiator (setupClusterHTTPRequest op hs).1 = initiator op.
Proof.
  revert op. induction hs as [|h hs IH]; intros op; simpl; [done|].
  destruct (catalogPathMap op !! h) as [cp|] eqn:Hcp; [|done].
  destruct (IH (putRequest h (catalogRequest cp) op)) as (-> & -> & -> & ->). done.
Qed.

Lemma setup_requests op hs k :
  requests (base (setupClusterHTTPRequest op hs).1) !! k =
    if decide (k ∈ foundPrefix (catalogPathMap op) hs)
    then catalogRequest <$> catalogPathMap op !! k
    else requests (base op) !! k.
Proof.
  revert op. induction hs as [|h hs IH]; intros op.
  - done.
  - cbn [setupClusterHTTPRequest foundPrefix].
    destruct (catalogPathMap op !! h) as [cp|] eqn:Hcp.
    + rewrite IH. cbn [putRequest setBase catalogPathMap].
      destruct (decide (k ∈ foundPrefix (catalogPathMap op) hs)) as [Hin|Hnin].
      * rewrite decide_True by (by right). done.
      * unfold requests at 1. simpl.
        destruct (decide (k = h)) as [->|Hne].
        -- rewrite decide_True by left. by rewrite lookup_insert_eq, Hcp.
        -- rewrite decide_False by (by intros [?|?]%elem_of_cons).
           by rewrite lookup_insert_ne.
    + done.
Qed.

Lemma foundPrefix_all cpm hs :
  Forall (λ h, is_Some (cpm !! h)) hs → foundPrefix cpm hs = hs.
Proof.
  induction 1 as [|h hs [cp Hcp] _ IH]; simpl; [done|]. by rewrite Hcp, IH.
Qed.

Lemma foundPrefix_found cpm hs k : k ∈ foundPrefix cpm hs → is_Some (cpm !! k).
Proof.
  induction hs as [|h hs IH]; simpl; [by intros ?%elem_of_nil|].
  destruct (cpm !! h) eqn:Hh; [|by intros ?%elem_of_nil].
  intros [->|?]%elem_of_cons; [by rewrite Hh|auto].
Qed.

Lemma foundPrefix_app cpm hs more :
  foundPrefix cpm (hs ++ more) =
    if decide (foundPrefix cpm hs = hs) then hs ++ foundPrefix cpm more
    else foundPrefix cpm hs.
Proof.
  induction hs as [|h hs IH]; simpl; [done|].
  destruct (cpm !! h) eqn:Hh.
  - rewrite IH. destruct (decide (foundPrefix cpm hs = hs)) as [Heq|Hne].
    + rewrite decide_True by (by rewrite Heq). done.
    + rewrite decide_False by congruence. done.
  - by rewrite decide_False.
Qed.

Lemma initiatorLoop_spec op init :
  let r := initiatorLoop op init in
  requests (base r.1) = requests (base op)
  ∧ vdb r.1 = vdb op ∧ initiator r.1 = initiator op
  ∧ catalogPathMap r.1 = (initiatorPaths (HostNodeMap (vdb op)) (catalogPathMap op) init).1
  ∧ (r.2 = None ↔ (initiatorPaths (HostNodeMap (vdb op)) (catalogPathMap op) init).2 = None)
  ∧ (r.2 = None → hosts (base r.1) = hosts (base op) ++ init).
Proof.
  revert op. induction init as [|h init IH]; intros op; simpl.
  - split_and!; try done. by rewrite app_nil_r.
  - destruct (HostNodeMap (vdb op) !! h) as [vnode|] eqn:Hh; simpl.
    + match goal with |- context [initiatorLoop ?o init] => specialize (IH o) end.
      simpl in IH. destruct IH as (-> & -> & -> & -> & Hok & Hhosts).
      split_and!; try done. intros Hn. rewrite (Hhosts Hn). simpl.
      by rewrite <- app_assoc.
    + split_and!; done.
Qed.

Lemma initiatorPaths_found hnm cpm init :
  (initiatorPaths hnm cpm init).2 = None →
  Forall (λ h, is_Some ((initiatorPaths hnm cpm init).1 !! h)) init
  ∧ ∀ k, is_Some (cpm !! k) → is_Some ((initiatorPaths hnm cpm init).1 !! k).
Proof.
  revert cpm. induction init as [|h init IH]; intros cpm; simpl; [by split|].
  destruct (hnm !! h) as [vnode|]; [|done].
  intros Hok. destruct (IH _ Hok) as [Hall Hmono]. split.
  - constructor; [|done]. apply Hmono. rewrite lookup_insert_eq. by eexists.
  - intros k Hk. apply Hmono. destruct (decide (h = k)) as [->|Hne].
    + rewrite lookup_insert_eq. by eexists.
    + by rewrite lookup_insert_ne.
Qed.

(** The catalog-path map of the loop over [vdb.HostNodeMap] does not depend
    on the order of the visit. *)
Lemma rangePaths_lookup (hnm : gmap string VCoordinationNode) entries k :
  rangeOrder hnm entries →
  rangePaths ∅ entries !! k = CatalogPath <$> hnm !! k.
Proof.
  unfold rangeOrder, rangePaths. intros Hperm.
  assert (Hnd : NoDup entries.*1).
  { rewrite Hperm. apply NoDup_fst_map_to_list. }
  assert (Hin : ∀ v, (k, v) ∈ entries ↔ hnm !! k = Some v).
  { intros v. rewrite Hperm. apply elem_of_map_to_list. }
  assert (Hgen : ∀ (l : list (string * VCoordinationNode)) acc, NoDup l.*1 →
     foldl (λ m kv, <[kv.1 := CatalogPath kv.2]> m) (acc : gmap string string) l !! k =
       match list_find (λ kv, kv.1 = k) l with
       | Some (_, kv) => Some (CatalogPath kv.2)
       | None => acc !! k
       end).
  { clear. induction l as [|[k' v'] l IH]; intros acc Hnd; simpl; [done|].
    apply NoDup_cons in Hnd as [Hk' Hnd]. rewrite IH by done.
    destruct (decide (k' = k)) as [->|Hne]; simpl.
    - destruct (list_find _ l) as [[i [k2 v2]]|] eqn:Hf; simpl.
      + apply list_find_Some in Hf as (Hl & Heq & _). simpl in Heq. subst k2.
        exfalso. apply Hk'. apply list_elem_of_fmap. exists (k, v2).
        split; [done|]. by eapply list_elem_of_lookup_2.
      + by rewrite lookup_insert_eq.
    - destruct (list_find _ l) as [[i [k2 v2]]|]; simpl; [done|].
      by rewrite lookup_insert_ne. }
  rewrite Hgen by done.
  destruct (list_find _ entries) as [[i [k2 v2]]|] eqn:Hf.
  - apply list_find_Some in Hf as (Hl & Heq & _). simpl in Heq. subst k2.
    assert (Hv : (k, v2) ∈ entries) by (by eapply list_elem_of_lookup_2).
    apply Hin in Hv. by rewrite Hv.
  - rewrite lookup_empty. destruct (hnm !! k) as [v|] eqn:Hk; [|done].
    pose proof (proj2 (Hin v) eq_refl) as Hk'. apply list_find_None in Hf.
    rewrite Forall_forall in Hf. by specialize (Hf _ Hk').
Qed.

Local Ltac opsimpl :=
  cbn [setCatalogPathMap setBase setHosts base hosts catalogPathMap vdb initiator
       length Nat.eqb fst snd].

Lemma rangePaths_eq (hnm : gmap string VCoordinationNode) entries :
  rangeOrder hnm entries → rangePaths ∅ entries = CatalogPath <$> hnm.
Proof.
  intros Ho. apply map_eq. intros k. rewrite lookup_fmap. by apply rangePaths_lookup.
Qed.

(** [prepare] without initiators: every host of [vdb.HostNodeMap] gets its
    request, whatever the orders of the two visits. *)
Lemma prepare_noinit op ctx keys entries k :
  initiator op = [] →
  rangeOrder (HostNodeMap (vdb op)) entries →
  keys ≡ₚ (map_to_list (HostNodeMap (vdb op))).*1 →
  requests (base (prepare op ctx keys entries).1.1) !! k =
    match HostNodeMap (vdb op) !! k with
    | Some n => Some (catalogRequest (CatalogPath n))
    | None => requests (base op) !! k
    end
  ∧ initiator (prepare op ctx keys entries).1.1 = initiator op
  ∧ vdb (prepare op ctx keys entries).1.1 = vdb op.
Proof.
  intros Hinit Hent Hkeys. unfold prepare. opsimpl.
  rewrite Hinit. opsimpl.
  rewrite (rangePaths_eq _ _ Hent).
  match goal with |- context [setupClusterHTTPRequest ?o keys] => set (o1 := o) end.
  destruct (setupClusterHTTPRequest o1 keys) as [op' e'] eqn:Hs. cbn [fst].
  pose proof (setup_requests o1 keys k) as Hr. pose proof (setup_frame o1 keys) as Hf.
  rewrite Hs in Hr, Hf. cbn [fst] in Hr, Hf. destruct Hf as (_ & _ & Hv & Hi).
  split_and!; [|by rewrite Hi|by rewrite Hv].
  rewrite Hr. subst o1. opsimpl. unfold requests at 1. opsimpl.
  assert (Hk : ∀ x, x ∈ keys ↔ is_Some (HostNodeMap (vdb op) !! x)).
  { intros x. rewrite Hkeys, list_elem_of_fmap. split.
    - intros ([x' n] & -> & Hin%elem_of_map_to_list). by eexists.
    - intros [n Hn]. exists (x, n). split; [done|]. by apply elem_of_map_to_list. }
  rewrite foundPrefix_all.
  2:{ apply Forall_forall. intros x [n Hn]%Hk. rewrite lookup_fmap, Hn. by eexists. }
  rewrite lookup_fmap.
  destruct (HostNodeMap (vdb op) !! k) as [n|] eqn:Hn.
  - rewrite decide_True; [done|]. apply Hk. by rewrite Hn.
  - rewrite decide_False; [done|]. rewrite Hk, Hn. by intros [? ?].
Qed.

(** [prepare] with initiators. *)
Lemma prepare_init op ctx keys entries k :
  initiator op ≠ [] →
  let P := initiatorPaths (HostNodeMap (vdb op)) ∅ (initiator op) in
  requests (base (prepare op ctx keys entries).1.1) !! k =
    match P.2 with
    | Some _ => requests (base op) !! k
    | None =>
        if decide (k ∈ foundPrefix P.1 (hosts (base op) ++ initiator op))
        then catalogRequest <$> P.1 !! k
        else requests (base op) !! k
    end
  ∧ initiator (prepare op ctx keys entries).1.1 = initiator op
  ∧ vdb (prepare op ctx keys entries).1.1 = vdb op
  ∧ (P.2 = None → hosts (base (prepare op ctx keys entries).1.1) = hosts (base op) ++ initiator op).
Proof.
  intros Hinit P. unfold prepare. opsimpl.
  assert (Hlen : (length (initiator op) =? 0)%nat = false)
    by (by destruct (initiator op)).
  rewrite Hlen. clear Hlen Hinit.
  set (o0 := mkOp (base op) (initiator op) (vdb op) ∅).
  pose proof (initiatorLoop_spec o0 (initiator op)) as Hl. cbv zeta in Hl.
  subst o0. cbn [base vdb initiator catalogPathMap] in Hl.
  destruct (initiatorLoop _ (initiator op)) as [o1 e1] eqn:Hloop.
  cbn [fst snd] in Hl. destruct Hl as (Hreq & Hvdb & Hini & Hcpm & Hok & Hhosts).
  fold P in Hcpm, Hok.
  destruct e1 as [e1|].
  - cbn [fst]. destruct (P.2) as [h|] eqn:HP2.
    + rewrite Hreq. split_and!; [done|done|done|done].
    + discriminate (proj2 Hok eq_refl).
  - rewrite (proj1 Hok eq_refl). specialize (Hhosts eq_refl).
    destruct (setupClusterHTTPRequest o1 (hosts (base o1))) as [op' e'] eqn:Hs. cbn [fst].
    pose proof (setup_requests o1 (hosts (base o1)) k) as Hr.
    pose proof (setup_frame o1 (hosts (base o1))) as Hf.
    rewrite Hs in Hr, Hf. cbn [fst] in Hr, Hf. destruct Hf as (_ & Hh & Hv & Hi').
    rewrite Hr, Hcpm, Hhosts, Hreq, Hh, Hhosts, Hi', Hv. done.
Qed.

(** Running [prepare] a second time, on the operation the first run left
    and with any order of the visits, leaves the request collection as
    the first run built it. *)
Lemma readCatalog_prepare_twice op ctx ctx' keys1 entries1 keys2 entries2 :
  rangeOrder (HostNodeMap (vdb op)) entries1 →
  rangeOrder (HostNodeMap (vdb op)) entries2 →
  keys1 ≡ₚ (map_to_list (HostNodeMap (vdb op))).*1 →
  keys2 ≡ₚ (map_to_list (HostNodeMap (vdb op))).*1 →
  requests (base (prepare (prepare op ctx keys1 entries1).1.1 ctx' keys2 entries2).1.1)
  = requests (base (prepare op ctx keys1 entries1).1.1).
Proof.
  intros He1 He2 Hk1 Hk2. apply map_eq. intros k.
  destruct (initiator op) as [|i0 init] eqn:Hi.
  - destruct (prepare_noinit op ctx keys1 entries1 k Hi He1 Hk1) as (Hr1 & Hi1 & Hv1).
    set (op1 := (prepare op ctx keys1 entries1).1.1) in *.
    assert (Hi1' : initiator op1 = []) by congruence.
    rewrite <- Hv1 in He2, Hk2.
    destruct (prepare_noinit op1 ctx' keys2 entries2 k Hi1' He2 Hk2) as (Hr2 & _ & _).
    rewrite Hr2, Hv1, Hr1. by destruct (HostNodeMap (vdb op) !! k).
  - assert (Hne : initiator op ≠ []) by (by rewrite Hi).
    destruct (prepare_init op ctx keys1 entries1 k Hne) as (Hr1 & Hi1 & Hv1 & Hh1).
    set (op1 := (prepare op ctx keys1 entries1).1.1) in *.
    assert (Hne1 : initiator op1 ≠ []) by (by rewrite Hi1).
    destruct (prepare_init op1 ctx' keys2 entries2 k Hne1) as (Hr2 & _ & _ & _).
    rewrite Hi1, Hv1 in Hr2. rewrite Hr2.
    set (P := initiatorPaths (HostNodeMap (vdb op)) ∅ (initiator op)) in *.
    destruct (P.2) as [h|] eqn:HP2; [done|].
    rewrite (Hh1 eq_refl), Hr1.
    destruct (initiatorPaths_found _ _ _ HP2) as [Hall _]. fold P in Hall.
    rewrite foundPrefix_app.
    destruct (decide (foundPrefix P.1 (hosts (base op) ++ initiator op)
                      = hosts (base op) ++ initiator op)) as [Heq|Hneq].
    + rewrite Heq, (foundPrefix_all _ _ Hall).
      destruct (decide (k ∈ hosts (base op) ++ initiator op)) as [Hin|Hnin].
      * rewrite decide_True; [done|]. apply elem_of_app. by left.
      * rewrite decide_False; [done|].
        intros [?|?]%elem_of_app; [done|]. apply Hnin, elem_of_app. by right.
    + by destruct (decide _).
Qed.

(** Two runs of [prepare] from one state build one request collection,
    whatever the orders of the visits. *)
Lemma prepare_order_independent op ctx keys1 entries1 keys2 entries2 :
  rangeOrder (HostNodeMap (vdb op)) entries1 →
  rangeOrder (HostNodeMap (vdb op)) entries2 →
  keys1 ≡ₚ (map_to_list (HostNodeMap (vdb op))).*1 →
  keys2 ≡ₚ (map_to_list (HostNodeMap (vdb op))).*1 →
  requests (base (prepare op ctx keys1 entries1).1.1)
  = requests (base (prepare op ctx keys2 entries2).1.1).
Proof.
  intros He1 He2 Hk1 Hk2. apply map_eq. intros k.
  destruct (initiator op) as [|i0 init] eqn:Hi.
  - destruct (prepare_noinit op ctx keys1 entries1 k Hi He1 Hk1) as (-> & _).
    by destruct (prepare_noinit op ctx keys2 entries2 k Hi He2 Hk2) as (-> & _).
  - assert (Hne : initiator op ≠ []) by (by rewrite Hi).
    destruct (prepare_init op ctx keys1 entries1 k Hne) as (-> & _).
    by destruct (prepare_init op ctx keys2 entries2 k Hne) as (-> & _).
Qed.

End ReadCatalogFacts.

(** ** Start replication *)

Module StartReplicationFacts.
Import httpsStartReplicationOp.

Section Op.

Variable json_Marshal : replicateRequestData → goError + string.
Variable SliceCommon : list string → list string → list string.
Variable parseAndCheckMapResponse : string → string → goError + gmap string string.

Local Abbreviation processLoop := (httpsStartReplicationOp.processLoop parseAndCheckMapResponse).
Local Abbreviation setupRequestBody := (httpsStartReplicationOp.setupRequestBody json_Marshal).
Local Abbreviation prepare := (httpsStartReplicationOp.prepare json_Marshal SliceCommon).
Local Abbreviation SliceCommon_spec := (httpsStartReplicationOp.SliceCommon_spec SliceCommon).

Lemma processLoop_authorized op allErrs logged pre rest :
  Forall (λ e, isUnauthorizedRequest e.2 = false) pre →
  ∃ allErrs', processLoop op allErrs logged (pre ++ rest)
              = processLoop op allErrs' (logged ++ pre.*1) rest.
Proof.
  intros Hpre. revert allErrs logged.
  induction Hpre as [|[h r] pre Hr _ IH]; intros allErrs logged.
  - exists allErrs. by rewrite app_nil_r.
  - rewrite fmap_cons. cbn [app processLoop fst snd] in *. rewrite Hr.
    replace (logged ++ h :: pre.*1) with ((logged ++ [h]) ++ pre.*1)
      by (by rewrite <- (assoc_L (++))).
    destruct (negb (isPassing r)); [apply IH|].
    destruct (parseAndCheckMapResponse h (content r)); [apply IH|].
    destruct (decide _); apply IH.
Qed.

Local Ltac rsimpl :=
  cbn [setBase setBodyMap setHosts setRequestCollection base hosts sandbox name
       sourceDB targetHosts targetDB targetUserName targetPassword tlsConfig
       hostRequestBodyMap useHTTPPassword userName httpsPassword
       setupRequestBody_loop setupClusterHTTPRequest fst snd nodesInfo
       dispatcher_setup clusterHTTPRequest RequestCollection].

Lemma SliceCommon_again a b h0 tl :
  SliceCommon_spec → SliceCommon a b = h0 :: tl →
  ∃ tl', SliceCommon [h0] b = h0 :: tl'.
Proof.
  intros Hsc Heq.
  assert (Hb : h0 ∈ b).
  { apply (Hsc a b h0). rewrite Heq. left. }
  assert (Hin : h0 ∈ SliceCommon [h0] b) by (apply Hsc; split; [left|done]).
  destruct (SliceCommon [h0] b) as [|x tl'] eqn:Hx; [by apply elem_of_nil in Hin|].
  assert (Hx' : x ∈ SliceCommon [h0] b) by (rewrite Hx; left).
  apply Hsc in Hx' as [->%list_elem_of_singleton _]. by exists tl'.
Qed.

(** Running [prepare] a second time, on the operation and the context
    the first run left, leaves the request collection as the first run
    built it. *)
Lemma startReplication_prepare_twice op ctx :
  SliceCommon_spec →
  requests (base (prepare (prepare op ctx).1.1 (prepare op ctx).1.2).1.1)
  = requests (base (prepare op ctx).1.1).
Proof.
  intros Hsc. unfold httpsStartReplicationOp.prepare at 2 3 4.
  destruct (length (nodesInfo ctx) =? 0)%nat eqn:Hlen.
  { cbn [fst snd]. unfold httpsStartReplicationOp.prepare. by rewrite Hlen. }
  set (src := Address <$> filter _ (nodesInfo ctx)).
  destruct (SliceCommon (hosts (base op)) src) as [|h0 tl] eqn:Hcommon.
  { destruct (decide (sandbox op = "")); cbn [fst snd]; unfold httpsStartReplicationOp.prepare;
      rewrite Hlen; fold src; rewrite Hcommon; by destruct (decide _). }
  destruct (SliceCommon_again _ _ _ _ Hsc Hcommon) as [tl' Hagain].
  unfold httpsStartReplicationOp.setupRequestBody. rsimpl.
  destruct (json_Marshal _) as [e|body] eqn:Hm.
  - rsimpl. unfold httpsStartReplicationOp.prepare, httpsStartReplicationOp.setupRequestBody. rsimpl. rewrite Hlen.
    fold src. rewrite Hagain. rsimpl. rewrite Hm. done.
  - rsimpl. unfold httpsStartReplicationOp.prepare, httpsStartReplicationOp.setupRequestBody. rsimpl. rewrite Hlen.
    fold src. rewrite Hagain. rsimpl. rewrite Hm. rsimpl.
    unfold requests, replicationRequest. rsimpl.
    by rewrite insert_insert_eq.
Qed.

End Op.

End StartReplicationFacts.

(** ** Download config *)

Module DownloadConfigFacts.
Import nmaDownloadConfigOp.

Lemma orderAB_range : rangeOrder twoPrimaries orderAB.
Proof.
  unfold rangeOrder, twoPrimaries, orderAB.
  rewrite map_to_list_insert by done. by rewrite map_to_list_singleton.
Qed.

Lemma orderBA_range : rangeOrder twoPrimaries orderBA.
Proof.
  unfold rangeOrder. rewrite <- orderAB_range. apply perm_swap.
Qed.

(** A run may visit the map in another order and pick the other primary
    node: a second run adds its request to the one of the first run, and
    two runs from one state request different hosts. *)
Lemma prepare_picks_any getCatalogPath update :
  let r1 := prepare getCatalogPath update sampleOp sampleCtx orderAB in
  let r2 := prepare getCatalogPath update r1.1.1 r1.1.2 orderBA in
  let r1' := prepare getCatalogPath update sampleOp sampleCtx orderBA in
  requests r1.1.1 !! "192.168.1.102" = None
  ∧ is_Some (requests r2.1.1 !! "192.168.1.102")
  ∧ is_Some (requests r1'.1.1 !! "192.168.1.102").
Proof.
  cbv zeta. split_and!.
  - vm_compute. done.
  - vm_compute. by eexists.
  - vm_compute. by eexists.
Qed.

End DownloadConfigFacts.

(** ** The quorum *)

Module LoadRemoteCatalogFacts.
Import NMALoadRemoteCatalogOp.

Lemma hasQuorum_majority hostCount primaryNodeCount :
  hasQuorum hostCount primaryNodeCount = true ↔ (primaryNodeCount < 2 * hostCount)%nat.
Proof.
  unfold hasQuorum. rewrite Nat.ltb_lt.
  pose proof (Nat.div_mod_eq primaryNodeCount 2).
  pose proof (Nat.mod_upper_bound primaryNodeCount 2). lia.
Qed.

Section Reducer.

Variable parseAndCheckResponse : string → string → goError + loadCatalogResponse.

Local Abbreviation visit := (NMALoadRemoteCatalogOp.visit parseAndCheckResponse).
Local Abbreviation reduce := (NMALoadRemoteCatalogOp.reduce parseAndCheckResponse).
Local Abbreviation loaded := (NMALoadRemoteCatalogOp.loaded parseAndCheckResponse).
Local Abbreviation successCount := (NMALoadRemoteCatalogOp.successCount parseAndCheckResponse).

Lemma visit_count op st e :
  (visit op st e).2 = if loaded op e then S st.2 else st.2.
Proof.
  destruct st as [allErrs n], e as [h r]. unfold NMALoadRemoteCatalogOp.visit, NMALoadRemoteCatalogOp.loaded. simpl.
  destruct (isPassing r); [|done]. simpl.
  destruct (parseAndCheckResponse h (content r)) as [e|resp]; [done|].
  destruct (decide (StatusCode resp ≠ successfulCode)) as [Hne|Heq].
  - by rewrite bool_decide_eq_false_2.
  - apply dec_stable in Heq. rewrite bool_decide_eq_true_2 by done. simpl.
    by destruct (isPrimaryHost _ _).
Qed.

Lemma reduce_count op order : (reduce op order).2 = successCount op order.
Proof.
  unfold NMALoadRemoteCatalogOp.reduce, NMALoadRemoteCatalogOp.successCount.
  induction order as [|e order IH] using rev_ind; [done|].
  rewrite foldl_snoc, visit_count, IH, filter_app, length_app.
  destruct (loaded op e) eqn:Hl.
  - rewrite (filter_cons_True _ e []) by done. simpl. lia.
  - rewrite (filter_cons_False _ e []) by (by rewrite Hl). simpl. lia.
Qed.

(** The errors of the hosts depend on the operation through its name
    only. *)
Lemma reduce_errors_by_name op op' order :
  name (base op') = name (base op) →
  (reduce op' order).1 = (reduce op order).1.
Proof.
  intros Hn. unfold NMALoadRemoteCatalogOp.reduce.
  induction order as [|e order IH] using rev_ind; [done|].
  rewrite !foldl_snoc.
  destruct (foldl (visit op') (None, 0%nat) order) as [errs' n'].
  destruct (foldl (visit op) (None, 0%nat) order) as [errs n].
  simpl in IH. subst errs'. destruct e as [h r].
  unfold NMALoadRemoteCatalogOp.visit. rewrite Hn.
  destruct (isPassing r); [|done].
  destruct (parseAndCheckResponse h (content r)); [done|].
  destruct (decide _); [done|]. by destruct (isPrimaryHost _ _), (isPrimaryHost _ _).
Qed.

End Reducer.

End LoadRemoteCatalogFacts.

(** ** The fan-out *)

Module AdapterPoolFacts.
Import AdapterPool.

Lemma collect_hosts pool order ars :
  keyed pool → collect pool order = inr ars →
  host <$> responses ars = order.*1.
Proof.
  intros Hk. revert ars. induction order as [|[h rq] order IH]; intros ars; simpl.
  - by intros [= <-].
  - destruct (connections pool !! h) as [a|] eqn:Ha; [|done].
    destruct (collect pool order) as [e|ars']; [done|].
    intros [= <-]. unfold responses in *. rewrite !fmap_cons. simpl.
    by rewrite (Hk h a rq Ha), (IH ars').
Qed.

Lemma collect_length pool order ars :
  collect pool order = inr ars → length ars = length order.
Proof.
  revert ars. induction order as [|[h rq] order IH]; intros ars; simpl.
  - by intros [= <-].
  - destruct (connections pool !! h) as [a|]; [|done].
    destruct (collect pool order) as [e|ars']; [done|].
    intros [= <-]. simpl. by rewrite (IH ars').
Qed.

Lemma gather_dom received :
  dom (gather received) = list_to_set (host <$> received).
Proof.
  unfold gather. induction received as [|r received IH] using rev_ind.
  - simpl. by rewrite dom_empty_L.
  - rewrite foldl_snoc, dom_insert_L, IH, fmap_app, list_to_set_app_L. simpl. set_solver.
Qed.

Lemma gather_size received : (size (gather received) ≤ length received)%nat.
Proof.
  unfold gather. induction received as [|r received IH] using rev_ind; [done|].
  rewrite foldl_snoc, map_size_insert, length_app. simpl.
  destruct (_ !! host r); simpl; lia.
Qed.

End AdapterPoolFacts.

(** ** Revive *)

Module ReviveDBFacts.
Import ReviveDB.

(** The slice the source builds exists for every database. *)
Lemma sortedNodes_exists vdb : ∃ vNodes, sortedNodes vdb vNodes.
Proof.
  exists (merge_sort nameLe (map_to_list (HostNodeMap vdb)).*2). split.
  - apply merge_sort_Permutation.
  - apply Sorted_merge_sort, _.
Qed.

Lemma sortedNodes_length vdb vNodes :
  sortedNodes vdb vNodes → length vNodes = size (HostNodeMap vdb).
Proof.
  intros [Hp _]. by rewrite Hp, length_fmap, length_map_to_list.
Qed.

Lemma assignHosts_ok vNodes index hs hostNodeMap oldHosts :
  (index + length hs ≤ length vNodes)%nat → NoDup hs →
  ∃ hostNodeMap' oldHosts',
    assignHosts vNodes index hs hostNodeMap oldHosts = Some (hostNodeMap', oldHosts')
    ∧ length oldHosts' = (length oldHosts + length hs)%nat
    ∧ (∀ k h, hs !! k = Some h →
         ∃ n, vNodes !! (index + k)%nat = Some n
              ∧ hostNodeMap' !! h = Some (setAddress h n)
              ∧ oldHosts' !! (length oldHosts + k)%nat = Some (Address n))
    ∧ (∀ i, (i < length oldHosts)%nat → oldHosts' !! i = oldHosts !! i)
    ∧ (∀ h, h ∉ hs → hostNodeMap' !! h = hostNodeMap !! h).
Proof.
  revert vNodes index hostNodeMap oldHosts.
  induction hs as [|h rest IH]; intros vNodes index hostNodeMap oldHosts Hlen Hnd.
  - exists hostNodeMap, oldHosts. simpl. split_and!; try done; try lia.
  - simpl in Hlen. apply NoDup_cons in Hnd as [Hh Hnd].
    destruct (lookup_lt_is_Some_2 vNodes index) as [n Hn]; [lia|].
    cbn [assignHosts]. rewrite Hn.
    rewrite list_lookup_insert_eq by lia.
    destruct (IH (<[index := setAddress h n]> vNodes) (S index)
                (<[h := setAddress h n]> hostNodeMap) (oldHosts ++ [Address n]))
      as (m' & o' & Heq & Hlo & Hk & Hpre & Hout); [rewrite length_insert; lia|done|].
    exists m', o'. rewrite Heq. rewrite length_app in Hlo, Hk, Hpre. simpl in *.
    split_and!; [done|lia| | |].
    + intros [|k] h' Hk'; simpl in Hk'.
      * injection Hk' as <-. exists n. rewrite Nat.add_0_r. split_and!; [done| |].
        -- by rewrite (Hout h Hh), lookup_insert_eq.
        -- rewrite Hpre by lia. apply list_lookup_middle. lia.
      * destruct (Hk k h' Hk') as (n' & Hn' & Hm' & Ho').
        exists n'. split_and!; [|done|].
        -- rewrite list_lookup_insert_ne in Hn' by lia.
           by replace (index + S k)%nat with (S index + k)%nat by lia.
        -- by replace (length oldHosts + S k)%nat with (length oldHosts + 1 + k)%nat by lia.
    + intros i Hi. rewrite Hpre by lia. by rewrite lookup_app_l.
    + intros h' [Hne Hnin]%not_elem_of_cons.
      rewrite (Hout h' Hnin). by rewrite lookup_insert_ne.
Qed.

Lemma assignHosts_panic vNodes index hs hostNodeMap oldHosts :
  (index ≤ length vNodes)%nat → (length vNodes < index + length hs)%nat →
  assignHosts vNodes index hs hostNodeMap oldHosts = None.
Proof.
  revert vNodes index hostNodeMap oldHosts.
  induction hs as [|h rest IH]; intros vNodes index hostNodeMap oldHosts Hle Hlen.
  - simpl in Hlen. lia.
  - cbn [assignHosts]. destruct (vNodes !! index) as [n|] eqn:Hn; [|done].
    pose proof (lookup_lt_Some _ _ _ Hn) as Hlt.
    rewrite list_lookup_insert_eq by lia.
    apply IH; rewrite length_insert; simpl in Hlen; lia.
Qed.

End ReviveDBFacts.

(** ** The errors that are joined *)

Lemma errorsOf_Join a b : errorsOf (errors_Join [a; b]) = errorsOf a ++ errorsOf b.
Proof.
  unfold errors_Join. destruct a as [a|], b as [b|]; simpl; by rewrite ?app_nil_r.
Qed.

Lemma readCatalog_visit_errors parse op st e :
  errorsOf (nmaReadCatalogEditorOp.allErrs (nmaReadCatalogEditorOp.visit parse op st e))
  = errorsOf (nmaReadCatalogEditorOp.allErrs st)
    ++ errorsOf (nmaReadCatalogEditorOp.hostError parse op e).
Proof.
  destruct e as [h r].
  unfold nmaReadCatalogEditorOp.visit, nmaReadCatalogEditorOp.hostError,
    nmaReadCatalogEditorOp.addErr.
  destruct (isPassing r); [|apply errorsOf_Join].
  destruct (parse h (content r)) as [e|d]; [apply errorsOf_Join|].
  destruct (Int64 _) as [e|v]; [apply errorsOf_Join|].
  cbn [errorsOf]. rewrite app_nil_r.
  destruct (v >? _); [done|]. by destruct (v =? _).
Qed.

Lemma readCatalog_elect_errors parse op order :
  errorsOf (nmaReadCatalogEditorOp.allErrs (nmaReadCatalogEditorOp.elect parse op order))
  = concat ((λ e, errorsOf (nmaReadCatalogEditorOp.hostError parse op e)) <$> order).
Proof.
  unfold nmaReadCatalogEditorOp.elect.
  induction order as [|e order IH] using rev_ind; [done|].
  rewrite foldl_snoc, readCatalog_visit_errors, IH, fmap_app, concat_app. simpl.
  by rewrite app_nil_r.
Qed.

Lemma loadCatalog_visit_errors parse op st e :
  errorsOf (NMALoadRemoteCatalogOp.visit parse op st e).1
  = errorsOf st.1 ++ errorsOf (NMALoadRemoteCatalogOp.hostError parse op e).
Proof.
  destruct st as [allErrs n], e as [h r].
  unfold NMALoadRemoteCatalogOp.visit, NMALoadRemoteCatalogOp.hostError. cbn [fst].
  destruct (isPassing r); [|apply errorsOf_Join].
  destruct (parse h (content r)) as [e|resp]; [apply errorsOf_Join|].
  destruct (decide _); [apply errorsOf_Join|].
  cbn [errorsOf]. rewrite app_nil_r. by destruct (NMALoadRemoteCatalogOp.isPrimaryHost _ _).
Qed.

Lemma loadCatalog_reduce_errors parse op order :
  errorsOf (NMALoadRemoteCatalogOp.reduce parse op order).1
  = concat ((λ e, errorsOf (NMALoadRemoteCatalogOp.hostError parse op e)) <$> order).
Proof.
  unfold NMALoadRemoteCatalogOp.reduce.
  induction order as [|e order IH] using rev_ind; [done|].
  rewrite foldl_snoc, loadCatalog_visit_errors, IH, fmap_app, concat_app. simpl.
  by rewrite app_nil_r.
Qed.

Lemma concat_errors_elem {A : Type} (f : A → list goError) (l : list A) a x :
  a ∈ l → x ∈ f a → x ∈ concat (f <$> l).
Proof.
  intros Ha Hx. induction l as [|b l IH]; [by apply elem_of_nil in Ha|].
  rewrite fmap_cons. cbn [concat]. apply elem_of_app.
  apply elem_of_cons in Ha as [->|Ha]; [by left|right; by apply IH].
Qed.

(** * The claims *)

(** C1 (the election on parseable descriptors): the claim says the
    published list is non-empty as soon as one host returned a parseable
    descriptor.  The running maximum of [processResult] starts from 0: a
    host whose descriptor parses with global version -1 is not elected, the
    operation publishes nothing and returns "cannot find any host with the
    latest catalog". *)
Theorem election_misses_negative_version :
  let result := passingResult "A" "catalog at -1" in
  nmaReadCatalogEditorOp.parsed decodeCatalog ("A", result)
    = Some (-1, nmaReadCatalogEditorOp.derive (descriptor "-1"))
  ∧ nmaReadCatalogEditorOp.processResult decodeCatalog readCatalogOp freshContext
      [("A", result)]
    = (freshContext, Some (joinError [noWinnerError])).
Proof. split; vm_compute; reflexivity. Qed.

(** C3 (the descriptor published with the winners): the claim says the
    published [nmaVDatabase] is the parsed descriptor of a winning host.
    The descriptor is saved only when a version exceeds the running
    maximum, which starts from 0: when the hosts are at global version 0,
    host A is published as the winner, and the published descriptor is the
    zero value, not the descriptor of A (which counts two primary
    nodes). *)
Theorem election_at_version_zero_keeps_no_descriptor :
  let result := passingResult "A" "catalog at 0" in
  let out := nmaReadCatalogEditorOp.processResult decodeCatalog readCatalogOp freshContext
               [("A", result)] in
  nmaReadCatalogEditorOp.parsed decodeCatalog ("A", result)
    = Some (0, nmaReadCatalogEditorOp.derive (descriptor "0"))
  ∧ ctxHostsWithLatestCatalog out.1 = ["A"]
  ∧ ctxNmaVDatabase out.1 = zeroNmaVDatabase
  ∧ vPrimaryNodeCount (nmaReadCatalogEditorOp.derive (descriptor "0")) = 2%nat
  ∧ vPrimaryNodeCount (ctxNmaVDatabase out.1) = 0%nat.
Proof. cbv zeta. split_and!; vm_compute; reflexivity. Qed.

Definition replicationOp : httpsStartReplicationOp.t :=
  httpsStartReplicationOp.mkOp
    (mkOpBase "HTTPSStartReplicationOp" "Start database replication" ["A"; "B"]
       (mkClusterRequest "" ∅ ∅))
    false "" None ∅ "test_db" "T" "target_db" "" "" None "".

(** C4, as the claim states it, fails for [httpsStartReplicationOp]: on an
    empty result collection its [processResult] returns nil. *)
Lemma start_replication_accepts_empty_results :
  httpsStartReplicationOp.processResult (tableDecoder []) replicationOp [] = (None, []).
Proof. reflexivity. Qed.

(** C4, amended: on an empty result collection
    [nmaReadCatalogEditorOp.processResult] returns an error and publishes
    nothing; [httpsStartReplicationOp.processResult] returns nil. *)
Theorem empty_results_by_operation :
  ∀ parseCatalog (op : nmaReadCatalogEditorOp.t) ctx parseMap
    (op' : httpsStartReplicationOp.t),
    nmaReadCatalogEditorOp.processResult parseCatalog op ctx []
      = (ctx, Some (joinError
                      [errorString ("[" +:+ name (nmaReadCatalogEditorOp.base op)
                                      +:+ "] cannot find any host with the latest catalog")]))
    ∧ httpsStartReplicationOp.processResult parseMap op' [] = (None, []).
Proof. intros. split; reflexivity. Qed.

(** Scenario S2: A at 10, B fails, C at 12. *)
Definition partialFailure : list (string * hostHTTPResult) :=
  [ ("A", passingResult "A" "catalog at 10");
    ("B", failedResult "B");
    ("C", passingResult "C" "catalog at 12") ].

(** C5, as the claim states it, fails: in scenario S2 a winner is found
    and published, and [processResult] returns the joined error of host B,
    not nil. *)
Lemma election_partial_failure_returns_error :
  nmaReadCatalogEditorOp.processResult decodeCatalog readCatalogOp freshContext partialFailure
  = (publishElection ["C"] (nmaReadCatalogEditorOp.derive (descriptor "12")) freshContext,
     Some (joinError [transportError "B"])).
Proof. vm_compute. reflexivity. Qed.

(** C5, amended: whenever a winner was found, [processResult] publishes
    the winners and the kept descriptor to the context and returns the
    join of the errors of the hosts: the errors it holds are the errors
    of the hosts that failed, each of them, in the order of the visit,
    and nothing else; it is nil exactly when no host contributed an
    error. *)
Theorem election_returns_joined_errors :
  ∀ parse op ctx order,
    nmaReadCatalogEditorOp.hostsWithLatestCatalog
      (nmaReadCatalogEditorOp.elect parse op order) ≠ [] →
    nmaReadCatalogEditorOp.processResult parse op ctx order
      = (publishElection
           (nmaReadCatalogEditorOp.hostsWithLatestCatalog
              (nmaReadCatalogEditorOp.elect parse op order))
           (nmaReadCatalogEditorOp.latestNmaVDB (nmaReadCatalogEditorOp.elect parse op order))
           ctx,
         nmaReadCatalogEditorOp.allErrs (nmaReadCatalogEditorOp.elect parse op order))
    ∧ (nmaReadCatalogEditorOp.allErrs (nmaReadCatalogEditorOp.elect parse op order) = None
       ↔ Forall (λ e, nmaReadCatalogEditorOp.hostError parse op e = None) order)
    ∧ errorsOf (nmaReadCatalogEditorOp.processResult parse op ctx order).2
      = concat ((λ e, errorsOf (nmaReadCatalogEditorOp.hostError parse op e)) <$> order)
    ∧ (∀ e x, e ∈ order →
              x ∈ errorsOf (nmaReadCatalogEditorOp.hostError parse op e) →
              x ∈ errorsOf (nmaReadCatalogEditorOp.processResult parse op ctx order).2).
Proof.
  intros parse op ctx order Hne.
  assert (Hres : nmaReadCatalogEditorOp.processResult parse op ctx order
                 = (publishElection
                      (nmaReadCatalogEditorOp.hostsWithLatestCatalog
                         (nmaReadCatalogEditorOp.elect parse op order))
                      (nmaReadCatalogEditorOp.latestNmaVDB
                         (nmaReadCatalogEditorOp.elect parse op order))
                      ctx,
                    nmaReadCatalogEditorOp.allErrs
                      (nmaReadCatalogEditorOp.elect parse op order))).
  { unfold nmaReadCatalogEditorOp.processResult.
    destruct (nmaReadCatalogEditorOp.hostsWithLatestCatalog _); [done|reflexivity]. }
  split_and!.
  - exact Hres.
  - apply ReadCatalogFacts.elect_allErrs_nil.
  - rewrite Hres. cbn [snd]. apply readCatalog_elect_errors.
  - intros e x He Hx. rewrite Hres. cbn [snd]. rewrite readCatalog_elect_errors.
    by apply (concat_errors_elem _ _ e).
Qed.

Lemma election_returns_joined_errors_witness :
  nmaReadCatalogEditorOp.processResult decodeCatalog readCatalogOp freshContext partialFailure
  = (publishElection
       (nmaReadCatalogEditorOp.hostsWithLatestCatalog
          (nmaReadCatalogEditorOp.elect decodeCatalog readCatalogOp partialFailure))
       (nmaReadCatalogEditorOp.latestNmaVDB
          (nmaReadCatalogEditorOp.elect decodeCatalog readCatalogOp partialFailure))
       freshContext,
     nmaReadCatalogEditorOp.allErrs
       (nmaReadCatalogEditorOp.elect decodeCatalog readCatalogOp partialFailure)).
Proof.
  apply (election_returns_joined_errors decodeCatalog readCatalogOp freshContext partialFailure).
  vm_compute. discriminate.
Defined.

(** C8: the published hosts are the hosts visited at the maximum global
    version, in the order of the visit, and nothing but the global version
    decides; in scenario S1 the list is [B; C] when B is visited before C
    (and [C; B] when C is visited first). *)
Theorem election_keeps_visit_order :
  ∀ parse op order,
    nmaReadCatalogEditorOp.hostsWithLatestCatalog (nmaReadCatalogEditorOp.elect parse op order)
    = (filter (λ e, nmaReadCatalogEditorOp.globalOf parse e
                    = Some (nmaReadCatalogEditorOp.maxGlobalVersion
                              (nmaReadCatalogEditorOp.elect parse op order)))
         order).*1
    ∧ ctxHostsWithLatestCatalog
        (nmaReadCatalogEditorOp.processResult decodeCatalog readCatalogOp freshContext
           (cleanElection ["A"; "B"; "C"])).1 = ["B"; "C"]
    ∧ ctxHostsWithLatestCatalog
        (nmaReadCatalogEditorOp.processResult decodeCatalog readCatalogOp freshContext
           (cleanElection ["B"; "C"; "A"])).1 = ["B"; "C"]
    ∧ ctxHostsWithLatestCatalog
        (nmaReadCatalogEditorOp.processResult decodeCatalog readCatalogOp freshContext
           (cleanElection ["C"; "A"; "B"])).1 = ["C"; "B"].
Proof.
  intros parse op order. split_and!; [|vm_compute; reflexivity..].
  destruct (ReadCatalogFacts.elect_spec parse op order) as [-> ->]. reflexivity.
Qed.

(** C6: when a result collection holds an unauthorized result,
    [httpsStartReplicationOp.processResult] returns the error of the first
    unauthorized result it visits, as that result carries it: the results
    visited before leave no trace in the returned error, and the results
    after it are not inspected, whatever they are. *)
Theorem unauthorized_short_circuits :
  ∀ parse op (order : list (string * hostHTTPResult)),
    (∃ e, e ∈ order ∧ isUnauthorizedRequest e.2 = true) →
    ∃ pre h r post,
      order = pre ++ (h, r) :: post
      ∧ isUnauthorizedRequest r = true
      ∧ Forall (λ e, isUnauthorizedRequest e.2 = false) pre
      ∧ ∀ post', httpsStartReplicationOp.processResult parse op (pre ++ (h, r) :: post')
                 = (err r, pre.*1 ++ [h]).
Proof.
  intros parse op order (e & Hin & He).
  assert (Hsplit : ∃ pre h r post,
             order = pre ++ (h, r) :: post ∧ isUnauthorizedRequest r = true
             ∧ Forall (λ e, isUnauthorizedRequest e.2 = false) pre).
  { clear -Hin He. induction order as [|[h r] order IH]; [by apply elem_of_nil in Hin|].
    destruct (isUnauthorizedRequest r) eqn:Hr.
    - exists [], h, r, order. by split_and!.
    - apply elem_of_cons in Hin as [->|Hin]; [simpl in He; congruence|].
      destruct (IH Hin) as (pre & h' & r' & post & -> & Hr' & Hpre).
      exists ((h, r) :: pre), h', r', post. split_and!; [done|done|by constructor]. }
  destruct Hsplit as (pre & h & r & post & -> & Hr & Hpre).
  exists pre, h, r, post. split_and!; [done..|].
  intros post'. unfold httpsStartReplicationOp.processResult.
  destruct (StartReplicationFacts.processLoop_authorized parse op None [] pre
              ((h, r) :: post') Hpre) as [allErrs' ->].
  simpl. by rewrite Hr.
Qed.

Lemma unauthorized_short_circuits_witness :
  ∃ pre h r post,
    [("A", passingResult "A" "ok"); ("B", unauthorizedResult "B"); ("C", failedResult "C")]
    = pre ++ (h, r) :: post
    ∧ isUnauthorizedRequest r = true
    ∧ Forall (λ e, isUnauthorizedRequest e.2 = false) pre
    ∧ ∀ post', httpsStartReplicationOp.processResult (tableDecoder []) replicationOp
                 (pre ++ (h, r) :: post')
               = (err r, pre.*1 ++ [h]).
Proof.
  apply (unauthorized_short_circuits (tableDecoder []) replicationOp).
  exists ("B", unauthorizedResult "B"). split; [|reflexivity].
  apply elem_of_cons. right. apply elem_of_cons. by left.
Defined.

(** C7: when [sendRequest] returns without error, over a pool whose
    adapters answer under the host they are registered for, the hosts of
    the result collection are hosts of the request collection, and there
    are no more of them than requests. *)
Theorem sendRequest_results_within_requests :
  ∀ pool clusterHTTPRequest order received out,
    AdapterPool.keyed pool →
    rangeOrder (RequestCollection clusterHTTPRequest) order →
    AdapterPool.arrival pool order received →
    AdapterPool.sendRequest pool clusterHTTPRequest order received = (out, None) →
    dom (ResultCollection out) ⊆ dom (RequestCollection out)
    ∧ (size (ResultCollection out) ≤ size (RequestCollection out))%nat.
Proof.
  intros pool req order received out Hk Ho Ha. unfold AdapterPool.sendRequest.
  destruct (AdapterPool.collect pool order) as [e|ars] eqn:Hc; [done|].
  intros [= <-]. simpl. specialize (Ha ars Hc).
  assert (Hdom : dom (AdapterPool.gather received) = dom (RequestCollection req)).
  { rewrite AdapterPoolFacts.gather_dom, Ha, (AdapterPoolFacts.collect_hosts _ _ _ Hk Hc).
    unfold rangeOrder in Ho. rewrite Ho.
    apply set_eq. intros h. rewrite elem_of_list_to_set, elem_of_dom, list_elem_of_fmap. split.
    - intros ([h' rq] & -> & Hin%elem_of_map_to_list). by eexists.
    - intros [rq Hrq]. exists (h, rq). split; [done|]. by apply elem_of_map_to_list. }
  split.
  - by rewrite Hdom.
  - rewrite <- !size_dom. by rewrite Hdom.
Qed.

Lemma sendRequest_results_within_requests_witness :
  let out :=
    (AdapterPool.sendRequest samplePool (mkClusterRequest "op" sampleRequests ∅)
       [("A", setRequestData "ping A" emptyRequest); ("B", setRequestData "ping B" emptyRequest)]
       [echoAdapter "B" (setRequestData "ping B" emptyRequest);
        echoAdapter "A" (setRequestData "ping A" emptyRequest)]).1 in
  dom (ResultCollection out) ⊆ dom (RequestCollection out)
  ∧ (size (ResultCollection out) ≤ size (RequestCollection out))%nat.
Proof.
  apply (sendRequest_results_within_requests samplePool
           (mkClusterRequest "op" sampleRequests ∅)
           [("A", setRequestData "ping A" emptyRequest);
            ("B", setRequestData "ping B" emptyRequest)]
           [echoAdapter "B" (setRequestData "ping B" emptyRequest);
            echoAdapter "A" (setRequestData "ping A" emptyRequest)]).
  - intros h a rq. unfold samplePool. simpl.
    destruct (decide (h = "A")) as [->|HA].
    + rewrite lookup_insert_eq. by intros [= <-].
    + rewrite lookup_insert_ne by done.
      destruct (decide (h = "B")) as [->|HB].
      * rewrite lookup_singleton_eq. by intros [= <-].
      * by rewrite lookup_singleton_ne.
  - unfold rangeOrder, sampleRequests. simpl.
    rewrite map_to_list_insert by done. by rewrite map_to_list_singleton.
  - intros ars. vm_compute. intros [= <-]. apply perm_swap.
  - reflexivity.
Defined.

(** C9, as the claim states it for every operation, fails for
    [nmaDownloadConfigOp.prepare]: with two primary nodes that are up, the
    loop over [vdb.HostNodeMap] takes the first one it visits, and a run
    may visit the map in another order.  No implementation of the helpers
    outside the files modelled here makes a second run leave the request collection of the
    first, nor makes two runs from one state build one request
    collection. *)
Lemma download_config_prepare_picks_any_primary :
  (¬ ∃ getCatalogPath update,
       ∀ op ctx v order1 order2,
         nmaDownloadConfigOp.vdb op = Some v →
         rangeOrder (HostNodeMap v) order1 →
         rangeOrder (HostNodeMap v) order2 →
         nmaDownloadConfigOp.requests
           (nmaDownloadConfigOp.prepare getCatalogPath update
              (nmaDownloadConfigOp.prepare getCatalogPath update op ctx order1).1.1
              (nmaDownloadConfigOp.prepare getCatalogPath update op ctx order1).1.2
              order2).1.1
         = nmaDownloadConfigOp.requests
             (nmaDownloadConfigOp.prepare getCatalogPath update op ctx order1).1.1)
  ∧ (¬ ∃ getCatalogPath update,
         ∀ op ctx v order1 order2,
           nmaDownloadConfigOp.vdb op = Some v →
           rangeOrder (HostNodeMap v) order1 →
           rangeOrder (HostNodeMap v) order2 →
           nmaDownloadConfigOp.requests
             (nmaDownloadConfigOp.prepare getCatalogPath update op ctx order2).1.1
           = nmaDownloadConfigOp.requests
               (nmaDownloadConfigOp.prepare getCatalogPath update op ctx order1).1.1).
Proof.
  split; intros (g & u & H);
    specialize (H nmaDownloadConfigOp.sampleOp nmaDownloadConfigOp.sampleCtx _
                  nmaDownloadConfigOp.orderAB nmaDownloadConfigOp.orderBA eq_refl
                  DownloadConfigFacts.orderAB_range DownloadConfigFacts.orderBA_range);
    destruct (DownloadConfigFacts.prepare_picks_any g u) as (Hnone & [x Hsome] & [y Hsome']);
    cbv zeta in Hnone, Hsome, Hsome'.
  - rewrite H, Hnone in Hsome. discriminate Hsome.
  - rewrite H, Hnone in Hsome'. discriminate Hsome'.
Qed.

Lemma sliceCommon_spec : httpsStartReplicationOp.SliceCommon_spec sliceCommon.
Proof.
  intros a b x. unfold sliceCommon. rewrite list_elem_of_filter. tauto.
Qed.

(** C9, amended: for [nmaReadCatalogEditorOp.prepare] (with or without
    initiators, and whatever the orders in which the runs visit
    [vdb.HostNodeMap]) and for [httpsStartReplicationOp.prepare] (with a
    [SliceCommon] that returns the common elements), a second run of
    [prepare] on the state the first run left builds the request
    collection the first run built; and two runs of
    [nmaReadCatalogEditorOp.prepare] from one state build one request
    collection. *)
Theorem prepare_twice_same_requests :
  ∀ (op : nmaReadCatalogEditorOp.t) ctx ctx' keys1 entries1 keys2 entries2
    json_Marshal SliceCommon (op' : httpsStartReplicationOp.t) ctx0,
    rangeOrder (HostNodeMap (nmaReadCatalogEditorOp.vdb op)) entries1 →
    rangeOrder (HostNodeMap (nmaReadCatalogEditorOp.vdb op)) entries2 →
    keys1 ≡ₚ (map_to_list (HostNodeMap (nmaReadCatalogEditorOp.vdb op))).*1 →
    keys2 ≡ₚ (map_to_list (HostNodeMap (nmaReadCatalogEditorOp.vdb op))).*1 →
    httpsStartReplicationOp.SliceCommon_spec SliceCommon →
    requests (nmaReadCatalogEditorOp.base
                (nmaReadCatalogEditorOp.prepare
                   (nmaReadCatalogEditorOp.prepare op ctx keys1 entries1).1.1
                   ctx' keys2 entries2).1.1)
    = requests (nmaReadCatalogEditorOp.base
                  (nmaReadCatalogEditorOp.prepare op ctx keys1 entries1).1.1)
    ∧ requests (nmaReadCatalogEditorOp.base
                  (nmaReadCatalogEditorOp.prepare op ctx keys2 entries2).1.1)
      = requests (nmaReadCatalogEditorOp.base
                    (nmaReadCatalogEditorOp.prepare op ctx keys1 entries1).1.1)
    ∧ requests (httpsStartReplicationOp.base
                  (httpsStartReplicationOp.prepare json_Marshal SliceCommon
                     (httpsStartReplicationOp.prepare json_Marshal SliceCommon op' ctx0).1.1
                     (httpsStartReplicationOp.prepare json_Marshal SliceCommon op' ctx0).1.2).1.1)
      = requests (httpsStartReplicationOp.base
                    (httpsStartReplicationOp.prepare json_Marshal SliceCommon op' ctx0).1.1).
Proof.
  intros op ctx ctx' keys1 entries1 keys2 entries2 marshal common op' ctx0
    He1 He2 Hk1 Hk2 Hsc. split_and!.
  - by apply ReadCatalogFacts.readCatalog_prepare_twice.
  - by apply ReadCatalogFacts.prepare_order_independent.
  - by apply StartReplicationFacts.startReplication_prepare_twice.
Qed.

Lemma prepare_twice_same_requests_witness :
  let op := nmaReadCatalogEditorOp.makeNMAReadCatalogEditorOpWithInitiator
              ["192.168.1.102"] sampleVDB in
  let keys := (map_to_list (HostNodeMap sampleVDB)).*1 in
  let entries := map_to_list (HostNodeMap sampleVDB) in
  let op' := replicationFrom ["192.168.1.102"; "192.168.1.101"] in
  requests (nmaReadCatalogEditorOp.base
              (nmaReadCatalogEditorOp.prepare
                 (nmaReadCatalogEditorOp.prepare op freshContext keys entries).1.1
                 freshContext keys entries).1.1)
  = requests (nmaReadCatalogEditorOp.base
                (nmaReadCatalogEditorOp.prepare op freshContext keys entries).1.1)
  ∧ requests (nmaReadCatalogEditorOp.base
                (nmaReadCatalogEditorOp.prepare op freshContext keys entries).1.1)
    = requests (nmaReadCatalogEditorOp.base
                  (nmaReadCatalogEditorOp.prepare op freshContext keys entries).1.1)
  ∧ requests (httpsStartReplicationOp.base
                (httpsStartReplicationOp.prepare marshalReplicate sliceCommon
                   (httpsStartReplicationOp.prepare marshalReplicate sliceCommon op' upNodes).1.1
                   (httpsStartReplicationOp.prepare marshalReplicate sliceCommon op' upNodes).1.2).1.1)
    = requests (httpsStartReplicationOp.base
                  (httpsStartReplicationOp.prepare marshalReplicate sliceCommon op' upNodes).1.1).
Proof.
  cbv zeta.
  apply (prepare_twice_same_requests
           (nmaReadCatalogEditorOp.makeNMAReadCatalogEditorOpWithInitiator
              ["192.168.1.102"] sampleVDB)
           freshContext freshContext
           (map_to_list (HostNodeMap sampleVDB)).*1 (map_to_list (HostNodeMap sampleVDB))
           (map_to_list (HostNodeMap sampleVDB)).*1 (map_to_list (HostNodeMap sampleVDB))
           marshalReplicate sliceCommon
           (replicationFrom ["192.168.1.102"; "192.168.1.101"]) upNodes).
  - unfold rangeOrder. reflexivity.
  - unfold rangeOrder. reflexivity.
  - reflexivity.
  - reflexivity.
  - apply sliceCommon_spec.
Defined.

Lemma sortedSample_ok : ReviveDB.sortedNodes sampleVDB sortedSample.
Proof.
  split.
  - pose proof DownloadConfigFacts.orderAB_range as H. unfold rangeOrder in H.
    simpl. rewrite <- H. reflexivity.
  - repeat constructor.
Qed.

(** C10, as the claim states it, fails on a host list that names one host
    twice: with two nodes and the list [10.1.10.1; 10.1.10.1] the second
    assignment overwrites the first, and the first host of the list is
    mapped to the node with the second smallest name. *)
Lemma revive_repeated_host_is_overwritten :
  ReviveDB.sortedNodes sampleVDB sortedSample
  ∧ length ["10.1.10.1"; "10.1.10.1"] = size (HostNodeMap sampleVDB)
  ∧ (ReviveDB.generateReviveVDB sampleVDB ["10.1.10.1"; "10.1.10.1"] sortedSample
       ≫= λ out, HostNodeMap out.1 !! "10.1.10.1")
    = Some (setAddress "10.1.10.1" nmaDownloadConfigOp.nodeB)
  ∧ sortedSample !! 0%nat = Some nmaDownloadConfigOp.nodeA
  ∧ setAddress "10.1.10.1" nmaDownloadConfigOp.nodeB
    ≠ setAddress "10.1.10.1" nmaDownloadConfigOp.nodeA.
Proof.
  split_and!; [apply sortedSample_ok|vm_compute; reflexivity..|].
  intros H. apply (f_equal Name) in H. vm_compute in H. discriminate.
Qed.

(** C10, amended: for a host list without repetition, of the length of
    [vdb.HostNodeMap], [generateReviveVDB] returns a database whose host
    list is the input list and whose map sends the k-th host to the k-th
    node in the order of the names, with its address rewritten to that
    host; every node of the new map has its key as address; [oldHosts]
    holds the replaced addresses in the same order.  On a longer host list
    the function panics. *)
Theorem generateReviveVDB_assigns_in_name_order :
  ∀ vdb vNodes hs,
    ReviveDB.sortedNodes vdb vNodes →
    (length hs = size (HostNodeMap vdb) → NoDup hs →
     ∃ newVDB oldHosts,
       ReviveDB.generateReviveVDB vdb hs vNodes = Some (newVDB, oldHosts)
       ∧ HostList newVDB = hs
       ∧ length oldHosts = length hs
       ∧ (∀ k h, hs !! k = Some h →
            ∃ n, vNodes !! k = Some n
                 ∧ HostNodeMap newVDB !! h = Some (setAddress h n)
                 ∧ oldHosts !! k = Some (Address n))
       ∧ (∀ h n, HostNodeMap newVDB !! h = Some n → Address n = h))
    ∧ ((size (HostNodeMap vdb) < length hs)%nat →
       ReviveDB.generateReviveVDB vdb hs vNodes = None).
Proof.
  intros vdb vNodes hs Hs. pose proof (ReviveDBFacts.sortedNodes_length _ _ Hs) as Hlen.
  unfold ReviveDB.generateReviveVDB. simpl. split.
  - intros Hl Hnd.
    destruct (ReviveDBFacts.assignHosts_ok vNodes 0 hs ∅ [] ltac:(simpl; lia) Hnd)
      as (m' & o' & -> & Hlo & Hk & _ & Hout).
    eexists _, o'. split_and!; [reflexivity|done|done|..].
    + intros k h Hkh. destruct (Hk k h Hkh) as (n & Hn & Hm & Ho). by exists n.
    + simpl. intros h n Hh.
      destruct (decide (h ∈ hs)) as [Hin|Hnin].
      * apply list_elem_of_lookup in Hin as [k Hkh].
        destruct (Hk k h Hkh) as (n0 & _ & Hm & _). simpl in Hm.
        rewrite Hm in Hh. by injection Hh as <-.
      * rewrite (Hout h Hnin), lookup_empty in Hh. done.
  - intros Hlt. rewrite ReviveDBFacts.assignHosts_panic; [done|lia|simpl; lia].
Qed.

Lemma generateReviveVDB_assigns_in_name_order_witness :
  (∃ newVDB oldHosts,
     ReviveDB.generateReviveVDB sampleVDB ["10.1.10.2"; "10.1.10.1"] sortedSample
       = Some (newVDB, oldHosts)
     ∧ HostList newVDB = ["10.1.10.2"; "10.1.10.1"]
     ∧ length oldHosts = length ["10.1.10.2"; "10.1.10.1"]
     ∧ (∀ k h, ["10.1.10.2"; "10.1.10.1"] !! k = Some h →
          ∃ n, sortedSample !! k = Some n
               ∧ HostNodeMap newVDB !! h = Some (setAddress h n)
               ∧ oldHosts !! k = Some (Address n))
     ∧ (∀ h n, HostNodeMap newVDB !! h = Some n → Address n = h))
  ∧ ReviveDB.generateReviveVDB sampleVDB ["10.1.10.2"; "10.1.10.1"; "10.1.10.3"] sortedSample
    = None.
Proof.
  split.
  - apply (generateReviveVDB_assigns_in_name_order sampleVDB sortedSample
             ["10.1.10.2"; "10.1.10.1"] sortedSample_ok).
    + vm_compute. reflexivity.
    + repeat constructor; set_solver.
  - apply (generateReviveVDB_assigns_in_name_order sampleVDB sortedSample
             ["10.1.10.2"; "10.1.10.1"; "10.1.10.3"] sortedSample_ok).
    vm_compute. lia.
Defined.

(** C2, as the claim states it, fails on the text of the error: below
    quorum the returned error carries the success count, and nothing in it
    depends on the primary-node count; no implementation of the helper
    outside the files modelled here and no reading of the error recovers the total.  With a
    helper that returns its argument, the error on an empty result
    collection of an operation with 5 primary nodes is the single message
    "... Success count: 0". *)
Lemma quorum_error_omits_total :
  (¬ ∃ appendHTTPSFailureError parse (totalOf : goError → nat),
       ∀ op order,
         NMALoadRemoteCatalogOp.hasQuorum
           (NMALoadRemoteCatalogOp.successCount parse op order)
           (NMALoadRemoteCatalogOp.primaryNodeCount op) = false →
         ∃ e, NMALoadRemoteCatalogOp.processResult appendHTTPSFailureError parse op order
              = Some e
              ∧ totalOf e = NMALoadRemoteCatalogOp.primaryNodeCount op)
  ∧ NMALoadRemoteCatalogOp.primaryNodeCount (reviveOpOn fiveHosts) = 5%nat
  ∧ NMALoadRemoteCatalogOp.primaryNodeCount (reviveOpOn sevenHosts) = 7%nat
  ∧ NMALoadRemoteCatalogOp.processResult id decodeLoad (reviveOpOn fiveHosts) []
    = Some (joinError
              [errorString "[NMALoadRemoteCatalogOp] fail to load catalog on enough primary nodes. Success count: 0"])
  ∧ NMALoadRemoteCatalogOp.processResult id decodeLoad (reviveOpOn sevenHosts) []
    = NMALoadRemoteCatalogOp.processResult id decodeLoad (reviveOpOn fiveHosts) [].
Proof.
  split_and!; [|vm_compute; reflexivity..].
  intros (app & parse & totalOf & H).
  destruct (H (reviveOpOn fiveHosts) []) as (e5 & He5 & Ht5); [vm_compute; reflexivity|].
  destruct (H (reviveOpOn sevenHosts) []) as (e7 & He7 & Ht7); [vm_compute; reflexivity|].
  assert (Heq : NMALoadRemoteCatalogOp.processResult app parse (reviveOpOn fiveHosts) []
                = NMALoadRemoteCatalogOp.processResult app parse (reviveOpOn sevenHosts) [])
    by (vm_compute; reflexivity).
  rewrite He5, He7 in Heq. injection Heq as ->.
  assert (H5 : NMALoadRemoteCatalogOp.primaryNodeCount (reviveOpOn fiveHosts) = 5%nat)
    by (vm_compute; reflexivity).
  assert (H7 : NMALoadRemoteCatalogOp.primaryNodeCount (reviveOpOn sevenHosts) = 7%nat)
    by (vm_compute; reflexivity).
  rewrite H5 in Ht5. rewrite H7 in Ht7. rewrite Ht7 in Ht5. discriminate.
Qed.

(** C2, amended: with a helper [appendHTTPSFailureError] that never turns
    an error into nil, [processResult] returns nil exactly when the
    primary nodes of [vdb] that returned a passing response decoding with
    status code 0 are strictly more than half of the primary-node count of
    the operation, whatever the other hosts returned; below quorum it
    returns what the helper makes of the join of the errors of the hosts
    and of a message that carries the success count; that error is the
    same for every primary-node count below quorum.  The join given to
    the helper holds the errors of the hosts that failed, each of them,
    in the order of the visit, followed by that message, and nothing
    else. *)
Theorem load_catalog_quorum :
  ∀ appendHTTPSFailureError parse op order,
    (∀ e, appendHTTPSFailureError (Some e) ≠ None) →
    let successes := NMALoadRemoteCatalogOp.successCount parse op order in
    (NMALoadRemoteCatalogOp.processResult appendHTTPSFailureError parse op order = None
     ↔ (NMALoadRemoteCatalogOp.primaryNodeCount op < 2 * successes)%nat)
    ∧ ((2 * successes ≤ NMALoadRemoteCatalogOp.primaryNodeCount op)%nat →
       NMALoadRemoteCatalogOp.processResult appendHTTPSFailureError parse op order
       = appendHTTPSFailureError
           (errors_Join [(NMALoadRemoteCatalogOp.reduce parse op order).1;
                         Some (NMALoadRemoteCatalogOp.quorumError op successes)]))
    ∧ (∀ op', name (NMALoadRemoteCatalogOp.base op') = name (NMALoadRemoteCatalogOp.base op) →
              NMALoadRemoteCatalogOp.successCount parse op' order = successes →
              (2 * successes ≤ NMALoadRemoteCatalogOp.primaryNodeCount op)%nat →
              (2 * successes ≤ NMALoadRemoteCatalogOp.primaryNodeCount op')%nat →
              NMALoadRemoteCatalogOp.processResult appendHTTPSFailureError parse op' order
              = NMALoadRemoteCatalogOp.processResult appendHTTPSFailureError parse op order)
    ∧ errorsOf (errors_Join [(NMALoadRemoteCatalogOp.reduce parse op order).1;
                             Some (NMALoadRemoteCatalogOp.quorumError op successes)])
      = concat ((λ e, errorsOf (NMALoadRemoteCatalogOp.hostError parse op e)) <$> order)
        ++ [NMALoadRemoteCatalogOp.quorumError op successes]
    ∧ (∀ e x, e ∈ order →
              x ∈ errorsOf (NMALoadRemoteCatalogOp.hostError parse op e) →
              x ∈ errorsOf (errors_Join
                              [(NMALoadRemoteCatalogOp.reduce parse op order).1;
                               Some (NMALoadRemoteCatalogOp.quorumError op successes)])).
Proof.
  intros app parse op order Happ successes.
  assert (Hbelow : ∀ o, name (NMALoadRemoteCatalogOp.base o) = name (NMALoadRemoteCatalogOp.base op) →
            NMALoadRemoteCatalogOp.successCount parse o order = successes →
            (2 * successes ≤ NMALoadRemoteCatalogOp.primaryNodeCount o)%nat →
            NMALoadRemoteCatalogOp.processResult app parse o order
            = app (errors_Join [(NMALoadRemoteCatalogOp.reduce parse op order).1;
                                Some (NMALoadRemoteCatalogOp.quorumError op successes)])).
  { intros o Hn Hs Hle. unfold NMALoadRemoteCatalogOp.processResult.
    pose proof (LoadRemoteCatalogFacts.reduce_errors_by_name parse op o order Hn) as He.
    pose proof (LoadRemoteCatalogFacts.reduce_count parse o order) as Hc.
    destruct (NMALoadRemoteCatalogOp.reduce parse o order) as [allErrs n].
    simpl in Hc, He. rewrite Hs in Hc. subst n allErrs.
    destruct (NMALoadRemoteCatalogOp.hasQuorum successes _) eqn:Hq.
    - apply LoadRemoteCatalogFacts.hasQuorum_majority in Hq. lia.
    - simpl. unfold NMALoadRemoteCatalogOp.quorumError. by rewrite Hn. }
  split_and!.
  - destruct (decide (NMALoadRemoteCatalogOp.primaryNodeCount op < 2 * successes)%nat)
      as [Hlt|Hge].
    + split; [done|]. intros _. unfold NMALoadRemoteCatalogOp.processResult.
      pose proof (LoadRemoteCatalogFacts.reduce_count parse op order) as Hc.
      destruct (NMALoadRemoteCatalogOp.reduce parse op order) as [allErrs n]. simpl in Hc.
      subst n. fold successes.
      apply LoadRemoteCatalogFacts.hasQuorum_majority in Hlt. by rewrite Hlt.
    + split; [|done]. rewrite (Hbelow op eq_refl eq_refl) by lia.
      intros Hnil. exfalso. unfold errors_Join in Hnil.
      destruct ((NMALoadRemoteCatalogOp.reduce parse op order).1); simpl in Hnil;
        by apply Happ in Hnil.
  - intros Hle. by apply Hbelow.
  - intros op' Hn Hs Hle Hle'. rewrite (Hbelow op' Hn Hs Hle').
    by rewrite (Hbelow op eq_refl eq_refl Hle).
  - by rewrite errorsOf_Join, loadCatalog_reduce_errors.
  - intros e x He Hx. rewrite errorsOf_Join, loadCatalog_reduce_errors.
    apply elem_of_app. left. by apply (concat_errors_elem _ _ e).
Qed.

Lemma load_catalog_quorum_witness :
  (NMALoadRemoteCatalogOp.processResult appendFailure decodeLoad reviveOp
     (loadResults ["h1"; "h2"; "h3"] ["h4"; "h5"]) = None
   ↔ (NMALoadRemoteCatalogOp.primaryNodeCount reviveOp
      < 2 * NMALoadRemoteCatalogOp.successCount decodeLoad reviveOp
              (loadResults ["h1"; "h2"; "h3"] ["h4"; "h5"]))%nat)
  ∧ NMALoadRemoteCatalogOp.processResult appendFailure decodeLoad reviveOp
      (loadResults ["h1"; "h2"] ["h3"; "h4"; "h5"])
    = appendFailure
        (errors_Join
           [(NMALoadRemoteCatalogOp.reduce decodeLoad reviveOp
               (loadResults ["h1"; "h2"] ["h3"; "h4"; "h5"])).1;
            Some (NMALoadRemoteCatalogOp.quorumError reviveOp 2)]).
Proof.
  split.
  - refine (proj1 (load_catalog_quorum appendFailure decodeLoad reviveOp
                      (loadResults ["h1"; "h2"; "h3"] ["h4"; "h5"]) _)).
    intros e. vm_compute. discriminate.
  - refine (proj1 (proj2 (load_catalog_quorum appendFailure decodeLoad reviveOp
                             (loadResults ["h1"; "h2"] ["h3"; "h4"; "h5"]) _)) _).
    + intros e. vm_compute. discriminate.
    + vm_compute. lia.
Defined.


(** * Further properties of the operations *)

(** ** The election: the maximum, the failure, the kept descriptor *)

(** X1: the maximum the election ends with is non-negative and at least
    every version a host returned, and the elected hosts are exactly the
    hosts visited with a descriptor at that maximum. *)
Theorem election_elects_the_hosts_at_the_maximum :
  ∀ parse op order,
    let st := nmaReadCatalogEditorOp.elect parse op order in
    0 ≤ nmaReadCatalogEditorOp.maxGlobalVersion st
    ∧ (∀ e v, e ∈ order → nmaReadCatalogEditorOp.globalOf parse e = Some v →
              v ≤ nmaReadCatalogEditorOp.maxGlobalVersion st)
    ∧ (∀ h, h ∈ nmaReadCatalogEditorOp.hostsWithLatestCatalog st
            ↔ ∃ r, (h, r) ∈ order
                   ∧ nmaReadCatalogEditorOp.globalOf parse (h, r)
                     = Some (nmaReadCatalogEditorOp.maxGlobalVersion st)).
Proof.
  intros parse op order st. subst st.
  destruct (ReadCatalogFacts.elect_spec parse op order) as [-> ->].
  split_and!.
  - apply ReadCatalogFacts.maxSeen_nonneg.
  - intros e v. apply ReadCatalogFacts.maxSeen_upper.
  - intros h. split.
    + apply ReadCatalogFacts.winners_inv.
    + intros (r & Hin & Hv). by apply (ReadCatalogFacts.winners_elem parse _ _ (h, r)).
Qed.

(** X2: [processResult] of the election publishes a non-empty list of
    hosts when some host returned a descriptor with a non-negative
    version, and returns a join that holds the errors of the hosts that
    failed, in the order of the visit, and nothing else; otherwise it
    leaves the context as it was and returns the join of these errors
    followed by "cannot find any host with the latest catalog". *)
Theorem election_outcome :
  ∀ parse op ctx order,
    let st := nmaReadCatalogEditorOp.elect parse op order in
    ((∃ e v, e ∈ order ∧ nmaReadCatalogEditorOp.globalOf parse e = Some v ∧ 0 ≤ v) →
     nmaReadCatalogEditorOp.hostsWithLatestCatalog st ≠ []
     ∧ nmaReadCatalogEditorOp.processResult parse op ctx order
       = (publishElection (nmaReadCatalogEditorOp.hostsWithLatestCatalog st)
            (nmaReadCatalogEditorOp.latestNmaVDB st) ctx,
          nmaReadCatalogEditorOp.allErrs st)
     ∧ errorsOf (nmaReadCatalogEditorOp.processResult parse op ctx order).2
       = concat ((λ e, errorsOf (nmaReadCatalogEditorOp.hostError parse op e)) <$> order))
    ∧ ((¬ ∃ e v, e ∈ order ∧ nmaReadCatalogEditorOp.globalOf parse e = Some v ∧ 0 ≤ v) →
       ∃ err,
         nmaReadCatalogEditorOp.processResult parse op ctx order = (ctx, Some (joinError err))
         ∧ last err
           = Some (errorString ("[" +:+ name (nmaReadCatalogEditorOp.base op)
                                  +:+ "] cannot find any host with the latest catalog"))
         ∧ errorsOf (Some (joinError err))
           = concat ((λ e, errorsOf (nmaReadCatalogEditorOp.hostError parse op e)) <$> order)
             ++ [errorString ("[" +:+ name (nmaReadCatalogEditorOp.base op)
                                +:+ "] cannot find any host with the latest catalog")]).
Proof.
  intros parse op ctx order st. subst st.
  pose proof (ReadCatalogFacts.winners_nonempty_iff parse order) as Hiff.
  destruct (ReadCatalogFacts.elect_spec parse op order) as [_ Hh].
  pose proof (readCatalog_elect_errors parse op order) as Herrs.
  rewrite <- Hh in Hiff. unfold nmaReadCatalogEditorOp.processResult. cbv zeta. split.
  - intros Hex. apply Hiff in Hex. split; [done|].
    by destruct (nmaReadCatalogEditorOp.hostsWithLatestCatalog _).
  - intros Hno.
    destruct (nmaReadCatalogEditorOp.hostsWithLatestCatalog _) eqn:Hl.
    + cbn [length Nat.eqb]. rewrite <- Herrs.
      pose proof (errorsOf_Join
                    (nmaReadCatalogEditorOp.allErrs
                       (nmaReadCatalogEditorOp.elect parse op order))
                    (Some (errorString ("[" +:+ name (nmaReadCatalogEditorOp.base op)
                                          +:+ "] cannot find any host with the latest catalog"))))
        as Hj.
      unfold errors_Join in *.
      destruct (nmaReadCatalogEditorOp.allErrs _); simpl in *; eexists;
        (split; [reflexivity|split; [done|exact Hj] ]).
    + exfalso. apply Hno, Hiff. done.
Qed.

(** X3: when some host returned a descriptor with a positive version, the
    descriptor [processResult] publishes is the decoded descriptor of the
    first published host, with the host-node map and the primary-node
    count derived from its nodes. *)
Theorem election_publishes_descriptor_of_first_winner :
  ∀ parse op ctx order,
    (∃ e v, e ∈ order ∧ nmaReadCatalogEditorOp.globalOf parse e = Some v ∧ 0 < v) →
    let out := nmaReadCatalogEditorOp.processResult parse op ctx order in
    ∃ h r d rest,
      ctxHostsWithLatestCatalog out.1 = h :: rest
      ∧ (h, r) ∈ order
      ∧ isPassing r = true
      ∧ parse h (content r) = inr d
      ∧ ctxNmaVDatabase out.1 = nmaReadCatalogEditorOp.derive d.
Proof.
  intros parse op ctx order (e & v & Hin & Hv & Hpos) out. subst out.
  pose proof (ReadCatalogFacts.maxSeen_upper parse _ _ _ Hin Hv) as Hup.
  destruct (ReadCatalogFacts.elect_latest parse op order) as [_ Hl].
  destruct Hl as (e0 & Hfirst & Hparsed); [lia|].
  destruct (ReadCatalogFacts.elect_spec parse op order) as [Hm Hh].
  unfold nmaReadCatalogEditorOp.processResult. cbv zeta. rewrite Hh.
  unfold nmaReadCatalogEditorOp.firstAt in Hfirst.
  unfold nmaReadCatalogEditorOp.winners.
  destruct (filter _ order) as [|e1 l] eqn:Hf; [done|].
  simpl in Hfirst. injection Hfirst as ->. simpl.
  destruct e0 as [h r]. exists h, r.
  assert (He : (h, r) ∈ filter
                 (λ e, nmaReadCatalogEditorOp.globalOf parse e
                       = Some (nmaReadCatalogEditorOp.maxSeen parse order)) order)
    by (rewrite Hf; left).
  apply list_elem_of_filter in He as [_ Hino].
  unfold nmaReadCatalogEditorOp.parsed in Hparsed. simpl in Hparsed.
  destruct (isPassing r) eqn:Hp; [|done].
  destruct (parse h (content r)) as [err|d] eqn:Hd; [done|].
  destruct (Int64 _); [done|]. injection Hparsed as _ Hder.
  exists d, l.*1. by split_and!.
Qed.

Lemma election_publishes_descriptor_of_first_winner_witness :
  ∃ h r d rest,
    ctxHostsWithLatestCatalog
      (nmaReadCatalogEditorOp.processResult decodeCatalog readCatalogOp freshContext
         partialFailure).1 = h :: rest
    ∧ (h, r) ∈ partialFailure
    ∧ isPassing r = true
    ∧ decodeCatalog h (content r) = inr d
    ∧ ctxNmaVDatabase
        (nmaReadCatalogEditorOp.processResult decodeCatalog readCatalogOp freshContext
           partialFailure).1 = nmaReadCatalogEditorOp.derive d.
Proof.
  apply (election_publishes_descriptor_of_first_winner decodeCatalog readCatalogOp
           freshContext partialFailure).
  exists ("C", passingResult "C" "catalog at 12"), 12. split_and!.
  - apply elem_of_cons. right. apply elem_of_cons. right. apply elem_of_cons. by left.
  - vm_compute. reflexivity.
  - lia.
Defined.

Lemma buildHostNodeMap_snoc nodes n :
  nmaReadCatalogEditorOp.buildHostNodeMap (nodes ++ [n])
  = (<[nAddress n := n]> (nmaReadCatalogEditorOp.buildHostNodeMap nodes).1,
     if nIsPrimary n then S (nmaReadCatalogEditorOp.buildHostNodeMap nodes).2
     else (nmaReadCatalogEditorOp.buildHostNodeMap nodes).2).
Proof. unfold nmaReadCatalogEditorOp.buildHostNodeMap. by rewrite foldl_snoc. Qed.

(** X4: the descriptor kept for a host has the nodes and versions as
    decoded; its primary-node count is the number of nodes flagged primary,
    and its host-node map sends an address to the last node of the
    descriptor with that address (whatever the decoder had put in these
    two fields). *)
Theorem derive_indexes_nodes_by_address :
  ∀ d,
    Nodes (nmaReadCatalogEditorOp.derive d) = Nodes d
    ∧ Versions (nmaReadCatalogEditorOp.derive d) = Versions d
    ∧ vPrimaryNodeCount (nmaReadCatalogEditorOp.derive d)
      = length (filter (λ n, nIsPrimary n = true) (Nodes d))
    ∧ ∀ a, vHostNodeMap (nmaReadCatalogEditorOp.derive d) !! a
           = last (filter (λ n, nAddress n = a) (Nodes d)).
Proof.
  intros d. unfold nmaReadCatalogEditorOp.derive.
  destruct (nmaReadCatalogEditorOp.buildHostNodeMap (Nodes d)) as [m c] eqn:Hb. simpl.
  split_and!; [done|done|..].
  - assert (H : ∀ nodes, (nmaReadCatalogEditorOp.buildHostNodeMap nodes).2
                         = length (filter (λ n, nIsPrimary n = true) nodes)).
    { induction nodes as [|n nodes IH] using rev_ind; [done|].
      rewrite buildHostNodeMap_snoc, filter_app, length_app. simpl. rewrite IH.
      destruct (nIsPrimary n) eqn:Hn.
      - rewrite (filter_cons_True _ n []) by done. simpl. lia.
      - rewrite (filter_cons_False _ n []) by (by rewrite Hn). simpl. lia. }
    specialize (H (Nodes d)). by rewrite Hb in H.
  - intros a.
    assert (H : ∀ nodes, (nmaReadCatalogEditorOp.buildHostNodeMap nodes).1 !! a
                         = last (filter (λ n, nAddress n = a) nodes)).
    { induction nodes as [|n nodes IH] using rev_ind; [done|].
      rewrite buildHostNodeMap_snoc, filter_app. cbn [fst].
      destruct (decide (nAddress n = a)) as [Ha|Ha].
      - rewrite (filter_cons_True _ n []) by done. rewrite filter_nil, last_snoc.
        by rewrite Ha, lookup_insert_eq.
      - rewrite (filter_cons_False _ n []) by done. rewrite filter_nil, app_nil_r.
        by rewrite lookup_insert_ne. }
    specialize (H (Nodes d)). by rewrite Hb in H.
Qed.

(** ** nmaReadCatalogEditorOp.prepare: the requests it builds *)

Lemma readCatalog_setup_error op hs :
  (nmaReadCatalogEditorOp.setupClusterHTTPRequest op hs).2 = None
  ↔ Forall (λ h, is_Some (nmaReadCatalogEditorOp.catalogPathMap op !! h)) hs.
Proof.
  revert op. induction hs as [|h hs IH]; intros op; simpl; [by split|].
  rewrite Forall_cons.
  destruct (nmaReadCatalogEditorOp.catalogPathMap op !! h) as [cp|] eqn:Hcp.
  - rewrite IH. simpl. split; [intros ?; split; [by eexists|done]|by intros [_ ?]].
  - simpl. split; [done|]. by intros [[? ?] _].
Qed.

Lemma initiatorPaths_ok hnm cpm init :
  (nmaReadCatalogEditorOp.initiatorPaths hnm cpm init).2 = None
  ↔ Forall (λ h, is_Some (hnm !! h)) init.
Proof.
  revert cpm. induction init as [|h init IH]; intros cpm; simpl; [by split|].
  rewrite Forall_cons. destruct (hnm !! h) as [vnode|] eqn:Hh.
  - rewrite IH. split; [intros ?; split; [by eexists|done]|by intros [_ ?]].
  - simpl. split; [done|]. by intros [[? ?] _].
Qed.

Lemma initiatorPaths_lookup hnm cpm init k :
  (nmaReadCatalogEditorOp.initiatorPaths hnm cpm init).2 = None →
  (nmaReadCatalogEditorOp.initiatorPaths hnm cpm init).1 !! k
  = if decide (k ∈ init) then CatalogPath <$> hnm !! k else cpm !! k.
Proof.
  revert cpm. induction init as [|h init IH]; intros cpm;
    cbn [nmaReadCatalogEditorOp.initiatorPaths].
  - intros _. by rewrite decide_False by (by intros ?%elem_of_nil).
  - destruct (hnm !! h) as [vnode|] eqn:Hh; [|done]. intros Hok.
    rewrite (IH _ Hok).
    destruct (decide (k ∈ init)) as [Hin|Hnin].
    + by rewrite decide_True by (by right).
    + destruct (decide (k = h)) as [->|Hne].
      * rewrite decide_True by left. by rewrite lookup_insert_eq, Hh.
      * rewrite decide_False by (by intros [?|?]%elem_of_cons).
        by rewrite lookup_insert_ne.
Qed.

(** X5: without initiators, [prepare] of the read-catalog operation never
    fails: it targets the hosts of [vdb.HostNodeMap] in the order
    [maps.Keys] lists them, registers them with the dispatcher, and builds
    one request per node, GET catalog/database with the catalog path of
    that node as query parameter. *)
Theorem readCatalog_prepare_requests_every_node :
  ∀ vdb ctx keys entries,
    rangeOrder (HostNodeMap vdb) entries →
    keys ≡ₚ (map_to_list (HostNodeMap vdb)).*1 →
    let r := nmaReadCatalogEditorOp.prepare
               (nmaReadCatalogEditorOp.makeNMAReadCatalogEditorOp vdb) ctx keys entries in
    r.2 = None
    ∧ r.1.2 = dispatcher_setup keys ctx
    ∧ hosts (nmaReadCatalogEditorOp.base r.1.1) = keys
    ∧ requests (nmaReadCatalogEditorOp.base r.1.1)
      = (λ n, mkRequest GetMethod (Some (nodeMgmt, "catalog/database"))
                {[ "catalog_path" := CatalogPath n ]} "" 0 "" None)
        <$> HostNodeMap vdb.
Proof.
  intros vdb ctx keys entries He Hk r.
  set (op := nmaReadCatalogEditorOp.makeNMAReadCatalogEditorOp vdb) in *.
  destruct (ReadCatalogFacts.prepare_noinit op ctx keys entries "" eq_refl He Hk)
    as (_ & _ & _).
  assert (Hreq : ∀ k, requests (nmaReadCatalogEditorOp.base r.1.1) !! k
                      = (λ n, nmaReadCatalogEditorOp.catalogRequest (CatalogPath n))
                          <$> HostNodeMap vdb !! k).
  { intros k.
    destruct (ReadCatalogFacts.prepare_noinit op ctx keys entries k eq_refl He Hk)
      as (Hr & _ & _).
    subst r. rewrite Hr. simpl. by destruct (HostNodeMap vdb !! k). }
  subst r. unfold nmaReadCatalogEditorOp.prepare in *. simpl in *.
  rewrite (ReadCatalogFacts.rangePaths_eq _ _ He) in *.
  match goal with |- context [nmaReadCatalogEditorOp.setupClusterHTTPRequest ?o keys] =>
    set (o1 := o) in * end.
  pose proof (readCatalog_setup_error o1 keys) as Herr.
  pose proof (ReadCatalogFacts.setup_frame o1 keys) as (_ & Hh & _ & _).
  destruct (nmaReadCatalogEditorOp.setupClusterHTTPRequest o1 keys) as [op' e'] eqn:Hs.
  simpl in *. split_and!.
  - apply Herr. apply Forall_forall. intros h Hin. rewrite lookup_fmap.
    rewrite Hk in Hin. apply list_elem_of_fmap in Hin as ([h' n] & -> & Hin).
    apply elem_of_map_to_list in Hin. simpl. rewrite Hin. by eexists.
  - done.
  - done.
  - apply map_eq. intros k. rewrite Hreq, lookup_fmap. done.
Qed.

Lemma readCatalog_prepare_requests_every_node_witness :
  let r := nmaReadCatalogEditorOp.prepare
             (nmaReadCatalogEditorOp.makeNMAReadCatalogEditorOp sampleVDB) freshContext
             (map_to_list (HostNodeMap sampleVDB)).*1 (map_to_list (HostNodeMap sampleVDB)) in
  r.2 = None
  ∧ r.1.2 = dispatcher_setup (map_to_list (HostNodeMap sampleVDB)).*1 freshContext
  ∧ hosts (nmaReadCatalogEditorOp.base r.1.1) = (map_to_list (HostNodeMap sampleVDB)).*1
  ∧ requests (nmaReadCatalogEditorOp.base r.1.1)
    = (λ n, mkRequest GetMethod (Some (nodeMgmt, "catalog/database"))
              {[ "catalog_path" := CatalogPath n ]} "" 0 "" None)
      <$> HostNodeMap sampleVDB.
Proof.
  apply (readCatalog_prepare_requests_every_node sampleVDB freshContext
           (map_to_list (HostNodeMap sampleVDB)).*1 (map_to_list (HostNodeMap sampleVDB))).
  - unfold rangeOrder. reflexivity.
  - reflexivity.
Defined.

(** X6: with initiators, [prepare] of the read-catalog operation succeeds
    exactly when every initiator is a host of [vdb.HostNodeMap]; it then
    targets the initiators and builds a request for each of them and for
    no other host; when an initiator is unknown it returns an error
    without registering hosts with the dispatcher and without building a
    request. *)
Theorem readCatalog_prepare_with_initiators :
  ∀ vdb init ctx keys entries,
    init ≠ [] →
    let r := nmaReadCatalogEditorOp.prepare
               (nmaReadCatalogEditorOp.makeNMAReadCatalogEditorOpWithInitiator init vdb)
               ctx keys entries in
    (r.2 = None ↔ Forall (λ h, is_Some (HostNodeMap vdb !! h)) init)
    ∧ (r.2 = None →
       r.1.2 = dispatcher_setup init ctx
       ∧ hosts (nmaReadCatalogEditorOp.base r.1.1) = init
       ∧ ∀ k, requests (nmaReadCatalogEditorOp.base r.1.1) !! k
              = if decide (k ∈ init)
                then (λ n, nmaReadCatalogEditorOp.catalogRequest (CatalogPath n))
                       <$> HostNodeMap vdb !! k
                else None)
    ∧ (r.2 ≠ None →
       r.1.2 = ctx ∧ requests (nmaReadCatalogEditorOp.base r.1.1) = ∅).
Proof.
  intros vdb init ctx keys entries Hne r.
  pose proof (initiatorPaths_ok (HostNodeMap vdb) ∅ init) as Hok.
  pose proof (λ k, initiatorPaths_lookup (HostNodeMap vdb) ∅ init k) as Hlk.
  subst r. unfold nmaReadCatalogEditorOp.prepare,
    nmaReadCatalogEditorOp.makeNMAReadCatalogEditorOpWithInitiator.
  cbn [nmaReadCatalogEditorOp.setCatalogPathMap nmaReadCatalogEditorOp.initiator
       nmaReadCatalogEditorOp.base nmaReadCatalogEditorOp.vdb].
  assert (Hlen : (length init =? 0)%nat = false) by (by destruct init).
  rewrite Hlen.
  match goal with |- context [nmaReadCatalogEditorOp.initiatorLoop ?o init] =>
    set (o0 := o) end.
  pose proof (ReadCatalogFacts.initiatorLoop_spec o0 init) as Hl. cbv zeta in Hl.
  destruct (nmaReadCatalogEditorOp.initiatorLoop o0 init) as [o1 e1] eqn:Hloop.
  cbn [fst snd] in Hl. subst o0.
  unfold nmaReadCatalogEditorOp.setCatalogPathMap in Hl.
  cbn [nmaReadCatalogEditorOp.base nmaReadCatalogEditorOp.vdb
       nmaReadCatalogEditorOp.catalogPathMap hosts app] in Hl.
  destruct Hl as (Hrq & Hvdb & Hini & Hcpm & Hiff & Hhosts).
  destruct e1 as [e1|].
  - cbn [fst snd].
    assert (HP : (nmaReadCatalogEditorOp.initiatorPaths (HostNodeMap vdb) ∅ init).2 ≠ None).
    { intros HP. apply Hiff in HP. discriminate HP. }
    split_and!.
    + split; [intros Hn; discriminate Hn|]. intros Hall. by apply Hok in Hall.
    + intros Hn; discriminate Hn.
    + intros _. split; [done|]. rewrite Hrq. done.
  - specialize (Hhosts eq_refl).
    pose proof (proj1 Hiff eq_refl) as HP.
    pose proof (readCatalog_setup_error o1 (hosts (nmaReadCatalogEditorOp.base o1))) as Herr.
    pose proof (ReadCatalogFacts.setup_frame o1 (hosts (nmaReadCatalogEditorOp.base o1)))
      as (_ & Hh & _ & _).
    pose proof (λ k, ReadCatalogFacts.setup_requests o1
                       (hosts (nmaReadCatalogEditorOp.base o1)) k) as Hreq.
    destruct (nmaReadCatalogEditorOp.setupClusterHTTPRequest o1
                (hosts (nmaReadCatalogEditorOp.base o1))) as [op' e'] eqn:Hs.
    cbn [fst snd] in *. rewrite Hhosts in *.
    assert (Hfound : Forall (λ h, is_Some (nmaReadCatalogEditorOp.catalogPathMap o1 !! h)) init).
    { rewrite Hcpm. apply Forall_forall. intros h Hin. rewrite (Hlk h HP).
      rewrite decide_True by done. apply Hok in HP. rewrite Forall_forall in HP.
      destruct (HP h Hin) as [n ->]. by eexists. }
    assert (He' : e' = None) by (by apply Herr).
    subst e'. split_and!.
    + split; [intros _; by apply Hok|done].
    + intros _. split_and!; [done|done|].
      intros k. rewrite (Hreq k).
      rewrite (ReadCatalogFacts.foundPrefix_all _ _ Hfound).
      destruct (decide (k ∈ init)); [|by rewrite Hrq].
      rewrite Hcpm, (Hlk k HP), decide_True by done.
      by destruct (HostNodeMap vdb !! k).
    + done.
Qed.

Lemma readCatalog_prepare_with_initiators_witness :
  let r := nmaReadCatalogEditorOp.prepare
             (nmaReadCatalogEditorOp.makeNMAReadCatalogEditorOpWithInitiator
                ["192.168.1.102"] sampleVDB)
             freshContext [] [] in
  r.2 = None ↔ Forall (λ h, is_Some (HostNodeMap sampleVDB !! h)) ["192.168.1.102"].
Proof.
  refine (proj1 (readCatalog_prepare_with_initiators sampleVDB ["192.168.1.102"]
                   freshContext [] [] _)).
  discriminate.
Defined.

(** ** AdapterPool.sendRequest: fail-fast, and whose answer is stored *)

Lemma collect_error_iff pool order :
  (∃ ars, AdapterPool.collect pool order = inr ars)
  ↔ Forall (λ e, is_Some (AdapterPool.connections pool !! e.1)) order.
Proof.
  induction order as [|[h rq] order IH]; simpl.
  - split; [done|]. by eexists.
  - rewrite Forall_cons. simpl.
    destruct (AdapterPool.connections pool !! h) as [a|] eqn:Ha.
    + destruct (AdapterPool.collect pool order) as [e|ars'] eqn:Hc.
      * split; [by intros [? ?]|]. intros [_ Hall]. apply IH in Hall as [? ?]. done.
      * split; [|by eexists]. intros _. split; [by eexists|]. apply IH. by eexists.
    + split; [by intros [? ?]|]. by intros [[? ?] _].
Qed.

Lemma collect_error_names_missing_host pool order e :
  AdapterPool.collect pool order = inl e →
  ∃ h, h ∈ order.*1 ∧ AdapterPool.connections pool !! h = None
       ∧ e = errorString ("host " +:+ h +:+ " is not found in the adapter pool").
Proof.
  induction order as [|[h rq] order IH]; simpl; [done|].
  destruct (AdapterPool.connections pool !! h) as [a|] eqn:Ha.
  - destruct (AdapterPool.collect pool order) as [e'|ars'] eqn:Hc; [|done].
    intros [= <-]. destruct (IH eq_refl) as (h' & Hin & Hn & He).
    exists h'. split_and!; [by right|done|done].
  - intros [= <-]. exists h. split_and!; [by left|done|done].
Qed.

Lemma collect_elem pool order ars r :
  AdapterPool.collect pool order = inr ars →
  r ∈ AdapterPool.responses ars
  ↔ ∃ h rq a, (h, rq) ∈ order ∧ AdapterPool.connections pool !! h = Some a ∧ r = a rq.
Proof.
  revert ars. induction order as [|[h rq] order IH]; intros ars; simpl.
  - intros [= <-]. split; [by intros ?%elem_of_nil|].
    by intros (? & ? & ? & ?%elem_of_nil & _).
  - destruct (AdapterPool.connections pool !! h) as [a|] eqn:Ha; [|done].
    destruct (AdapterPool.collect pool order) as [e|ars'] eqn:Hc; [done|].
    intros [= <-]. unfold AdapterPool.responses in *. rewrite fmap_cons, elem_of_cons.
    rewrite (IH ars' eq_refl). simpl. split.
    + intros [->|(h' & rq' & a' & Hin & Ha' & ->)].
      * exists h, rq, a. split_and!; [by left|done|done].
      * exists h', rq', a'. split_and!; [by right|done|done].
    + intros (h' & rq' & a' & [[= -> ->]|Hin]%elem_of_cons & Ha' & ->).
      * left. pose proof (eq_trans (eq_sym Ha) Ha') as [= ->]. done.
      * right. by exists h', rq', a'.
Qed.

Lemma gather_lookup received h r :
  NoDup (host <$> received) →
  AdapterPool.gather received !! h = Some r ↔ r ∈ received ∧ host r = h.
Proof.
  unfold AdapterPool.gather. revert r.
  induction received as [|x received IH] using rev_ind; intros r Hnd.
  - simpl. rewrite lookup_empty. split; [done|]. by intros [?%elem_of_nil _].
  - rewrite fmap_app in Hnd. apply NoDup_app in Hnd as (Hnd & Hdisj & _).
    rewrite foldl_snoc, elem_of_app, list_elem_of_singleton.
    destruct (decide (host x = h)) as [<-|Hne].
    + rewrite lookup_insert_eq. split.
      * intros [= <-]. by split; [right|].
      * intros [[Hin| ->] Hh]; [|done]. exfalso.
        apply (Hdisj (host x)); [|simpl; left].
        apply list_elem_of_fmap. by exists r.
    + rewrite lookup_insert_ne by done. rewrite (IH r Hnd). split.
      * intros [? ?]. split; [by left|done].
      * intros [[Hin| ->] Hh]; [done|congruence].
Qed.

(** X7: [sendRequest] returns nil exactly when every host of the request
    collection has an adapter in the pool.  Otherwise it returns before
    any request is sent: the cluster request, its result collection
    included, is left as it was, and the error names a requested host
    that the pool does not hold. *)
Theorem sendRequest_fails_on_host_outside_pool :
  ∀ pool clusterHTTPRequest order received,
    rangeOrder (RequestCollection clusterHTTPRequest) order →
    let r := AdapterPool.sendRequest pool clusterHTTPRequest order received in
    (r.2 = None
     ↔ ∀ h, is_Some (RequestCollection clusterHTTPRequest !! h) →
            is_Some (AdapterPool.connections pool !! h))
    ∧ (r.2 ≠ None →
       r.1 = clusterHTTPRequest
       ∧ ∃ h, is_Some (RequestCollection clusterHTTPRequest !! h)
              ∧ AdapterPool.connections pool !! h = None
              ∧ r.2 = Some (errorString
                              ("host " +:+ h +:+ " is not found in the adapter pool"))).
Proof.
  intros pool req order received Ho r. subst r. unfold AdapterPool.sendRequest.
  pose proof (collect_error_iff pool order) as Hiff.
  pose proof (collect_error_names_missing_host pool order) as Hname.
  assert (Hmem : ∀ h, h ∈ order.*1 ↔ is_Some (RequestCollection req !! h)).
  { intros h. unfold rangeOrder in Ho. rewrite Ho, list_elem_of_fmap. split.
    - intros ([h' rq] & -> & Hin%elem_of_map_to_list). by eexists.
    - intros [rq Hrq]. exists (h, rq). split; [done|]. by apply elem_of_map_to_list. }
  destruct (AdapterPool.collect pool order) as [e|ars] eqn:Hc; simpl.
  - split.
    + split; [intros Hn; discriminate Hn|]. intros Hall. exfalso.
      destruct (proj2 Hiff) as [? Hd]; [|discriminate Hd].
      apply Forall_forall. intros [h rq] Hin. apply Hall, Hmem.
      apply list_elem_of_fmap. by exists (h, rq).
    + intros _. split; [done|].
      destruct (Hname e eq_refl) as (h & Hin & Hn & ->).
      exists h. split_and!; [by apply Hmem|done|done].
  - split; [|done]. split; [|done]. intros _ h Hh.
    pose proof (proj1 Hiff (ex_intro _ ars eq_refl)) as Hall.
    rewrite Forall_forall in Hall. apply Hmem in Hh.
    apply list_elem_of_fmap in Hh as ([h' rq] & -> & Hin). by apply (Hall (h', rq)).
Qed.

Lemma sendRequest_fails_on_host_outside_pool_witness :
  let r := AdapterPool.sendRequest samplePool (mkClusterRequest "op" sampleRequests ∅)
             (map_to_list sampleRequests) [] in
  r.2 = None
  ↔ ∀ h, is_Some (sampleRequests !! h) → is_Some (AdapterPool.connections samplePool !! h).
Proof.
  refine (proj1 (sendRequest_fails_on_host_outside_pool samplePool
                   (mkClusterRequest "op" sampleRequests ∅)
                   (map_to_list sampleRequests) [] _)).
  unfold rangeOrder. reflexivity.
Defined.

(** X8: when [sendRequest] returns nil over a pool whose adapters answer
    under the host they are registered for, the result stored for each
    requested host is the answer of that host's adapter to that host's
    request, whatever the order in which the results arrive, and no other
    host has a result. *)
Theorem sendRequest_stores_each_adapters_answer :
  ∀ pool clusterHTTPRequest order received out,
    AdapterPool.keyed pool →
    rangeOrder (RequestCollection clusterHTTPRequest) order →
    AdapterPool.arrival pool order received →
    AdapterPool.sendRequest pool clusterHTTPRequest order received = (out, None) →
    RequestName out = RequestName clusterHTTPRequest
    ∧ RequestCollection out = RequestCollection clusterHTTPRequest
    ∧ (∀ h rq, RequestCollection clusterHTTPRequest !! h = Some rq →
               ∃ a, AdapterPool.connections pool !! h = Some a
                    ∧ ResultCollection out !! h = Some (a rq))
    ∧ (∀ h, RequestCollection clusterHTTPRequest !! h = None →
            ResultCollection out !! h = None).
Proof.
  intros pool req order received out Hk Ho Ha. unfold AdapterPool.sendRequest.
  destruct (AdapterPool.collect pool order) as [e|ars] eqn:Hc; [done|].
  intros [= <-]. simpl. specialize (Ha ars Hc).
  assert (Hnd : NoDup (host <$> received)).
  { rewrite Ha, (AdapterPoolFacts.collect_hosts _ _ _ Hk Hc).
    unfold rangeOrder in Ho. rewrite Ho. apply NoDup_fst_map_to_list. }
  assert (Hlk : ∀ h r, AdapterPool.gather received !! h = Some r
                ↔ ∃ rq a, RequestCollection req !! h = Some rq
                          ∧ AdapterPool.connections pool !! h = Some a ∧ r = a rq).
  { intros h r. rewrite (gather_lookup _ _ _ Hnd), Ha, (collect_elem _ _ _ _ Hc). split.
    - intros ((h' & rq & a & Hin & Hconn & ->) & Hh).
      rewrite (Hk _ _ _ Hconn) in Hh. subst h'. exists rq, a. split_and!; [|done|done].
      apply elem_of_map_to_list. unfold rangeOrder in Ho. by rewrite <- Ho.
    - intros (rq & a & Hrq & Hconn & ->). split; [|by apply (Hk _ _ _ Hconn)].
      exists h, rq, a. split_and!; [|done|done].
      unfold rangeOrder in Ho. rewrite Ho. by apply elem_of_map_to_list. }
  split_and!; [done|done| |].
  - intros h rq Hrq.
    pose proof (proj1 (collect_error_iff pool order) (ex_intro _ ars Hc)) as HF.
    assert (Hin : (h, rq) ∈ order)
      by (unfold rangeOrder in Ho; rewrite Ho; by apply elem_of_map_to_list).
    rewrite Forall_forall in HF. destruct (HF _ Hin) as [a Hconn]. simpl in Hconn.
    exists a. split; [done|]. apply Hlk. by exists rq, a.
  - intros h Hn. destruct (AdapterPool.gather received !! h) as [r|] eqn:Hg; [|done].
    apply Hlk in Hg as (rq & a & Hrq & _). congruence.
Qed.

Lemma sendRequest_stores_each_adapters_answer_witness :
  let out :=
    (AdapterPool.sendRequest samplePool (mkClusterRequest "op" sampleRequests ∅)
       [("A", setRequestData "ping A" emptyRequest); ("B", setRequestData "ping B" emptyRequest)]
       [echoAdapter "B" (setRequestData "ping B" emptyRequest);
        echoAdapter "A" (setRequestData "ping A" emptyRequest)]).1 in
  RequestName out = "op"
  ∧ RequestCollection out = sampleRequests
  ∧ (∀ h rq, sampleRequests !! h = Some rq →
             ∃ a, AdapterPool.connections samplePool !! h = Some a
                  ∧ ResultCollection out !! h = Some (a rq))
  ∧ (∀ h, sampleRequests !! h = None → ResultCollection out !! h = None).
Proof.
  apply (sendRequest_stores_each_adapters_answer samplePool
           (mkClusterRequest "op" sampleRequests ∅)
           [("A", setRequestData "ping A" emptyRequest);
            ("B", setRequestData "ping B" emptyRequest)]
           [echoAdapter "B" (setRequestData "ping B" emptyRequest);
            echoAdapter "A" (setRequestData "ping A" emptyRequest)]).
  - intros h a rq. unfold samplePool. simpl.
    destruct (decide (h = "A")) as [->|HA].
    + rewrite lookup_insert_eq. by intros [= <-].
    + rewrite lookup_insert_ne by done.
      destruct (decide (h = "B")) as [->|HB].
      * rewrite lookup_singleton_eq. by intros [= <-].
      * by rewrite lookup_singleton_ne.
  - unfold rangeOrder, sampleRequests. simpl.
    rewrite map_to_list_insert by done. by rewrite map_to_list_singleton.
  - intros ars. vm_compute. intros [= <-]. apply perm_swap.
  - reflexivity.
Defined.

(** ** httpsStartReplicationOp: the host it asks, and when it accepts *)

Lemma startReplication_processLoop_nil parse op allErrs logged order :
  Forall (λ e, isUnauthorizedRequest e.2 = false) order →
  (httpsStartReplicationOp.processLoop parse op allErrs logged order).2 = logged ++ order.*1
  ∧ ((httpsStartReplicationOp.processLoop parse op allErrs logged order).1 = None
     ↔ allErrs = None
       ∧ Forall (λ e, if isPassing e.2
                      then ∃ m, parse e.1 (content e.2) = inr m
                                ∧ m !! "detail" = Some "REPLICATE"
                      else err e.2 = None) order).
Proof.
  intros Hpre. revert allErrs logged.
  induction Hpre as [|[h r] order Hr _ IH]; intros allErrs logged.
  - simpl. rewrite app_nil_r. split; [done|]. split; [by intros ->|by intros [-> _]].
  - rewrite fmap_cons, Forall_cons.
    cbn [httpsStartReplicationOp.processLoop fst snd] in *. rewrite Hr.
    replace (logged ++ h :: order.*1) with ((logged ++ [h]) ++ order.*1)
      by (by rewrite <- (assoc_L (++))).
    destruct (isPassing r); cbn [negb].
    + destruct (parse h (content r)) as [e|m] eqn:Hp.
      * destruct (IH (errors_Join [allErrs; Some (Errorf_w
                       ("[" +:+ name (httpsStartReplicationOp.base op)
                          +:+ "] fail to parse result on host " +:+ h +:+ ", details: ") e)])
                     (logged ++ [h])) as [-> ->].
        split; [done|]. rewrite ReadCatalogFacts.errors_Join_nil. split.
        -- intros [[_ Hn] _]. discriminate Hn.
        -- intros [_ [(m & Hm & _) _]]. discriminate Hm.
      * destruct (decide (default "" (m !! "detail")
                          ≠ httpsStartReplicationOp.startReplicationOpSuccMsg)) as [Hd|Hd].
        -- match goal with |- context [httpsStartReplicationOp.processLoop parse op ?a ?l order] =>
             destruct (IH a l) as [-> ->] end.
           split; [done|]. rewrite ReadCatalogFacts.errors_Join_nil. split.
           ++ intros [[_ Hn] _]. discriminate Hn.
           ++ intros [_ [(m' & [= <-] & Hm') _]]. rewrite Hm' in Hd. by destruct Hd.
        -- destruct (IH allErrs (logged ++ [h])) as [-> ->]. split; [done|].
           apply dec_stable in Hd. split.
           ++ intros [-> Hall]. split_and!; [done| |done]. exists m. split; [done|].
              destruct (m !! "detail") as [d|]; [|discriminate Hd]. simpl in Hd. by subst d.
           ++ intros [-> [_ Hall]]. done.
    + destruct (IH (errors_Join [allErrs; err r]) (logged ++ [h])) as [-> ->].
      split; [done|]. rewrite ReadCatalogFacts.errors_Join_nil. tauto.
Qed.

(** X9: when no result is unauthorized, [processResult] of the
    start-replication operation inspects every result, and returns nil
    exactly when every passing result decodes to a map whose "detail" is
    "REPLICATE" and every other result carries a nil error. *)
Theorem start_replication_accepts_iff_every_host_replicates :
  ∀ (parseAndCheckMapResponse : string → string → goError + gmap string string) op order,
    Forall (λ e, isUnauthorizedRequest e.2 = false) order →
    let r := httpsStartReplicationOp.processResult parseAndCheckMapResponse op order in
    r.2 = order.*1
    ∧ (r.1 = None
       ↔ Forall (λ e, if isPassing e.2
                      then ∃ m, parseAndCheckMapResponse e.1 (content e.2) = inr m
                                ∧ m !! "detail" = Some "REPLICATE"
                      else err e.2 = None) order).
Proof.
  intros parse op order Hpre r. subst r. unfold httpsStartReplicationOp.processResult.
  destruct (startReplication_processLoop_nil parse op None [] order Hpre) as [-> ->].
  split; [done|]. split; [by intros [_ ?]|done].
Qed.

Lemma start_replication_accepts_iff_every_host_replicates_witness :
  let r := httpsStartReplicationOp.processResult (λ _ _, inr ∅) replicationOp
             [("A", failedResult "A")] in
  r.2 = ["A"]
  ∧ (r.1 = None
     ↔ Forall (λ e : string * hostHTTPResult,
                 if isPassing e.2
                 then ∃ m : gmap string string,
                        (inr ∅ : goError + gmap string string) = inr m
                        ∧ m !! "detail" = Some "REPLICATE"
                 else err e.2 = None) [("A", failedResult "A")]).
Proof.
  apply (start_replication_accepts_iff_every_host_replicates (λ _ _, inr ∅) replicationOp
           [("A", failedResult "A")]).
  repeat constructor.
Defined.

(** X10: [prepare] of the start-replication operation asks exactly one
    host, one of the operation's hosts that is the address of a node of
    the context that is not down and is in the operation's sandbox; it
    posts the marshalled target description to replicate/start on that
    host and leaves the other requests as they were.  When no host
    qualifies it returns an error and changes nothing; when the body
    cannot be marshalled it returns the wrapped error, and neither the
    dispatcher nor the request collection is touched. *)
Theorem start_replication_prepare_asks_one_up_host :
  ∀ (json_Marshal : httpsStartReplicationOp.replicateRequestData → goError + string)
    (SliceCommon : list string → list string → list string) op ctx,
    httpsStartReplicationOp.SliceCommon_spec SliceCommon →
    let r := httpsStartReplicationOp.prepare json_Marshal SliceCommon op ctx in
    let eligible := λ h,
      h ∈ hosts (httpsStartReplicationOp.base op)
      ∧ ∃ node, node ∈ nodesInfo ctx ∧ State node ≠ NodeDownState
                ∧ Sandbox node = httpsStartReplicationOp.sandbox op ∧ Address node = h in
    let data := httpsStartReplicationOp.mkReplicateData
                  (httpsStartReplicationOp.targetHosts op)
                  (httpsStartReplicationOp.targetDB op)
                  (httpsStartReplicationOp.targetUserName op)
                  (httpsStartReplicationOp.targetPassword op)
                  (httpsStartReplicationOp.tlsConfig op) in
    ((∀ h, ¬ eligible h) → r.1 = (op, ctx) ∧ r.2 ≠ None)
    ∧ (∀ body, (∃ h, eligible h) → json_Marshal data = inr body →
         ∃ h, eligible h ∧ r.2 = None
              ∧ hosts (httpsStartReplicationOp.base r.1.1) = [h]
              ∧ r.1.2 = dispatcher_setup [h] ctx
              ∧ httpsStartReplicationOp.hostRequestBodyMap r.1.1 = {[ h := body ]}
              ∧ requests (httpsStartReplicationOp.base r.1.1)
                = <[ h := mkRequest PostMethod (Some (dbHTTPS, "replicate/start")) ∅ body 0
                             (if httpsStartReplicationOp.useHTTPPassword op
                              then httpsStartReplicationOp.userName op else "")
                             (if httpsStartReplicationOp.useHTTPPassword op
                              then httpsStartReplicationOp.httpsPassword op else None) ]>
                    (requests (httpsStartReplicationOp.base op)))
    ∧ (∀ e, (∃ h, eligible h) → json_Marshal data = inl e →
         r.2 = Some (Errorf_w ("[" +:+ name (httpsStartReplicationOp.base op)
                                 +:+ "] fail to marshal request data to JSON string, detail ") e)
         ∧ r.1.2 = ctx
         ∧ requests (httpsStartReplicationOp.base r.1.1)
           = requests (httpsStartReplicationOp.base op)).
Proof.
  intros json_Marshal SliceCommon op ctx Hspec r eligible data.
  set (src := Address <$> filter (λ node, State node ≠ NodeDownState
                ∧ Sandbox node = httpsStartReplicationOp.sandbox op) (nodesInfo ctx)).
  assert (Hel : ∀ h, h ∈ SliceCommon (hosts (httpsStartReplicationOp.base op)) src
                     ↔ eligible h).
  { intros h. rewrite (Hspec _ _ h). subst eligible src. cbv beta.
    rewrite list_elem_of_fmap. split.
    - intros [Hh (node & -> & Hin)]. split; [done|]. exists node.
      apply list_elem_of_filter in Hin as [[? ?] ?]. done.
    - intros [Hh (node & Hin & Hs & Hb & <-)]. split; [done|]. exists node.
      split; [done|]. apply list_elem_of_filter. done. }
  subst r. unfold httpsStartReplicationOp.prepare. fold src.
  destruct (length (nodesInfo ctx) =? 0)%nat eqn:Hlen.
  { assert (Hnil : nodesInfo ctx = [])
      by (apply Nat.eqb_eq in Hlen; by destruct (nodesInfo ctx)).
    assert (Hno : ∀ h, ¬ eligible h).
    { intros h [_ (node & Hin & _)]. rewrite Hnil in Hin. by apply elem_of_nil in Hin. }
    cbn [fst snd]. split_and!.
    - done.
    - intros body [h Hh]. by destruct (Hno h).
    - intros e [h Hh]. by destruct (Hno h). }
  destruct (SliceCommon (hosts (httpsStartReplicationOp.base op)) src) as [|h0 tl] eqn:Hsc.
  { assert (Hno : ∀ h, ¬ eligible h).
    { intros h Hh. apply Hel in Hh. by apply elem_of_nil in Hh. }
    split_and!.
    - intros _. destruct (decide (httpsStartReplicationOp.sandbox op = "")); done.
    - intros body [h Hh]. by destruct (Hno h).
    - intros e [h Hh]. by destruct (Hno h). }
  assert (H0 : eligible h0) by (apply Hel; left).
  unfold httpsStartReplicationOp.setupRequestBody.
  cbn [httpsStartReplicationOp.setBase httpsStartReplicationOp.setBodyMap setHosts
       httpsStartReplicationOp.base hosts httpsStartReplicationOp.setupRequestBody_loop
       httpsStartReplicationOp.targetHosts httpsStartReplicationOp.targetDB
       httpsStartReplicationOp.targetUserName httpsStartReplicationOp.targetPassword
       httpsStartReplicationOp.tlsConfig httpsStartReplicationOp.hostRequestBodyMap
       name].
  fold data. destruct (json_Marshal data) as [e|body] eqn:Hm.
  - cbn [fst snd]. split_and!.
    + intros Hno. by destruct (Hno h0).
    + intros body _ Hb. discriminate Hb.
    + intros e' _ [= <-]. done.
  - split_and!.
    + intros Hno. by destruct (Hno h0).
    + intros body' _ [= <-]. exists h0. split; [done|].
      simpl. split_and!; [done|done|done|by rewrite insert_empty|].
      unfold httpsStartReplicationOp.replicationRequest, requests. simpl.
      rewrite lookup_insert_eq. simpl.
      by destruct (httpsStartReplicationOp.useHTTPPassword op).
    + intros e' _ He. discriminate He.
Qed.

Lemma start_replication_prepare_asks_one_up_host_witness :
  let r := httpsStartReplicationOp.prepare marshalReplicate sliceCommon
             replicationOp freshContext in
  r.1 = (replicationOp, freshContext) ∧ r.2 ≠ None.
Proof.
  refine (proj1 (start_replication_prepare_asks_one_up_host
                   marshalReplicate sliceCommon replicationOp freshContext _) _).
  - intros a b x. unfold sliceCommon. rewrite list_elem_of_filter. tauto.
  - intros h [_ (node & Hin & _)]. by apply elem_of_nil in Hin.
Defined.

(** ** makeNMALoadRemoteCatalogOp: the primary nodes it counts *)

Lemma count_primaries_fold vdb order c0 :
  (∀ kv, kv ∈ order → HostNodeMap vdb !! kv.1 = Some kv.2) →
  foldl (λ count kv, if NMALoadRemoteCatalogOp.isPrimaryHost vdb kv.1 then S count else count)
    c0 order
  = (c0 + length (filter (λ kv : string * VCoordinationNode, IsPrimary kv.2 = true) order))%nat.
Proof.
  induction order as [|kv order IH] using rev_ind; intros Hin.
  - simpl. lia.
  - rewrite foldl_snoc, filter_app, length_app, IH
      by (intros kv' Hkv'; apply Hin, elem_of_app; by left).
    unfold NMALoadRemoteCatalogOp.isPrimaryHost.
    rewrite (Hin kv) by (apply elem_of_app; right; left). simpl.
    destruct (IsPrimary kv.2) eqn:Hp.
    + rewrite (filter_cons_True _ kv []) by done. simpl. lia.
    + rewrite (filter_cons_False _ kv []) by (by rewrite Hp). simpl. lia.
Qed.

Lemma count_primary_nodes (l : list (string * VCoordinationNode)) :
  length (filter (λ n, IsPrimary n = true) l.*2)
  = length (filter (λ kv : string * VCoordinationNode, IsPrimary kv.2 = true) l).
Proof.
  induction l as [|kv l IH]; [done|]. rewrite fmap_cons.
  destruct (IsPrimary kv.2) eqn:Hp.
  - rewrite !filter_cons_True by done. simpl. by rewrite IH.
  - rewrite !filter_cons_False by (by rewrite Hp). done.
Qed.

(** X11: the operation [makeNMALoadRemoteCatalogOp] builds counts the
    primary nodes of [vdb.HostNodeMap], whatever the order in which the
    map is visited, and keeps the hosts it is given; its [processResult]
    then returns nil exactly when more than half of these primary nodes
    returned a passing response decoding with status code 0. *)
Theorem load_catalog_op_counts_primaries_of_vdb :
  ∀ newHosts oldHosts dbName communalLocation communalStorageParameters vdb timeout order,
    rangeOrder (HostNodeMap vdb) order →
    let op := NMALoadRemoteCatalogOp.makeNMALoadRemoteCatalogOp newHosts oldHosts dbName
                communalLocation communalStorageParameters vdb timeout order in
    let primaries :=
      length (filter (λ n, IsPrimary n = true) (map_to_list (HostNodeMap vdb)).*2) in
    NMALoadRemoteCatalogOp.primaryNodeCount op = primaries
    ∧ hosts (NMALoadRemoteCatalogOp.base op) = newHosts
    ∧ NMALoadRemoteCatalogOp.oldHosts op = oldHosts
    ∧ requests (NMALoadRemoteCatalogOp.base op) = ∅
    ∧ (∀ appendHTTPSFailureError parse results,
         (∀ e, appendHTTPSFailureError (Some e) ≠ None) →
         NMALoadRemoteCatalogOp.processResult appendHTTPSFailureError parse op results = None
         ↔ (primaries < 2 * NMALoadRemoteCatalogOp.successCount parse op results)%nat).
Proof.
  intros newHosts oldHosts dbName loc params vdb timeout order Ho op primaries.
  assert (Hcount : NMALoadRemoteCatalogOp.primaryNodeCount op = primaries).
  { subst op primaries. cbn [NMALoadRemoteCatalogOp.makeNMALoadRemoteCatalogOp
                               NMALoadRemoteCatalogOp.primaryNodeCount].
    rewrite count_primaries_fold.
    - unfold rangeOrder in Ho. by rewrite Ho, count_primary_nodes.
    - intros [k v] Hin. unfold rangeOrder in Ho. rewrite Ho in Hin.
      by apply elem_of_map_to_list in Hin. }
  split_and!; [done..|].
  intros app parse results Happ. rewrite <- Hcount.
  unfold NMALoadRemoteCatalogOp.processResult.
  pose proof (LoadRemoteCatalogFacts.reduce_count parse op results) as Hc.
  destruct (NMALoadRemoteCatalogOp.reduce parse op results) as [allErrs n]. simpl in Hc.
  subst n. rewrite <- LoadRemoteCatalogFacts.hasQuorum_majority.
  destruct (NMALoadRemoteCatalogOp.hasQuorum _ _); simpl; [done|].
  split; [|intros Hf; discriminate Hf]. intros Hnil. exfalso.
  unfold errors_Join in Hnil. destruct allErrs; simpl in Hnil; by apply Happ in Hnil.
Qed.

Lemma load_catalog_op_counts_primaries_of_vdb_witness :
  NMALoadRemoteCatalogOp.primaryNodeCount
    (NMALoadRemoteCatalogOp.makeNMALoadRemoteCatalogOp ["10.1.10.1"; "10.1.10.2"]
       ["192.168.1.101"; "192.168.1.102"] "test_db" "s3://bucket/test_db" ∅ sampleVDB 3600
       (map_to_list (HostNodeMap sampleVDB)))
  = length (filter (λ n, IsPrimary n = true) (map_to_list (HostNodeMap sampleVDB)).*2).
Proof.
  refine (proj1 (load_catalog_op_counts_primaries_of_vdb ["10.1.10.1"; "10.1.10.2"]
                   ["192.168.1.101"; "192.168.1.102"] "test_db" "s3://bucket/test_db" ∅
                   sampleVDB 3600%nat (map_to_list (HostNodeMap sampleVDB)) _)).
  unfold rangeOrder. reflexivity.
Defined.

(** ** generateReviveVDB on any host list *)

Lemma assignHosts_any vNodes index hs (m : gmap string VCoordinationNode) old :
  (index + length hs ≤ length vNodes)%nat →
  ∃ m', ReviveDB.assignHosts vNodes index hs m old
        = Some (m', old ++ (Address <$> take (length hs) (drop index vNodes)))
        ∧ ∀ h, m' !! h
               = match last (filter (λ p : string * VCoordinationNode, p.1 = h)
                               (zip hs (drop index vNodes))) with
                 | Some p => Some (setAddress h p.2)
                 | None => m !! h
                 end.
Proof.
  revert vNodes index m old.
  induction hs as [|h rest IH]; intros vNodes index m old Hlen.
  - exists m. simpl. by rewrite app_nil_r.
  - simpl in Hlen.
    destruct (lookup_lt_is_Some_2 vNodes index) as [n Hn]; [lia|].
    cbn [ReviveDB.assignHosts]. rewrite Hn.
    rewrite list_lookup_insert_eq by lia.
    destruct (IH (<[index := setAddress h n]> vNodes) (S index)
                (<[h := setAddress h n]> m) (old ++ [Address n]))
      as (m' & Heq & Hlk); [rewrite length_insert; lia|].
    rewrite drop_insert_lt in Heq, Hlk by lia.
    exists m'. rewrite Heq. rewrite (drop_S _ _ _ Hn). split.
    + simpl. by rewrite <- app_assoc.
    + intros h'. rewrite (Hlk h'). cbn [zip zip_with length take fmap].
      destruct (decide (h = h')) as [->|Hne].
      * rewrite (filter_cons_True (λ p : string * VCoordinationNode, p.1 = h')) by done.
        rewrite last_cons. destruct (last _); [done|]. by rewrite lookup_insert_eq.
      * rewrite (filter_cons_False (λ p : string * VCoordinationNode, p.1 = h')) by done.
        destruct (last _); [done|]. by rewrite lookup_insert_ne.
Qed.

(** X12: [generateReviveVDB] panics exactly when the host list is longer
    than [vdb.HostNodeMap].  Otherwise, repeated hosts or not, the old
    hosts it returns are the addresses of the first nodes in the order of
    the names, one per new host; the new map holds exactly the hosts of
    the list, each with the node paired with its last occurrence; and all
    other fields of the new database, the primary node count included,
    are as [MakeVCoordinationDatabase] made them, not those of the old
    database. *)
Theorem generateReviveVDB_on_any_host_list :
  ∀ vdb vNodes hs,
    ReviveDB.sortedNodes vdb vNodes →
    (ReviveDB.generateReviveVDB vdb hs vNodes = None
     ↔ (size (HostNodeMap vdb) < length hs)%nat)
    ∧ ((length hs ≤ size (HostNodeMap vdb))%nat →
       ∃ m, ReviveDB.generateReviveVDB vdb hs vNodes
            = Some (ReviveDB.setHostNodeMap m
                      (ReviveDB.setHostList hs MakeVCoordinationDatabase),
                    Address <$> take (length hs) vNodes)
            ∧ (∀ h, is_Some (m !! h) ↔ h ∈ hs)
            ∧ (∀ h, m !! h = (λ p, setAddress h p.2)
                               <$> last (filter (λ p : string * VCoordinationNode, p.1 = h)
                                           (zip hs vNodes)))).
Proof.
  intros vdb vNodes hs Hs. pose proof (ReviveDBFacts.sortedNodes_length _ _ Hs) as Hlen.
  assert (Hsome : (length hs ≤ size (HostNodeMap vdb))%nat →
    ∃ m, ReviveDB.generateReviveVDB vdb hs vNodes
         = Some (ReviveDB.setHostNodeMap m
                      (ReviveDB.setHostList hs MakeVCoordinationDatabase),
                 Address <$> take (length hs) vNodes)
         ∧ (∀ h, is_Some (m !! h) ↔ h ∈ hs)
         ∧ (∀ h, m !! h = (λ p, setAddress h p.2)
                            <$> last (filter (λ p : string * VCoordinationNode, p.1 = h)
                                        (zip hs vNodes)))).
  { intros Hle. unfold ReviveDB.generateReviveVDB. simpl.
    destruct (assignHosts_any vNodes 0 hs ∅ [] ltac:(simpl; lia)) as (m & -> & Hlk).
    rewrite drop_0 in Hlk. simpl.
    assert (Hm : ∀ h, m !! h = (λ p, setAddress h p.2)
                   <$> last (filter (λ p : string * VCoordinationNode, p.1 = h)
                               (zip hs vNodes))).
    { intros h. rewrite (Hlk h). by destruct (last _). }
    exists m. split_and!; [done| |done].
    intros h. rewrite Hm, fmap_is_Some, last_is_Some.
    rewrite <- (fst_zip hs vNodes) at 2 by lia. rewrite list_elem_of_fmap. split.
    - intros Hne. destruct (filter _ _) as [|p l] eqn:Hf; [done|].
      assert (Hp : p ∈ filter (λ p : string * VCoordinationNode, p.1 = h) (zip hs vNodes))
        by (rewrite Hf; left).
      apply list_elem_of_filter in Hp as [Hp1 Hp2]. by exists p.
    - intros (p & -> & Hp) Hnil.
      assert (Hp' : p ∈ filter (λ q : string * VCoordinationNode, q.1 = p.1) (zip hs vNodes))
        by (by apply list_elem_of_filter).
      rewrite Hnil in Hp'. by apply elem_of_nil in Hp'. }
  split; [|done].
  destruct (decide (length hs ≤ size (HostNodeMap vdb))%nat) as [Hle|Hgt].
  - destruct (Hsome Hle) as (m & -> & _). split; [intros Hn; discriminate Hn|lia].
  - split; [lia|]. intros _. unfold ReviveDB.generateReviveVDB. simpl.
    rewrite ReviveDBFacts.assignHosts_panic; [done|lia|simpl; lia].
Qed.

Lemma generateReviveVDB_on_any_host_list_witness :
  ReviveDB.generateReviveVDB sampleVDB ["10.1.10.1"; "10.1.10.1"; "10.1.10.3"] sortedSample = None
  ↔ (size (HostNodeMap sampleVDB) < length ["10.1.10.1"; "10.1.10.1"; "10.1.10.3"])%nat.
Proof.
  refine (proj1 (generateReviveVDB_on_any_host_list sampleVDB sortedSample
                   ["10.1.10.1"; "10.1.10.1"; "10.1.10.3"] _)).
  split.
  - pose proof DownloadConfigFacts.orderAB_range as H. unfold rangeOrder in H.
    simpl. rewrite <- H. reflexivity.
  - repeat constructor.
Defined.

(** ** produceReviveDBInstructions2: the directories that are prepared *)

Lemma range_fold_insert {A B : Type} (f : A → B) (m : gmap string A)
    (order : list (string * A)) :
  rangeOrder m order →
  foldl (λ (acc : gmap string B) kv, <[kv.1 := f kv.2]> acc) ∅ order = f <$> m.
Proof.
  unfold rangeOrder. intros Hperm. apply map_eq. intros k. rewrite lookup_fmap.
  assert (Hnd : NoDup order.*1).
  { rewrite Hperm. apply NoDup_fst_map_to_list. }
  assert (Hin : ∀ v, (k, v) ∈ order ↔ m !! k = Some v).
  { intros v. rewrite Hperm. apply elem_of_map_to_list. }
  assert (Hgen : ∀ (l : list (string * A)) (acc : gmap string B), NoDup l.*1 →
     foldl (λ (acc : gmap string B) kv, <[kv.1 := f kv.2]> acc) acc l !! k =
       match list_find (λ kv, kv.1 = k) l with
       | Some (_, kv) => Some (f kv.2)
       | None => acc !! k
       end).
  { clear. induction l as [|[k' v'] l IH]; intros acc Hnd; simpl; [done|].
    apply NoDup_cons in Hnd as [Hk' Hnd]. rewrite IH by done.
    destruct (decide (k' = k)) as [->|Hne]; simpl.
    - destruct (list_find _ l) as [[i [k2 v2]]|] eqn:Hf; simpl.
      + apply list_find_Some in Hf as (Hl & Heq & _). simpl in Heq. subst k2.
        exfalso. apply Hk'. apply list_elem_of_fmap. exists (k, v2).
        split; [done|]. by eapply list_elem_of_lookup_2.
      + by rewrite lookup_insert_eq.
    - destruct (list_find _ l) as [[i [k2 v2]]|]; simpl; [done|].
      by rewrite lookup_insert_ne. }
  rewrite Hgen by done.
  destruct (list_find _ order) as [[i [k2 v2]]|] eqn:Hf.
  - apply list_find_Some in Hf as (Hl & Heq & _). simpl in Heq. subst k2.
    assert (Hv : (k, v2) ∈ order) by (by eapply list_elem_of_lookup_2).
    apply Hin in Hv. by rewrite Hv.
  - rewrite lookup_empty. destruct (m !! k) as [v|] eqn:Hk; [|done].
    pose proof (proj2 (Hin v) eq_refl) as Hk'. apply list_find_None in Hf.
    rewrite Forall_forall in Hf. by specialize (Hf _ Hk').
Qed.

(** X13: the map [produceReviveDBInstructions2] gives to the
    prepare-directories operation has the hosts of the new database,
    whatever the order in which its map is visited; each node is the node
    of the new database except for its storage locations, which are those
    that are not among its user storage locations, in their order. *)
Theorem revive_prepares_no_user_storage_location :
  ∀ (newVDB : VCoordinationDatabase) order,
    rangeOrder (HostNodeMap newVDB) order →
    ∀ h,
      match HostNodeMap newVDB !! h with
      | None => ReviveDBInstructions.hostNodeMap order !! h = None
      | Some old =>
          ∃ n, ReviveDBInstructions.hostNodeMap order !! h = Some n
               ∧ n = ReviveDBInstructions.setStorageLocations (StorageLocations n) old
               ∧ StorageLocations n
                 = filter (λ l, l ∉ UserStorageLocations old) (StorageLocations old)
               ∧ (∀ l, l ∈ StorageLocations n
                       ↔ l ∈ StorageLocations old ∧ l ∉ UserStorageLocations old)
      end.
Proof.
  intros newVDB order Ho h. unfold ReviveDBInstructions.hostNodeMap.
  rewrite (range_fold_insert ReviveDBInstructions.excludeUserLocations _ _ Ho), lookup_fmap.
  destruct (HostNodeMap newVDB !! h) as [old|]; [|done]. simpl.
  assert (Hf : StorageLocations (ReviveDBInstructions.excludeUserLocations old)
               = filter (λ l, l ∉ UserStorageLocations old) (StorageLocations old)).
  { unfold ReviveDBInstructions.excludeUserLocations. simpl.
    apply list_filter_iff. intros l. by rewrite elem_of_list_to_set. }
  eexists. split; [done|]. split_and!.
  - done.
  - done.
  - intros l. rewrite Hf, list_elem_of_filter. tauto.
Qed.

Lemma revive_prepares_no_user_storage_location_witness :
  match HostNodeMap sampleVDB !! "192.168.1.101" with
  | None => ReviveDBInstructions.hostNodeMap (map_to_list (HostNodeMap sampleVDB))
              !! "192.168.1.101" = None
  | Some old =>
      ∃ n, ReviveDBInstructions.hostNodeMap (map_to_list (HostNodeMap sampleVDB))
             !! "192.168.1.101" = Some n
           ∧ n = ReviveDBInstructions.setStorageLocations (StorageLocations n) old
           ∧ StorageLocations n
             = filter (λ l, l ∉ UserStorageLocations old) (StorageLocations old)
           ∧ (∀ l, l ∈ StorageLocations n
                   ↔ l ∈ StorageLocations old ∧ l ∉ UserStorageLocations old)
  end.
Proof.
  apply (revive_prepares_no_user_storage_location sampleVDB
           (map_to_list (HostNodeMap sampleVDB))).
  unfold rangeOrder. reflexivity.
Defined.

(** ** nmaDownloadConfigOp.processResult: the first passing result *)

Lemma downloadConfig_processLoop_failing app op allErrs order :
  Forall (λ e : string * hostHTTPResult, isPassing e.2 = false) order →
  ∃ allErrs', nmaDownloadConfigOp_processResult.processLoop app op allErrs order
              = (op, app allErrs')
              ∧ (allErrs' = None
                 ↔ allErrs = None ∧ Forall (λ e : string * hostHTTPResult, err e.2 = None) order)
              ∧ errorsOf allErrs'
                = errorsOf allErrs
                  ++ concat ((λ e : string * hostHTTPResult, errorsOf (err e.2)) <$> order).
Proof.
  intros Hall. revert allErrs.
  induction Hall as [|[h r] order Hr _ IH]; intros allErrs; simpl.
  - exists allErrs. split; [done|]. split; [|by rewrite app_nil_r].
    split; [by intros ->|by intros [-> _]].
  - simpl in Hr. rewrite Hr.
    destruct (IH (errors_Join [allErrs; err r])) as (a' & -> & Hiff & Herrs).
    exists a'. split; [done|]. split.
    + rewrite Hiff, ReadCatalogFacts.errors_Join_nil, Forall_cons. simpl. tauto.
    + by rewrite Herrs, errorsOf_Join, <- app_assoc.
Qed.

Lemma downloadConfig_processLoop_passing app op allErrs pre h r post :
  Forall (λ e : string * hostHTTPResult, isPassing e.2 = false) pre →
  isPassing r = true →
  nmaDownloadConfigOp_processResult.processLoop app op allErrs (pre ++ (h, r) :: post)
  = (nmaDownloadConfigOp_processResult.setFileContent (content r) op, None).
Proof.
  intros Hpre Hr. revert allErrs.
  induction Hpre as [|[h' r'] pre Hr' _ IH]; intros allErrs; simpl.
  - by rewrite Hr.
  - simpl in Hr'. rewrite Hr'. apply IH.
Qed.

(** X14: [processResult] of the download-config operation stops at the
    first passing result it visits: the file content becomes the content
    of that result and nil is returned, whatever errors came before and
    whatever results come after.  When no result passes (none at all
    included) the operation is unchanged and the outcome is what
    [appendHTTPSFailureError] makes of the joined errors: a join that
    holds the errors of the results, in the order of the visit, and
    nothing else, and that is nil only when every result carries a nil
    error. *)
Theorem download_config_keeps_first_passing_result :
  ∀ (appendHTTPSFailureError : error → error) op order,
    (∀ pre h r post,
       order = pre ++ (h, r) :: post →
       Forall (λ e : string * hostHTTPResult, isPassing e.2 = false) pre →
       isPassing r = true →
       nmaDownloadConfigOp_processResult.processResult appendHTTPSFailureError op order
       = (nmaDownloadConfigOp_processResult.setFileContent (content r) op, None))
    ∧ (Forall (λ e : string * hostHTTPResult, isPassing e.2 = false) order →
       ∃ allErrs,
         nmaDownloadConfigOp_processResult.processResult appendHTTPSFailureError op order
         = (op, appendHTTPSFailureError allErrs)
         ∧ (allErrs = None ↔ Forall (λ e : string * hostHTTPResult, err e.2 = None) order)
         ∧ errorsOf allErrs
           = concat ((λ e : string * hostHTTPResult, errorsOf (err e.2)) <$> order)).
Proof.
  intros app op order. unfold nmaDownloadConfigOp_processResult.processResult. split.
  - intros pre h r post -> Hpre Hr. by apply downloadConfig_processLoop_passing.
  - intros Hall.
    destruct (downloadConfig_processLoop_failing app op None order Hall)
      as (a & -> & Hiff & Herrs).
    exists a. split; [done|]. split; [rewrite Hiff; tauto|exact Herrs].
Qed.

(** ** getInitiator *)

Lemma getInitiator_loop_none IsLocalHost hs :
  Forall (λ x, IsLocalHost x = inr false) hs → CreateDB.initiatorLoop IsLocalHost hs = None.
Proof. induction 1 as [|x hs Hx _ IH]; simpl; [done|]. by rewrite Hx. Qed.

Lemma getInitiator_loop_app IsLocalHost pre rest :
  Forall (λ x, IsLocalHost x = inr false) pre →
  CreateDB.initiatorLoop IsLocalHost (pre ++ rest) = CreateDB.initiatorLoop IsLocalHost rest.
Proof. induction 1 as [|x hs Hx _ IH]; simpl; [done|]. by rewrite Hx. Qed.

(** X15: [getInitiator] panics exactly on the empty host list.  It
    returns the first host that [util.IsLocalHost] reports local when the
    hosts before it are reported not local; it returns the empty string
    and the wrapped error at the first host for which the test fails; and
    when no host is local it returns the first host of the list. *)
Theorem getInitiator_prefers_the_first_local_host :
  ∀ (IsLocalHost : string → goError + bool) hs,
    (CreateDB.getInitiator IsLocalHost hs = None ↔ hs = [])
    ∧ (∀ pre h post,
         hs = pre ++ h :: post →
         Forall (λ x, IsLocalHost x = inr false) pre →
         (IsLocalHost h = inr true →
          CreateDB.getInitiator IsLocalHost hs = Some (h, None))
         ∧ (∀ e, IsLocalHost h = inl e →
                 CreateDB.getInitiator IsLocalHost hs
                 = Some ("", Some (wrapError
                                     "fail to find initiator node from the host list, " e))))
    ∧ (∀ h rest,
         hs = h :: rest →
         Forall (λ x, IsLocalHost x = inr false) hs →
         CreateDB.getInitiator IsLocalHost hs = Some (h, None)).
Proof.
  intros IsLocalHost hs. unfold CreateDB.getInitiator. split_and!.
  - destruct hs as [|h rest]; [done|]. split; [|done].
    destruct (CreateDB.initiatorLoop IsLocalHost (h :: rest)); done.
  - intros pre h post -> Hpre. rewrite (getInitiator_loop_app _ _ _ Hpre). simpl. split.
    + by intros ->.
    + by intros e ->.
  - intros h rest -> Hall. by rewrite (getInitiator_loop_none _ _ Hall).
Qed.

(** ** httpsPollSubscriptionStateOp.shouldStopPolling *)

Lemma allActive_Forall l :
  httpsPollSubscriptionStateOp.allActive l = true
  ↔ Forall (λ s, httpsPollSubscriptionStateOp.SubscriptionState s = "ACTIVE") l.
Proof.
  induction l as [|s l IH]; simpl; [done|]. rewrite Forall_cons.
  destruct (decide (httpsPollSubscriptionStateOp.SubscriptionState s ≠ "ACTIVE")) as [Hne|He].
  - split; [done|]. by intros [? _].
  - apply dec_stable in He. rewrite IH. tauto.
Qed.

(** X16: [shouldStopPolling] looks at one result only, the first it
    visits that is a password or certificate error or is passing; results
    that are neither are skipped and later results are not inspected.  A
    password or certificate error stops the polling with an error that
    names the host; a passing result that fails to decode stops it with
    the decoder's error; a decoded passing result stops it exactly when
    every subscription it lists is ACTIVE.  With no such result (no result
    at all included) the polling goes on. *)
Theorem polling_is_decided_by_the_first_decisive_result :
  ∀ (isPasswordAndCertificateError : hostHTTPResult → bool)
    (parseAndCheckResponse : string → string
                             → goError + httpsPollSubscriptionStateOp.SubscriptionList)
    op order,
    let poll := httpsPollSubscriptionStateOp.shouldStopPolling
                  isPasswordAndCertificateError parseAndCheckResponse op in
    let skipped := λ e : string * hostHTTPResult,
      isPasswordAndCertificateError e.2 = false ∧ isPassing e.2 = false in
    (Forall skipped order → poll order = (false, None))
    ∧ (∀ pre h r post,
         order = pre ++ (h, r) :: post → Forall skipped pre →
         (isPasswordAndCertificateError r = true →
          poll order
          = (true, Some (errorString
                           ("[" +:+ name (httpsPollSubscriptionStateOp.base op)
                              +:+ "] wrong password/certificate for https service on host "
                              +:+ h))))
         ∧ (isPasswordAndCertificateError r = false → isPassing r = true →
            (∀ e, parseAndCheckResponse h (content r) = inl e → poll order = (true, Some e))
            ∧ (∀ l, parseAndCheckResponse h (content r) = inr l →
                    (poll order).2 = None
                    ∧ ((poll order).1 = true
                       ↔ Forall (λ s, httpsPollSubscriptionStateOp.SubscriptionState s = "ACTIVE")
                           (httpsPollSubscriptionStateOp.subscription_list l))))).
Proof.
  intros isPw parse op order poll skipped. subst poll.
  assert (Hskip : ∀ pre rest, Forall skipped pre →
            httpsPollSubscriptionStateOp.shouldStopPolling isPw parse op (pre ++ rest)
            = httpsPollSubscriptionStateOp.shouldStopPolling isPw parse op rest).
  { intros pre rest Hpre. induction Hpre as [|[h r] pre [Hr1 Hr2] _ IH]; [done|].
    simpl in *. by rewrite Hr1, Hr2. }
  split.
  - intros Hall. rewrite <- (app_nil_r order). by rewrite (Hskip _ [] Hall).
  - intros pre h r post -> Hpre. rewrite (Hskip _ _ Hpre). simpl. split.
    + by intros ->.
    + intros -> ->. split.
      * by intros e ->.
      * intros l ->. rewrite <- allActive_Forall.
        destruct (httpsPollSubscriptionStateOp.allActive _); simpl; split; done.
Qed.

(** ** nmaDownloadConfigOp.prepare: the source host *)

(** X17: when [vdb] holds nodes, [prepare] of the download-config
    operation ignores the hosts the operation was given: it asks one host
    of [vdb.HostNodeMap] whose node is primary and up, with the catalog
    path [getCatalogPath] makes of that node's, and adds this one request
    to the request collection.  When no node is primary and up it returns
    an error and leaves the hosts, the requests and the dispatcher as
    they were. *)
Theorem download_config_prepare_asks_a_primary_up_node :
  ∀ (getCatalogPath : string → string)
    (update : list string → nmaVDatabase → gmap string string → gmap string string * error)
    op ctx v order,
    nmaDownloadConfigOp.vdb op = Some v →
    HostNodeMap v ≠ ∅ →
    rangeOrder (HostNodeMap v) order →
    let r := nmaDownloadConfigOp.prepare getCatalogPath update op ctx order in
    let up := λ n, IsPrimary n = true ∧ State n = NodeUpState in
    ((∀ h n, HostNodeMap v !! h = Some n → ¬ up n) →
     r.2 = Some (errorString "could not find any primary up nodes")
     ∧ r.1.2 = ctx
     ∧ nmaDownloadConfigOp.hosts r.1.1 = nmaDownloadConfigOp.hosts op
     ∧ nmaDownloadConfigOp.requests r.1.1 = nmaDownloadConfigOp.requests op)
    ∧ ((∃ h n, HostNodeMap v !! h = Some n ∧ up n) →
       ∃ h n, HostNodeMap v !! h = Some n ∧ up n
              ∧ r.2 = None
              ∧ nmaDownloadConfigOp.hosts r.1.1 = Some [h]
              ∧ r.1.2 = dispatcher_setup [h] ctx
              ∧ nmaDownloadConfigOp.catalogPathMap r.1.1
                = {[ h := getCatalogPath (CatalogPath n) ]}
              ∧ nmaDownloadConfigOp.requests r.1.1
                = <[ h := mkRequest GetMethod
                            (Some (nodeMgmt, nmaDownloadConfigOp.endpoint op))
                            {[ "catalog_path" := getCatalogPath (CatalogPath n) ]}
                            "" 0 "" None ]>
                    (nmaDownloadConfigOp.requests op)).
Proof.
  intros getCatalogPath update op ctx v order Hv Hne Ho r up. subst r.
  unfold nmaDownloadConfigOp.prepare.
  cbn [nmaDownloadConfigOp.setCatalogPathMap nmaDownloadConfigOp.vdb
       nmaDownloadConfigOp.hosts nmaDownloadConfigOp.catalogPathMap].
  rewrite Hv.
  assert (Hsz : (size (HostNodeMap v) =? 0)%nat = false).
  { apply Nat.eqb_neq. intros Hz. by apply map_size_empty_iff in Hz. }
  rewrite Hsz.
  assert (Hin : ∀ h n, (h, n) ∈ order ↔ HostNodeMap v !! h = Some n).
  { intros h n. unfold rangeOrder in Ho. rewrite Ho. apply elem_of_map_to_list. }
  destruct (list_find _ order) as [[i [h n]]|] eqn:Hf.
  - apply list_find_Some in Hf as (Hl & Hup & _). simpl in Hup.
    assert (Hhn : HostNodeMap v !! h = Some n)
      by (apply Hin; by eapply list_elem_of_lookup_2).
    split.
    + intros Hno. by destruct (Hno h n Hhn).
    + intros _. exists h, n. split; [done|]. split; [done|].
      simpl. rewrite lookup_insert_eq. simpl. rewrite insert_empty. done.
  - apply list_find_None in Hf. rewrite Forall_forall in Hf. split.
    + intros _. done.
    + intros (h & n & Hhn & Hup). exfalso. apply (Hf (h, n)); [by apply Hin|done].
Qed.

Lemma download_config_prepare_asks_a_primary_up_node_witness :
  let r := nmaDownloadConfigOp.prepare (λ p, p) (λ _ _ m, (m, None))
             nmaDownloadConfigOp.sampleOp nmaDownloadConfigOp.sampleCtx
             nmaDownloadConfigOp.orderBA in
  ∃ h n, HostNodeMap sampleVDB !! h = Some n
         ∧ (IsPrimary n = true ∧ State n = NodeUpState)
         ∧ r.2 = None
         ∧ nmaDownloadConfigOp.hosts r.1.1 = Some [h]
         ∧ r.1.2 = dispatcher_setup [h] nmaDownloadConfigOp.sampleCtx
         ∧ nmaDownloadConfigOp.catalogPathMap r.1.1 = {[ h := CatalogPath n ]}
         ∧ nmaDownloadConfigOp.requests r.1.1
           = <[ h := mkRequest GetMethod
                       (Some (nodeMgmt,
                              nmaDownloadConfigOp.endpoint nmaDownloadConfigOp.sampleOp))
                       {[ "catalog_path" := CatalogPath n ]} "" 0 "" None ]>
               (nmaDownloadConfigOp.requests nmaDownloadConfigOp.sampleOp).
Proof.
  refine (proj2 (download_config_prepare_asks_a_primary_up_node (λ p, p) (λ _ _ m, (m, None))
                   nmaDownloadConfigOp.sampleOp nmaDownloadConfigOp.sampleCtx
                   sampleVDB nmaDownloadConfigOp.orderBA eq_refl _
                   DownloadConfigFacts.orderBA_range) _).
  - unfold sampleVDB, nmaDownloadConfigOp.twoPrimaries. cbn [HostNodeMap].
    apply insert_non_empty.
  - exists "192.168.1.101", nmaDownloadConfigOp.nodeA. split.
    + unfold sampleVDB, nmaDownloadConfigOp.twoPrimaries. cbn [HostNodeMap].
      apply lookup_insert_eq.
    + split; reflexivity.
Defined.

(** X18: when [vdb] is nil or holds no node and the operation was given
    no hosts, [prepare] of the download-config operation asks the first
    host of [execContext.hostsWithLatestCatalog], with the catalog path
    [updateCatalogPathMapFromCatalogEditor] finds for it in
    [execContext.nmaVDatabase]; with no such host it returns an error
    before anything else is done. *)
Theorem download_config_prepare_asks_the_first_elected_host :
  ∀ (getCatalogPath : string → string)
    (update : list string → nmaVDatabase → gmap string string → gmap string string * error)
    op ctx order,
    (nmaDownloadConfigOp.vdb op = None
     ∨ ∃ v, nmaDownloadConfigOp.vdb op = Some v ∧ HostNodeMap v = ∅) →
    nmaDownloadConfigOp.hosts op = None →
    let r := nmaDownloadConfigOp.prepare getCatalogPath update op ctx order in
    (ctxHostsWithLatestCatalog ctx = [] →
     r.2 = Some (errorString "could not find at least one host with the latest catalog")
     ∧ r.1.2 = ctx
     ∧ nmaDownloadConfigOp.hosts r.1.1 = None
     ∧ nmaDownloadConfigOp.requests r.1.1 = nmaDownloadConfigOp.requests op)
    ∧ (∀ h rest,
         ctxHostsWithLatestCatalog ctx = h :: rest →
         let u := update [h] (ctxNmaVDatabase ctx) ∅ in
         nmaDownloadConfigOp.hosts r.1.1 = Some [h]
         ∧ nmaDownloadConfigOp.catalogPathMap r.1.1 = u.1
         ∧ (∀ e, u.2 = Some e →
                 r.2 = Some (wrapError "failed to get catalog paths from catalog editor: " e)
                 ∧ r.1.2 = ctx
                 ∧ nmaDownloadConfigOp.requests r.1.1 = nmaDownloadConfigOp.requests op)
         ∧ (u.2 = None →
            r.1.2 = dispatcher_setup [h] ctx
            ∧ match u.1 !! h with
              | Some catalogPath =>
                  r.2 = None
                  ∧ nmaDownloadConfigOp.requests r.1.1
                    = <[ h := mkRequest GetMethod
                                (Some (nodeMgmt, nmaDownloadConfigOp.endpoint op))
                                {[ "catalog_path" := catalogPath ]} "" 0 "" None ]>
                        (nmaDownloadConfigOp.requests op)
              | None =>
                  r.2 = Some (errorString ("[" +:+ nmaDownloadConfigOp.name op
                                             +:+ "] fail to get catalog path from host " +:+ h))
                  ∧ nmaDownloadConfigOp.requests r.1.1 = nmaDownloadConfigOp.requests op
              end)).
Proof.
  intros getCatalogPath update op ctx order Hv Hh r. subst r.
  unfold nmaDownloadConfigOp.prepare.
  cbn [nmaDownloadConfigOp.setCatalogPathMap nmaDownloadConfigOp.vdb
       nmaDownloadConfigOp.hosts nmaDownloadConfigOp.catalogPathMap].
  assert (Hno : match nmaDownloadConfigOp.vdb op with
                | Some v => (size (HostNodeMap v) =? 0)%nat
                | None => true
                end = true).
  { destruct Hv as [->|(v & -> & ->)]; [done|]. by rewrite map_size_empty. }
  rewrite Hno, Hh. split.
  - intros ->. done.
  - intros h rest Hhl. cbv zeta. rewrite Hhl.
    simpl.
    destruct (update [h] (ctxNmaVDatabase ctx) ∅) as [m [e|]] eqn:Hu.
    + simpl. split_and!; [done|done| |intros He; discriminate He].
      intros e' [= <-]. done.
    + simpl. destruct (m !! h) as [cp|] eqn:Hm.
      * simpl. split_and!; [done|done|intros e He; discriminate He|]. done.
      * simpl. split_and!; [done|done|intros e He; discriminate He|]. done.
Qed.

Lemma download_config_prepare_asks_the_first_elected_host_witness :
  let r := nmaDownloadConfigOp.prepare (λ p, p) (λ _ _ m, (m, None))
             (nmaDownloadConfigOp.mkOp "NMADownloadVerticaConfigOp" None
                (mkClusterRequest "" ∅ ∅) ∅ "config/vertica" "" None)
             freshContext [] in
  r.2 = Some (errorString "could not find at least one host with the latest catalog")
  ∧ r.1.2 = freshContext
  ∧ nmaDownloadConfigOp.hosts r.1.1 = None
  ∧ nmaDownloadConfigOp.requests r.1.1 = ∅.
Proof.
  refine (proj1 (download_config_prepare_asks_the_first_elected_host (λ p, p)
                   (λ _ _ m, (m, None))
                   (nmaDownloadConfigOp.mkOp "NMADownloadVerticaConfigOp" None
                      (mkClusterRequest "" ∅ ∅) ∅ "config/vertica" "" None)
                   freshContext [] _ _) _).
  - by left.
  - reflexivity.
  - reflexivity.
Defined.

(** ** NMALoadRemoteCatalogOp.prepare: one revive request per host *)

Module LoadCatalogPrepareFacts.
Import NMALoadRemoteCatalogOp NMALoadRemoteCatalogOp_prepare.

Section Op.

Variable extractAWSAuthFromParameters : gmap string string → goError + (string * string * bool).
Variable json_Marshal : loadRemoteCatalogRequestData.t → goError + string.
Variable setVersionToSemVar : opBase → opBase.

Local Abbreviation requestBodyLoop :=
  (NMALoadRemoteCatalogOp_prepare.requestBodyLoop extractAWSAuthFromParameters json_Marshal).
Local Abbreviation setupClusterHTTPRequest :=
  (NMALoadRemoteCatalogOp_prepare.setupClusterHTTPRequest setVersionToSemVar).

Lemma requestBodyLoop_bodies op na index hs aws :
  extractAWSAuthFromParameters (communalStorageParameters op) = inr aws →
  (∀ d, ∃ b, json_Marshal d = inr b) →
  (index + length hs ≤ length (oldHosts op))%nat →
  ∃ m, requestBodyLoop op na index hs = Some (setBodyMap m op, None)
       ∧ (∀ h, h ∉ hs → m !! h = hostRequestBodyMap op !! h)
       ∧ (∀ j h, hs !! j = Some h → (∀ j', (j < j')%nat → hs !! j' ≠ Some h) →
            ∃ old body, oldHosts op !! (index + j)%nat = Some old
                        ∧ json_Marshal (requestData op na h old aws) = inr body
                        ∧ m !! h = Some body).
Proof.
  intros Haws Hm. revert op index Haws.
  induction hs as [|host rest IH]; intros op index Haws Hlen.
  - exists (hostRequestBodyMap op). split_and!; [by destruct op|done|done].
  - simpl in Hlen.
    destruct (lookup_lt_is_Some_2 (oldHosts op) index) as [old Hold]; [lia|].
    destruct (Hm (requestData op na host old aws)) as [b Hb].
    cbn [NMALoadRemoteCatalogOp_prepare.requestBodyLoop]. rewrite Hold, Haws, Hb.
    destruct (IH (setBodyMap (<[host := b]> (hostRequestBodyMap op)) op) (S index))
      as (m & Heq & Hout & Hin); [done|simpl; lia|].
    exists m. split_and!.
    + by rewrite Heq.
    + intros h [Hne Hnin]%not_elem_of_cons. rewrite (Hout h Hnin). simpl.
      by rewrite lookup_insert_ne.
    + intros [|j] h Hj Hlast; simpl in Hj.
      * injection Hj as <-. exists old, b. rewrite Nat.add_0_r. split_and!; [done|done|].
        rewrite Hout.
        -- simpl. by rewrite lookup_insert_eq.
        -- intros Hin'. apply list_elem_of_lookup in Hin' as [j' Hj'].
           apply (Hlast (S j')); [lia|done].
      * destruct (Hin j h Hj) as (old' & b' & Ho' & Hb' & Hm').
        { intros j' Hlt. apply (Hlast (S j')). lia. }
        exists old', b'. split_and!; [|done|done].
        simpl in Ho'. by replace (index + S j)%nat with (S (index + j))%nat by lia.
Qed.

Lemma requestBodyLoop_panic op na index hs aws :
  extractAWSAuthFromParameters (communalStorageParameters op) = inr aws →
  (∀ d, ∃ b, json_Marshal d = inr b) →
  (index ≤ length (oldHosts op))%nat →
  (length (oldHosts op) < index + length hs)%nat →
  requestBodyLoop op na index hs = None.
Proof.
  intros Haws Hm. revert op index Haws.
  induction hs as [|host rest IH]; intros op index Haws Hle Hlen; simpl in Hlen; [lia|].
  cbn [NMALoadRemoteCatalogOp_prepare.requestBodyLoop].
  destruct (oldHosts op !! index) as [old|] eqn:Hold; [|done].
  pose proof (lookup_lt_Some _ _ _ Hold) as Hlt. rewrite Haws.
  destruct (Hm (requestData op na host old aws)) as [b ->].
  apply IH; simpl; [done|lia|lia].
Qed.

Lemma requestLoop_requests op hs h :
  requests (base (requestLoop op hs)) !! h
  = (if decide (h ∈ hs) then Some (reviveRequest op h) else requests (base op) !! h)
  ∧ hosts (base (requestLoop op hs)) = hosts (base op).
Proof.
  revert op. induction hs as [|host rest IH]; intros op.
  - by rewrite decide_False by (by intros ?%elem_of_nil).
  - cbn [requestLoop].
    destruct (IH (setBase (setRequestCollection
                             (<[host := reviveRequest op host]> (requests (base op)))
                             (base op)) op)) as [-> ->].
    split; [|done].
    destruct (decide (h ∈ rest)) as [Hin|Hnin].
    + by rewrite decide_True by (by right).
    + destruct (decide (h = host)) as [->|Hne].
      * rewrite decide_True by left. unfold requests. simpl. by rewrite lookup_insert_eq.
      * rewrite decide_False by (by intros [?|?]%elem_of_cons).
        unfold requests. simpl. by rewrite lookup_insert_ne.
Qed.

Lemma setupClusterHTTPRequest_requests op hs :
  (∀ b, hosts (setVersionToSemVar b) = hosts b
        ∧ requests (setVersionToSemVar b) = requests b) →
  (setupClusterHTTPRequest op hs).2 = None
  ∧ hosts (base (setupClusterHTTPRequest op hs).1) = hosts (base op)
  ∧ ∀ h, requests (base (setupClusterHTTPRequest op hs).1) !! h
         = if decide (h ∈ hs)
           then Some (mkRequest PostMethod (Some (nodeMgmt, "catalog/revive")) ∅
                        (default "" (hostRequestBodyMap op !! h))
                        (intOfUint (timeout op)) "" None)
           else None.
Proof.
  intros Hsv. unfold NMALoadRemoteCatalogOp_prepare.setupClusterHTTPRequest. cbv zeta.
  cbn [fst snd]. split; [done|].
  match goal with |- context [requestLoop ?o hs] => set (o1 := o) end.
  assert (Hh : hosts (base o1) = hosts (base op)).
  { subst o1. simpl. by rewrite (proj1 (Hsv _)). }
  assert (Hr : requests (base o1) = ∅).
  { subst o1. simpl. by rewrite (proj2 (Hsv _)). }
  split.
  - by rewrite (proj2 (requestLoop_requests o1 hs "")).
  - intros h. rewrite (proj1 (requestLoop_requests o1 hs h)), Hr, lookup_empty.
    destruct (decide (h ∈ hs)); done.
Qed.

Lemma loadCatalog_prepare_ok (NetworkProfile : Type)
    (profileAddress profileBroadcast : NetworkProfile → string)
    op (ctx : OpEngineExecContext NetworkProfile) order aws :
  (∀ b, hosts (setVersionToSemVar b) = hosts b
        ∧ requests (setVersionToSemVar b) = requests b) →
  extractAWSAuthFromParameters (communalStorageParameters op) = inr aws →
  (∀ d, ∃ b, json_Marshal d = inr b) →
  size (networkProfiles ctx) = length (hosts (base op)) →
  (length (hosts (base op)) ≤ length (oldHosts op))%nat →
  ∃ op',
    NMALoadRemoteCatalogOp_prepare.prepare profileAddress profileBroadcast
      extractAWSAuthFromParameters json_Marshal setVersionToSemVar op ctx order
    = Some (op', dispatcher_Setup (hosts (base op)) ctx, None)
    ∧ hosts (base op') = hosts (base op)
    ∧ (∀ h, h ∉ hosts (base op) → requests (base op') !! h = None)
    ∧ (∀ j h, hosts (base op) !! j = Some h →
         (∀ j', (j < j')%nat → hosts (base op) !! j' ≠ Some h) →
         ∃ old body,
           oldHosts op !! j = Some old
           ∧ json_Marshal
               (requestData op (nodeAddresses profileAddress profileBroadcast op order)
                  h old aws) = inr body
           ∧ requests (base op') !! h
             = Some (mkRequest PostMethod (Some (nodeMgmt, "catalog/revive")) ∅
                       body (intOfUint (timeout op)) "" None)).
Proof.
  intros Hsv Haws Hm Hsz Hle.
  unfold NMALoadRemoteCatalogOp_prepare.prepare,
    NMALoadRemoteCatalogOp_prepare.setupRequestBody.
  rewrite decide_False by (by intros Hne).
  set (hs := hosts (base op)) in *.
  set (na := nodeAddresses profileAddress profileBroadcast op order).
  set (op0 := setBodyMap ∅ op).
  destruct (requestBodyLoop_bodies op0 na 0 hs aws Haws Hm ltac:(simpl; lia))
    as (m & -> & Hout & Hin).
  set (op1 := setBodyMap m op0).
  destruct (setupClusterHTTPRequest_requests op1 hs Hsv) as (He & Hh & Hreq).
  cbv zeta. change (hosts (base op1)) with hs.
  destruct (NMALoadRemoteCatalogOp_prepare.setupClusterHTTPRequest setVersionToSemVar op1 hs)
    as [op2 e2] eqn:Hs.
  simpl in He, Hh, Hreq. subst e2. exists op2. split_and!; [done|done| |].
  - intros h Hnin. rewrite (Hreq h). by rewrite decide_False.
  - intros j h Hj Hlast. destruct (Hin j h Hj Hlast) as (old & body & Ho & Hb & Hm').
    exists old, body. split_and!; [done|done|].
    rewrite (Hreq h), decide_True by (by eapply list_elem_of_lookup_2).
    subst op1. simpl. by rewrite Hm'.
Qed.

End Op.

End LoadCatalogPrepareFacts.

(** X19: [prepare] of the load-remote-catalog operation, with helpers
    that succeed: when the network profiles are not as many as the hosts
    it returns an error and changes nothing; otherwise it panics exactly
    when [oldHosts] is shorter than the hosts; otherwise it sets up the
    dispatcher with the hosts and replaces the request collection by one
    POST catalog/revive per host, with the timeout of the operation
    converted to [int] (negative from 2^63 up) and the marshalled
    request data of that host and of the old host at the same
    position. *)
Theorem load_catalog_prepare_builds_one_request_per_host :
  ∀ (NetworkProfile : Type) (profileAddress profileBroadcast : NetworkProfile → string)
    (extractAWSAuthFromParameters : gmap string string → goError + (string * string * bool))
    (json_Marshal : loadRemoteCatalogRequestData.t → goError + string)
    (setVersionToSemVar : opBase → opBase)
    op (ctx : NMALoadRemoteCatalogOp_prepare.OpEngineExecContext NetworkProfile) order aws,
    (∀ b, hosts (setVersionToSemVar b) = hosts b
          ∧ requests (setVersionToSemVar b) = requests b) →
    extractAWSAuthFromParameters (NMALoadRemoteCatalogOp.communalStorageParameters op)
    = inr aws →
    (∀ d, ∃ b, json_Marshal d = inr b) →
    let r := NMALoadRemoteCatalogOp_prepare.prepare profileAddress profileBroadcast
               extractAWSAuthFromParameters json_Marshal setVersionToSemVar op ctx order in
    let hs := hosts (NMALoadRemoteCatalogOp.base op) in
    let na := NMALoadRemoteCatalogOp_prepare.nodeAddresses profileAddress profileBroadcast
                op order in
    (size (NMALoadRemoteCatalogOp_prepare.networkProfiles ctx) ≠ length hs →
     r = Some (op, ctx,
               Some (errorString
                       ("[" +:+ name (NMALoadRemoteCatalogOp.base op)
                          +:+ "] the number of hosts in networkProfiles does not match"
                          +:+ " the number of hosts that will load remote catalogs"))))
    ∧ (size (NMALoadRemoteCatalogOp_prepare.networkProfiles ctx) = length hs →
       (r = None ↔ (length (NMALoadRemoteCatalogOp.oldHosts op) < length hs)%nat)
       ∧ ((length hs ≤ length (NMALoadRemoteCatalogOp.oldHosts op))%nat →
          ∃ op', r = Some (op', NMALoadRemoteCatalogOp_prepare.dispatcher_Setup hs ctx, None)
                 ∧ hosts (NMALoadRemoteCatalogOp.base op') = hs
                 ∧ (∀ h, h ∉ hs → requests (NMALoadRemoteCatalogOp.base op') !! h = None)
                 ∧ (∀ j h, hs !! j = Some h → (∀ j', (j < j')%nat → hs !! j' ≠ Some h) →
                      ∃ old body,
                        NMALoadRemoteCatalogOp.oldHosts op !! j = Some old
                        ∧ json_Marshal
                            (NMALoadRemoteCatalogOp_prepare.requestData op na h old aws)
                          = inr body
                        ∧ requests (NMALoadRemoteCatalogOp.base op') !! h
                          = Some (mkRequest PostMethod (Some (nodeMgmt, "catalog/revive")) ∅
                                    body (intOfUint (NMALoadRemoteCatalogOp.timeout op))
                                    "" None)))).
Proof.
  intros NP pA pB extract marshal semver op ctx order aws Hsv Haws Hm r hs na.
  subst r. unfold NMALoadRemoteCatalogOp_prepare.prepare,
    NMALoadRemoteCatalogOp_prepare.setupRequestBody. fold hs. fold na.
  destruct (decide (size (NMALoadRemoteCatalogOp_prepare.networkProfiles ctx) ≠ length hs))
    as [Hne|Heq]; [by split|].
  split; [done|]. intros _.
  set (op0 := NMALoadRemoteCatalogOp_prepare.setBodyMap ∅ op).
  split.
  - destruct (decide (length hs ≤ length (NMALoadRemoteCatalogOp.oldHosts op))%nat)
      as [Hle|Hgt].
    + destruct (LoadCatalogPrepareFacts.requestBodyLoop_bodies extract marshal op0 na 0 hs aws
                  Haws Hm ltac:(simpl; lia)) as (m & -> & _).
      split; [|lia]. cbv zeta.
      destruct (NMALoadRemoteCatalogOp_prepare.setupClusterHTTPRequest semver _ _).
      intros Hn. discriminate Hn.
    + split; [lia|]. intros _.
      rewrite (LoadCatalogPrepareFacts.requestBodyLoop_panic extract marshal op0 na 0 hs aws
                 Haws Hm); [done|lia|simpl; lia].
  - intros Hle.
    destruct (LoadCatalogPrepareFacts.loadCatalog_prepare_ok extract marshal semver NP pA pB
                op ctx order aws Hsv Haws Hm ltac:(by apply dec_stable) Hle)
      as (op' & Hp & Hrest).
    exists op'. split; [|done]. etransitivity; [|exact Hp].
    unfold NMALoadRemoteCatalogOp_prepare.prepare,
      NMALoadRemoteCatalogOp_prepare.setupRequestBody.
    by rewrite decide_False by done.
Qed.

Lemma load_catalog_prepare_builds_one_request_per_host_witness :
  NMALoadRemoteCatalogOp_prepare.prepare fst snd noAWSAuth marshalRevive (λ b, b)
    oneHostReviveOp noProfiles []
  = Some (oneHostReviveOp, noProfiles,
          Some (errorString
                  ("[" +:+ name (NMALoadRemoteCatalogOp.base oneHostReviveOp)
                     +:+ "] the number of hosts in networkProfiles does not match"
                     +:+ " the number of hosts that will load remote catalogs"))).
Proof.
  refine (proj1 (load_catalog_prepare_builds_one_request_per_host (string * string) fst snd
                   noAWSAuth marshalRevive (λ b, b) oneHostReviveOp noProfiles []
                   ("", "", false) _ _ _) _).
  - done.
  - reflexivity.
  - intros d. by eexists.
  - unfold noProfiles. cbn [NMALoadRemoteCatalogOp_prepare.networkProfiles].
    rewrite map_size_empty. simpl. lia.
Defined.

(** X20: the second half of revive, [generateReviveVDB] followed by
    [makeNMALoadRemoteCatalogOp] and [prepare], on a list of distinct new
    hosts no longer than the old database and with one network profile
    per host: no step panics, and the request sent to the k-th new host
    asks it to load the catalog of the k-th node in the order of the
    names, naming that node, its catalog path, its storage locations and,
    as host, the address that node had in the old database; its timeout
    is the load-catalog timeout converted to [int]. *)
Theorem revive_request_names_the_replaced_host :
  ∀ (NetworkProfile : Type) (profileAddress profileBroadcast : NetworkProfile → string)
    (extractAWSAuthFromParameters : gmap string string → goError + (string * string * bool))
    (json_Marshal : loadRemoteCatalogRequestData.t → goError + string)
    (setVersionToSemVar : opBase → opBase)
    vdb vNodes hs dbName communalLocation communalStorageParameters timeout order1
    (ctx : NMALoadRemoteCatalogOp_prepare.OpEngineExecContext NetworkProfile) order2
    awsKeyID awsKeySecret (found : bool),
    ReviveDB.sortedNodes vdb vNodes →
    NoDup hs →
    (length hs ≤ size (HostNodeMap vdb))%nat →
    size (NMALoadRemoteCatalogOp_prepare.networkProfiles ctx) = length hs →
    (∀ b, hosts (setVersionToSemVar b) = hosts b
          ∧ requests (setVersionToSemVar b) = requests b) →
    extractAWSAuthFromParameters communalStorageParameters
    = inr (awsKeyID, awsKeySecret, found) →
    (∀ d, ∃ b, json_Marshal d = inr b) →
    ∃ newVDB oldHosts op',
      ReviveDB.generateReviveVDB vdb hs vNodes = Some (newVDB, oldHosts)
      ∧ let op := NMALoadRemoteCatalogOp.makeNMALoadRemoteCatalogOp hs oldHosts dbName
                    communalLocation communalStorageParameters newVDB timeout order1 in
        NMALoadRemoteCatalogOp_prepare.prepare profileAddress profileBroadcast
          extractAWSAuthFromParameters json_Marshal setVersionToSemVar op ctx order2
        = Some (op', NMALoadRemoteCatalogOp_prepare.dispatcher_Setup hs ctx, None)
        ∧ ∀ k h, hs !! k = Some h →
            ∃ n body,
              vNodes !! k = Some n
              ∧ json_Marshal
                  (loadRemoteCatalogRequestData.mk dbName (StorageLocations n)
                     communalLocation (CatalogPath n) (Address n) (Name n)
                     (if found then awsKeyID else "") (if found then awsKeySecret else "")
                     (NMALoadRemoteCatalogOp_prepare.nodeAddresses profileAddress
                        profileBroadcast op order2)
                     communalStorageParameters)
                = inr body
              ∧ requests (NMALoadRemoteCatalogOp.base op') !! h
                = Some (mkRequest PostMethod (Some (nodeMgmt, "catalog/revive")) ∅ body
                          (intOfUint timeout) "" None).
Proof.
  intros NP pA pB extract marshal semver vdb vNodes hs dbName loc params timeout order1
    ctx order2 awsKeyID awsKeySecret found Hs Hnd Hle Hsz Hsv Haws Hm.
  pose proof (ReviveDBFacts.sortedNodes_length _ _ Hs) as Hlen.
  destruct (ReviveDBFacts.assignHosts_ok vNodes 0 hs ∅ [] ltac:(simpl; lia) Hnd)
    as (m' & o' & Heq & Hlo & Hk & _ & _).
  unfold ReviveDB.generateReviveVDB. simpl. rewrite Heq.
  set (newVDB := ReviveDB.setHostNodeMap m' _).
  set (op := NMALoadRemoteCatalogOp.makeNMALoadRemoteCatalogOp hs o' dbName loc params
               newVDB timeout order1).
  destruct (LoadCatalogPrepareFacts.loadCatalog_prepare_ok extract marshal semver NP pA pB
              op ctx order2 (awsKeyID, awsKeySecret, found) Hsv Haws Hm Hsz
              ltac:(simpl in *; lia))
    as (op' & Hp & _ & _ & Hreq).
  exists newVDB, o', op'. split; [done|]. split; [exact Hp|].
  intros k h Hkh. destruct (Hk k h Hkh) as (n & Hn & Hm' & Ho). simpl in Ho.
  destruct (Hreq k h Hkh) as (old & body & Hold & Hbody & Hr).
  { intros j' Hlt Hj'. pose proof (proj1 (NoDup_alt hs) Hnd _ _ _ Hkh Hj'). lia. }
  exists n, body. split; [done|]. split; [|exact Hr].
  simpl in Hold. rewrite Ho in Hold. injection Hold as <-.
  rewrite <- Hbody. f_equal.
  unfold NMALoadRemoteCatalogOp_prepare.requestData. simpl. by rewrite Hm'.
Qed.

Lemma revive_request_names_the_replaced_host_witness :
  ∃ newVDB oldHosts op',
    ReviveDB.generateReviveVDB sampleVDB ["10.1.10.1"; "10.1.10.2"] sortedSample
    = Some (newVDB, oldHosts)
    ∧ let op := NMALoadRemoteCatalogOp.makeNMALoadRemoteCatalogOp ["10.1.10.1"; "10.1.10.2"]
                  oldHosts "test_db" "s3://bucket/test_db" ∅ newVDB 3600 [] in
      NMALoadRemoteCatalogOp_prepare.prepare fst snd noAWSAuth marshalRevive (λ b, b)
        op twoProfiles []
      = Some (op', NMALoadRemoteCatalogOp_prepare.dispatcher_Setup
                     ["10.1.10.1"; "10.1.10.2"] twoProfiles, None)
      ∧ ∀ k h, ["10.1.10.1"; "10.1.10.2"] !! k = Some h →
          ∃ n body,
            sortedSample !! k = Some n
            ∧ marshalRevive
                (loadRemoteCatalogRequestData.mk "test_db" (StorageLocations n)
                   "s3://bucket/test_db" (CatalogPath n) (Address n) (Name n) "" ""
                   (NMALoadRemoteCatalogOp_prepare.nodeAddresses fst snd op [])
                   ∅)
              = inr body
            ∧ requests (NMALoadRemoteCatalogOp.base op') !! h
              = Some (mkRequest PostMethod (Some (nodeMgmt, "catalog/revive")) ∅ body
                        (intOfUint 3600) "" None).
Proof.
  assert (Hs : ReviveDB.sortedNodes sampleVDB sortedSample).
  { split.
    - pose proof DownloadConfigFacts.orderAB_range as H. unfold rangeOrder in H.
      simpl. rewrite <- H. reflexivity.
    - repeat constructor. }
  refine (revive_request_names_the_replaced_host (string * string) fst snd noAWSAuth
            marshalRevive (λ b, b) sampleVDB sortedSample ["10.1.10.1"; "10.1.10.2"]
            "test_db" "s3://bucket/test_db" ∅ 3600%nat [] twoProfiles [] "" "" false
            Hs _ _ _ _ _ _).
  - apply NoDup_cons. split; [|apply NoDup_singleton].
    intros Hin. apply list_elem_of_singleton in Hin. discriminate Hin.
  - rewrite <- (ReviveDBFacts.sortedNodes_length _ _ Hs). simpl. lia.
  - unfold twoProfiles. cbn [NMALoadRemoteCatalogOp_prepare.networkProfiles].
    rewrite map_size_insert_None by done. by rewrite map_size_singleton.
  - done.
  - reflexivity.
  - intros d. by eexists.
Defined.

(** ** From the election to the download of the configuration *)

Lemma election_first_winner parse op ctx order :
  (∃ e v, e ∈ order ∧ nmaReadCatalogEditorOp.globalOf parse e = Some v ∧ 0 < v) →
  ∃ h r d rest,
    ctxHostsWithLatestCatalog (nmaReadCatalogEditorOp.processResult parse op ctx order).1
    = h :: rest
    ∧ (h, r) ∈ order
    ∧ nmaReadCatalogEditorOp.globalOf parse (h, r)
      = Some (nmaReadCatalogEditorOp.maxGlobalVersion (nmaReadCatalogEditorOp.elect parse op order))
    ∧ parse h (content r) = inr d
    ∧ ctxNmaVDatabase (nmaReadCatalogEditorOp.processResult parse op ctx order).1
      = nmaReadCatalogEditorOp.derive d.
Proof.
  intros (e & v & Hin & Hv & Hpos).
  pose proof (ReadCatalogFacts.maxSeen_upper parse _ _ _ Hin Hv) as Hup.
  destruct (ReadCatalogFacts.elect_latest parse op order) as [_ Hl].
  destruct Hl as (e0 & Hfirst & Hparsed); [lia|].
  destruct (ReadCatalogFacts.elect_spec parse op order) as [Hm Hh].
  unfold nmaReadCatalogEditorOp.processResult. cbv zeta. rewrite Hh, Hm.
  unfold nmaReadCatalogEditorOp.firstAt in Hfirst.
  unfold nmaReadCatalogEditorOp.winners.
  destruct (filter _ order) as [|e1 l] eqn:Hf; [done|].
  simpl in Hfirst. injection Hfirst as ->. simpl.
  destruct e0 as [h r]. exists h, r.
  assert (He : (h, r) ∈ filter
                 (λ e, nmaReadCatalogEditorOp.globalOf parse e
                       = Some (nmaReadCatalogEditorOp.maxSeen parse order)) order)
    by (rewrite Hf; left).
  apply list_elem_of_filter in He as [Hat Hino].
  unfold nmaReadCatalogEditorOp.parsed in Hparsed. simpl in Hparsed.
  destruct (isPassing r) eqn:Hp; [|done].
  destruct (parse h (content r)) as [err|d] eqn:Hd; [done|].
  destruct (Int64 _); [done|]. injection Hparsed as _ Hder.
  exists d, l.*1. by split_and!.
Qed.

Lemma downloadConfig_prepare_without_hosts getCatalogPath update op ctx order h rest :
  (nmaDownloadConfigOp.vdb op = None
   ∨ ∃ v, nmaDownloadConfigOp.vdb op = Some v ∧ HostNodeMap v = ∅) →
  nmaDownloadConfigOp.hosts op = None →
  ctxHostsWithLatestCatalog ctx = h :: rest →
  nmaDownloadConfigOp.hosts
    (nmaDownloadConfigOp.prepare getCatalogPath update op ctx order).1.1 = Some [h]
  ∧ nmaDownloadConfigOp.catalogPathMap
      (nmaDownloadConfigOp.prepare getCatalogPath update op ctx order).1.1
    = (update [h] (ctxNmaVDatabase ctx) ∅).1.
Proof.
  intros Hv Hh Hl. unfold nmaDownloadConfigOp.prepare.
  cbn [nmaDownloadConfigOp.setCatalogPathMap nmaDownloadConfigOp.vdb
       nmaDownloadConfigOp.hosts nmaDownloadConfigOp.catalogPathMap].
  assert (Hno : match nmaDownloadConfigOp.vdb op with
                | Some v => (size (HostNodeMap v) =? 0)%nat
                | None => true
                end = true).
  { destruct Hv as [->|(v & -> & ->)]; [done|]. by rewrite map_size_empty. }
  rewrite Hno, Hh, Hl. simpl.
  destruct (update [h] (ctxNmaVDatabase ctx) ∅) as [m [e|]] eqn:Hu; [done|].
  simpl. by destruct (m !! h).
Qed.

(** X21: after an election in which some host reported a positive
    version, [prepare] of a download-config operation that has no
    database nodes and was given no hosts targets one host, the first
    elected one: a host whose version is the maximum, and the catalog
    paths are looked up in the descriptor that host itself returned. *)
Theorem download_config_follows_the_election :
  ∀ parse readOp ctx results
    (getCatalogPath : string → string)
    (update : list string → nmaVDatabase → gmap string string → gmap string string * error)
    op order,
    (∃ e v, e ∈ results ∧ nmaReadCatalogEditorOp.globalOf parse e = Some v ∧ 0 < v) →
    (nmaDownloadConfigOp.vdb op = None
     ∨ ∃ v, nmaDownloadConfigOp.vdb op = Some v ∧ HostNodeMap v = ∅) →
    nmaDownloadConfigOp.hosts op = None →
    let elected := nmaReadCatalogEditorOp.processResult parse readOp ctx results in
    let r := nmaDownloadConfigOp.prepare getCatalogPath update op elected.1 order in
    ∃ h res d,
      (h, res) ∈ results
      ∧ parse h (content res) = inr d
      ∧ nmaReadCatalogEditorOp.globalOf parse (h, res)
        = Some (nmaReadCatalogEditorOp.maxGlobalVersion
                  (nmaReadCatalogEditorOp.elect parse readOp results))
      ∧ nmaDownloadConfigOp.hosts r.1.1 = Some [h]
      ∧ nmaDownloadConfigOp.catalogPathMap r.1.1
        = (update [h] (nmaReadCatalogEditorOp.derive d) ∅).1.
Proof.
  intros parse readOp ctx results getCatalogPath update op order Hex Hv Hh elected r.
  destruct (election_first_winner parse readOp ctx results Hex)
    as (h & res & d & rest & Hl & Hin & Hat & Hd & Hder).
  destruct (downloadConfig_prepare_without_hosts getCatalogPath update op elected.1 order
              h rest Hv Hh Hl) as [Hhosts Hcpm].
  exists h, res, d. split_and!; [done|done|done|done|].
  subst r. rewrite Hcpm. subst elected. by rewrite Hder.
Qed.

Lemma download_config_follows_the_election_witness :
  let elected := nmaReadCatalogEditorOp.processResult decodeCatalog readCatalogOp
                   freshContext partialFailure in
  let r := nmaDownloadConfigOp.prepare (λ p, p) (λ _ _ m, (m, None))
             (nmaDownloadConfigOp.mkOp "NMADownloadVerticaConfigOp" None
                (mkClusterRequest "" ∅ ∅) ∅ "config/vertica" "" None)
             elected.1 [] in
  ∃ h res d,
    (h, res) ∈ partialFailure
    ∧ decodeCatalog h (content res) = inr d
    ∧ nmaReadCatalogEditorOp.globalOf decodeCatalog (h, res)
      = Some (nmaReadCatalogEditorOp.maxGlobalVersion
                (nmaReadCatalogEditorOp.elect decodeCatalog readCatalogOp partialFailure))
    ∧ nmaDownloadConfigOp.hosts r.1.1 = Some [h]
    ∧ nmaDownloadConfigOp.catalogPathMap r.1.1 = ∅.
Proof.
  apply (download_config_follows_the_election decodeCatalog readCatalogOp freshContext
           partialFailure (λ p, p) (λ _ _ m, (m, None))
           (nmaDownloadConfigOp.mkOp "NMADownloadVerticaConfigOp" None
              (mkClusterRequest "" ∅ ∅) ∅ "config/vertica" "" None) []).
  - exists ("C", passingResult "C" "catalog at 12"), 12. split_and!.
    + apply elem_of_cons. right. apply elem_of_cons. right. apply elem_of_cons. by left.
    + vm_compute. reflexivity.
    + lia.
  - by left.
  - reflexivity.
Defined.

(** ** create_db: the depot size and the Eon options *)

Lemma splitLast_app s body l :
  CreateDBOptions.splitLast s = Some (body, l) ↔ s = body +:+ String l "".
Proof.
  revert body. induction s as [|c s IH]; intros body.
  - split; [done|]. destruct body; discriminate.
  - assert (Hunf : CreateDBOptions.splitLast (String c s)
                   = match s with
                     | EmptyString => Some (EmptyString, c)
                     | _ => match CreateDBOptions.splitLast s with
                            | Some (b, l0) => Some (String c b, l0)
                            | None => None
                            end
                     end) by (by destruct s).
    rewrite Hunf. clear Hunf. destruct body as [|b body].
    + change ("" +:+ String l "") with (String l "").
      destruct s as [|c' s'].
      * split; by intros [= ->].
      * destruct (CreateDBOptions.splitLast (String c' s')) as [[b0 l0]|];
          split; try done; intros [= _ H]; discriminate H.
    + change (String b body +:+ String l "") with (String b (body +:+ String l "")).
      specialize (IH body). destruct s as [|c' s'].
      * split; [intros [= H _]; discriminate H|].
        intros [= _ H]. destruct body; discriminate H.
      * destruct (CreateDBOptions.splitLast (String c' s')) as [[b0 l0]|] eqn:Hs.
        -- split.
           ++ intros [= -> -> ->]. f_equal. by apply IH.
           ++ intros [= -> H]. apply IH in H. by injection H as -> ->.
        -- split; [done|]. intros [= -> H]. apply IH in H. discriminate H.
Qed.

Lemma FindAllStringSubmatch_match class s body :
  CreateDBOptions.FindAllStringSubmatch class s = Some body
  ↔ ∃ c, s = body +:+ String c ""
         ∧ CreateDBOptions.signedDigits body = true ∧ class c = true.
Proof.
  unfold CreateDBOptions.FindAllStringSubmatch.
  destruct (CreateDBOptions.splitLast s) as [[body' l]|] eqn:Hs.
  - apply splitLast_app in Hs. subst s. split.
    + destruct (CreateDBOptions.signedDigits body') eqn:Hd; [|done].
      destruct (class l) eqn:Hc; [|done]. simpl. intros [= <-]. by exists l.
    + intros (c & Heq & Hd & Hc).
      pose proof (proj2 (splitLast_app (body' +:+ String l "") body' l) eq_refl) as H1.
      pose proof (proj2 (splitLast_app (body' +:+ String l "") body c) Heq) as H2.
      rewrite H1 in H2. injection H2 as -> ->. by rewrite Hd, Hc.
  - split; [done|]. intros (c & Heq & _). apply splitLast_app in Heq.
    rewrite Heq in Hs. discriminate Hs.
Qed.

Lemma validateDepotSize_valid_iff_nil TrimSpace MaxDepotSize MinDepotSize size :
  (CreateDBOptions.validateDepotSize TrimSpace MaxDepotSize MinDepotSize size).1 = true
  ↔ (CreateDBOptions.validateDepotSize TrimSpace MaxDepotSize MinDepotSize size).2 = None.
Proof.
  unfold CreateDBOptions.validateDepotSize, CreateDBOptions.validateDepotSizePercent,
    CreateDBOptions.validateDepotSizeBytes.
  destruct (CreateDBOptions.strings_Contains size "%"); simpl.
  - destruct (CreateDBOptions.FindAllStringSubmatch _ _); [|done].
    destruct (CreateDBOptions.Atoi _); [done|].
    destruct (MaxDepotSize <? _); [done|]. destruct (_ <? MinDepotSize); done.
  - destruct (CreateDBOptions.FindAllStringSubmatch _ _); [|done].
    destruct (CreateDBOptions.Atoi _); [done|]. destruct (_ <=? 0); done.
Qed.

(** X22: [validateDepotSize] returns an error exactly when it returns
    false.  It accepts a size exactly when the trimmed size is an
    optional sign and at least one digit followed by one more byte, the
    number fits an [int], and: if the size contains a percent sign, the
    last byte is the percent sign and the number lies between
    [util.MinDepotSize] and [util.MaxDepotSize]; otherwise the last byte
    is one of K, M, G, T and the number is positive. *)
Theorem validateDepotSize_accepts_percent_or_bytes :
  ∀ (TrimSpace : string → string) (MaxDepotSize MinDepotSize : Z) size,
    let r := CreateDBOptions.validateDepotSize TrimSpace MaxDepotSize MinDepotSize size in
    (r.1 = true ↔ r.2 = None)
    ∧ (r.1 = true
       ↔ ∃ body c v,
           TrimSpace size = body +:+ String c ""
           ∧ CreateDBOptions.signedDigits body = true
           ∧ CreateDBOptions.Atoi body = inr v
           ∧ if CreateDBOptions.strings_Contains size "%"
             then c = "%"%char ∧ MinDepotSize ≤ v ≤ MaxDepotSize
             else (c = "K" ∨ c = "M" ∨ c = "G" ∨ c = "T")%char ∧ 0 < v).
Proof.
  intros TrimSpace Max Min size r. subst r. split.
  { apply validateDepotSize_valid_iff_nil. }
  unfold CreateDBOptions.validateDepotSize, CreateDBOptions.validateDepotSizePercent,
    CreateDBOptions.validateDepotSizeBytes.
  destruct (CreateDBOptions.strings_Contains size "%"); simpl.
  - destruct (CreateDBOptions.FindAllStringSubmatch CreateDBOptions.percentClass
                (TrimSpace size)) as [body|] eqn:Hf.
    + apply FindAllStringSubmatch_match in Hf as (c & Heq & Hd & Hc).
      apply Ascii.eqb_eq in Hc. subst c.
      destruct (CreateDBOptions.Atoi body) as [e|v] eqn:Ha.
      * simpl. split; [done|]. intros (body' & c' & v' & Heq' & _ & Ha' & _).
        rewrite Heq in Heq'. apply splitLast_app in Heq'.
        rewrite (proj2 (splitLast_app _ body "%"%char) eq_refl) in Heq'.
        injection Heq' as <- <-. rewrite Ha in Ha'. discriminate Ha'.
      * assert (Hinv : ∀ P : Z → Prop,
                  (∃ body' c' v', TrimSpace size = body' +:+ String c' ""
                     ∧ CreateDBOptions.signedDigits body' = true
                     ∧ CreateDBOptions.Atoi body' = inr v'
                     ∧ (c' = "%"%char ∧ P v')) ↔ P v).
        { intros P. split.
          - intros (body' & c' & v' & Heq' & _ & Ha' & _ & HP).
            rewrite Heq in Heq'. apply splitLast_app in Heq'.
            rewrite (proj2 (splitLast_app _ body "%"%char) eq_refl) in Heq'.
            injection Heq' as <- <-. rewrite Ha in Ha'. by injection Ha' as <-.
          - intros HP. by exists body, "%"%char, v. }
        rewrite (Hinv (λ v, Min ≤ v ≤ Max)).
        destruct (Max <? v) eqn:Hmax; simpl.
        -- apply Z.ltb_lt in Hmax. split; [done|lia].
        -- apply Z.ltb_ge in Hmax. destruct (v <? Min) eqn:Hmin; simpl.
           ++ apply Z.ltb_lt in Hmin. split; [done|lia].
           ++ apply Z.ltb_ge in Hmin. split; [lia|done].
    + simpl. split; [done|]. intros (body & c & v & Heq & Hd & _ & -> & _).
      assert (Hsome : CreateDBOptions.FindAllStringSubmatch CreateDBOptions.percentClass
                        (TrimSpace size) = Some body).
      { apply FindAllStringSubmatch_match. by exists "%"%char. }
      rewrite Hsome in Hf. discriminate Hf.
  - destruct (CreateDBOptions.FindAllStringSubmatch CreateDBOptions.unitClass
                (TrimSpace size)) as [body|] eqn:Hf.
    + apply FindAllStringSubmatch_match in Hf as (c & Heq & Hd & Hc).
      assert (Hunit : (c = "K" ∨ c = "M" ∨ c = "G" ∨ c = "T")%char).
      { unfold CreateDBOptions.unitClass in Hc.
        apply orb_true_iff in Hc as [Hc|Hc]; [|right; right; right; by apply Ascii.eqb_eq].
        apply orb_true_iff in Hc as [Hc|Hc]; [|right; right; left; by apply Ascii.eqb_eq].
        apply orb_true_iff in Hc as [Hc|Hc]; [left|right; left]; by apply Ascii.eqb_eq. }
      destruct (CreateDBOptions.Atoi body) as [e|v] eqn:Ha.
      * simpl. split; [done|]. intros (body' & c' & v' & Heq' & _ & Ha' & _).
        rewrite Heq in Heq'. apply splitLast_app in Heq'.
        rewrite (proj2 (splitLast_app _ body c) eq_refl) in Heq'.
        injection Heq' as <- <-. rewrite Ha in Ha'. discriminate Ha'.
      * destruct (v <=? 0) eqn:Hv; simpl.
        -- apply Z.leb_le in Hv. split; [done|].
           intros (body' & c' & v' & Heq' & _ & Ha' & _ & Hpos).
           rewrite Heq in Heq'. apply splitLast_app in Heq'.
           rewrite (proj2 (splitLast_app _ body c) eq_refl) in Heq'.
           injection Heq' as <- <-. rewrite Ha in Ha'. injection Ha' as <-. lia.
        -- apply Z.leb_gt in Hv. split; [|done]. intros _. by exists body, c, v.
    + simpl. split; [done|]. intros (body & c & v & Heq & Hd & _ & Hunit & _).
      assert (Hsome : CreateDBOptions.FindAllStringSubmatch CreateDBOptions.unitClass
                        (TrimSpace size) = Some body).
      { apply FindAllStringSubmatch_match. exists c. split_and!; [done|done|].
        unfold CreateDBOptions.unitClass. destruct Hunit as [-> | [-> | [-> | ->]]]; reflexivity. }
      rewrite Hsome in Hf. discriminate Hf.
Qed.

(** X23: [ValidateEonOptions] returns nil in two cases only: no communal
    storage location with no depot path, no depot size and no AWS
    credentials from the environment; or a communal storage location
    with a depot path, a shard count that is not zero (a negative count
    passes) and a depot size that is empty or that [validateDepotSize]
    accepts. *)
Theorem ValidateEonOptions_accepts_eon_or_enterprise :
  ∀ (TrimSpace : string → string) (MaxDepotSize MinDepotSize : Z) opt,
    CreateDBOptions.ValidateEonOptions TrimSpace MaxDepotSize MinDepotSize opt = None
    ↔ (CreateDBOptions.CommunalStorageLocation opt = ""
       ∧ CreateDBOptions.DepotPrefix opt = ""
       ∧ CreateDBOptions.GetAwsCredentialsFromEnv opt = false
       ∧ CreateDBOptions.DepotSize opt = "")
      ∨ (CreateDBOptions.CommunalStorageLocation opt ≠ ""
         ∧ CreateDBOptions.DepotPrefix opt ≠ ""
         ∧ CreateDBOptions.ShardCount opt ≠ 0
         ∧ (CreateDBOptions.DepotSize opt = ""
            ∨ (CreateDBOptions.validateDepotSize TrimSpace MaxDepotSize MinDepotSize
                 (CreateDBOptions.DepotSize opt)).1 = true)).
Proof.
  intros TrimSpace Max Min opt. unfold CreateDBOptions.ValidateEonOptions.
  pose proof (validateDepotSize_valid_iff_nil TrimSpace Max Min
                (CreateDBOptions.DepotSize opt)) as Hv.
  destruct (CreateDBOptions.validateDepotSize TrimSpace Max Min
              (CreateDBOptions.DepotSize opt)) as [valid err] eqn:Hvd.
  cbn [fst snd] in Hv.
  destruct (decide (CreateDBOptions.CommunalStorageLocation opt = "")) as [Hc|Hc];
    destruct (decide (CreateDBOptions.DepotPrefix opt = "")) as [Hd|Hd];
    destruct (decide (CreateDBOptions.ShardCount opt = 0)) as [Hs|Hs];
    destruct (decide (CreateDBOptions.DepotSize opt = "")) as [Hz|Hz];
    destruct (CreateDBOptions.GetAwsCredentialsFromEnv opt) eqn:Ha;
    destruct valid;
    repeat (first [rewrite decide_True by tauto | rewrite decide_False by tauto]);
    try rewrite (bool_decide_eq_true_2 _ Hc);
    try rewrite (bool_decide_eq_false_2 _ Hc);
    cbn [andb negb].
  all: split;
    [ intros Hn;
      first [ discriminate Hn
            | apply Hv in Hn; discriminate Hn
            | left; by split_and!
            | right; split_and!; [done|done|done|by left]
            | right; split_and!; [done|done|done|by right] ]
    | intros [(H1 & H2 & H3 & H4)|(H1 & H2 & H3 & [H4|H4])];
      first [ done | by destruct H1 | by destruct H2 | by destruct H3
            | discriminate H3 | discriminate H4 ] ].
Qed.

(** ** NMALoadRemoteCatalogOp.setupRequestBody: the addresses by node name *)

Lemma fold_insert_by_key {A V : Type} (key : A → string) (val : A → V) (l : list A) :
  NoDup (key <$> l) →
  ∀ k, foldl (λ (m : gmap string V) x, <[key x := val x]> m) ∅ l !! k
       = val <$> list_find (λ x, key x = k) l ≫= (λ ix, Some ix.2).
Proof.
  induction l as [|x l IH] using rev_ind; intros Hnd k.
  - cbn [foldl list_find]. by rewrite lookup_empty.
  - rewrite fmap_app in Hnd. apply NoDup_app in Hnd as (Hnd & Hdisj & _).
    rewrite foldl_snoc. destruct (decide (key x = k)) as [<-|Hne].
    + rewrite lookup_insert_eq.
      destruct (list_find (λ y, key y = key x) (l ++ [x])) as [[i y]|] eqn:Hf.
      * apply list_find_Some in Hf as (Hl & Hy & _). simpl.
        apply lookup_app_Some in Hl as [Hl|[_ Hl]].
        -- exfalso. apply (Hdisj (key x)); [|simpl; left].
           apply list_elem_of_fmap. exists y. split; [done|].
           by eapply list_elem_of_lookup_2.
        -- apply list_lookup_singleton_Some in Hl as [_ <-]. done.
      * apply list_find_None in Hf. rewrite Forall_app, Forall_singleton in Hf.
        by destruct Hf as [_ Hf].
    + rewrite lookup_insert_ne by done. rewrite (IH Hnd k).
      destruct (list_find (λ y, key y = k) l) as [[i y]|] eqn:Hf.
      * rewrite (list_find_app_l _ _ _ _ _ Hf). done.
      * assert (Hf' : list_find (λ y, key y = k) (l ++ [x]) = None).
        { apply list_find_None. apply list_find_None in Hf.
          rewrite Forall_app, Forall_singleton. done. }
        by rewrite Hf'.
Qed.

(** X24: when the hosts of the network profiles have nodes of distinct
    names in [vdb.HostNodeMap] (hosts the map lacks count as nodes of the
    empty name), the node addresses [setupRequestBody] sends do not
    depend on the order in which the profiles are visited: each node
    name is mapped to its host, that host's profile address and its
    broadcast address, and no other name is mapped. *)
Theorem node_addresses_are_keyed_by_node_name :
  ∀ (NetworkProfile : Type) (profileAddress profileBroadcast : NetworkProfile → string)
    op (profiles : gmap string NetworkProfile) order,
    let nodeName := λ h,
      default "" (Name <$> HostNodeMap (NMALoadRemoteCatalogOp.vdb op) !! h) in
    let addresses :=
      NMALoadRemoteCatalogOp_prepare.nodeAddresses profileAddress profileBroadcast op order in
    rangeOrder profiles order →
    (∀ h1 h2, is_Some (profiles !! h1) → is_Some (profiles !! h2) →
              nodeName h1 = nodeName h2 → h1 = h2) →
    (∀ h p, profiles !! h = Some p →
            addresses !! nodeName h = Some [h; profileAddress p; profileBroadcast p])
    ∧ (∀ n, (∀ h, is_Some (profiles !! h) → nodeName h ≠ n) → addresses !! n = None).
Proof.
  intros NP pA pB op profiles order nodeName addresses Ho Hinj.
  assert (Hin : ∀ h p, (h, p) ∈ order ↔ profiles !! h = Some p).
  { intros h p. unfold rangeOrder in Ho. rewrite Ho. apply elem_of_map_to_list. }
  assert (Hnd : NoDup ((λ hp : string * NP, nodeName hp.1) <$> order)).
  { apply NoDup_fmap_2_strong.
    - intros [h1 p1] [h2 p2] H1 H2 Hn. simpl in Hn.
      apply Hin in H1, H2.
      assert (h1 = h2) as -> by (apply Hinj; [by eexists..|done]).
      rewrite H1 in H2. by injection H2 as ->.
    - unfold rangeOrder in Ho. rewrite Ho. apply NoDup_map_to_list. }
  pose proof (fold_insert_by_key (λ hp : string * NP, nodeName hp.1)
                (λ hp, [hp.1; pA hp.2; pB hp.2]) order Hnd) as Hlk.
  subst addresses.
  change (NMALoadRemoteCatalogOp_prepare.nodeAddresses pA pB op order)
    with (foldl (λ (m : gmap string (list string)) (hp : string * NP),
                   <[nodeName hp.1 := [hp.1; pA hp.2; pB hp.2]]> m) ∅ order).
  split.
  - intros h p Hp. rewrite (Hlk (nodeName h)).
    destruct (list_find _ order) as [[i [h' p']]|] eqn:Hf; simpl.
    + apply list_find_Some in Hf as (Hl & Hn & _). simpl in Hn.
      assert (Hp' : profiles !! h' = Some p')
        by (apply Hin; by eapply list_elem_of_lookup_2).
      assert (h' = h) as -> by (apply Hinj; [by eexists..|done]).
      rewrite Hp in Hp'. by injection Hp' as <-.
    + apply list_find_None in Hf. rewrite Forall_forall in Hf.
      exfalso. apply (Hf (h, p)); [by apply Hin|done].
  - intros n Hno. rewrite (Hlk n).
    destruct (list_find _ order) as [[i [h' p']]|] eqn:Hf; simpl; [|done].
    apply list_find_Some in Hf as (Hl & Hn & _). simpl in Hn.
    exfalso. apply (Hno h'); [|done]. exists p'. apply Hin. by eapply list_elem_of_lookup_2.
Qed.

Lemma node_addresses_are_keyed_by_node_name_witness :
  NMALoadRemoteCatalogOp_prepare.nodeAddresses fst snd twoHostReviveOp
    (map_to_list (NMALoadRemoteCatalogOp_prepare.networkProfiles twoProfiles))
    !! default "" (Name <$> HostNodeMap (NMALoadRemoteCatalogOp.vdb twoHostReviveOp)
                     !! "10.1.10.1")
  = Some ["10.1.10.1"; "10.1.10.1"; "10.1.10.255"].
Proof.
  refine (proj1 (node_addresses_are_keyed_by_node_name (string * string) fst snd
                   twoHostReviveOp (NMALoadRemoteCatalogOp_prepare.networkProfiles twoProfiles)
                   (map_to_list (NMALoadRemoteCatalogOp_prepare.networkProfiles twoProfiles))
                   _ _) "10.1.10.1" ("10.1.10.1", "10.1.10.255") _).
  - unfold rangeOrder. reflexivity.
  - intros h1 h2 [p1 H1] [p2 H2] Hn.
    unfold twoProfiles in H1, H2. cbn [NMALoadRemoteCatalogOp_prepare.networkProfiles] in H1, H2.
    apply lookup_insert_Some in H1 as [[<- _]|[_ H1]];
      apply lookup_insert_Some in H2 as [[<- _]|[_ H2]]; try done.
    + apply lookup_singleton_Some in H2 as [<- _]. vm_compute in Hn. discriminate Hn.
    + apply lookup_singleton_Some in H1 as [<- _]. vm_compute in Hn. discriminate Hn.
    + apply lookup_singleton_Some in H1 as [<- _].
      by apply lookup_singleton_Some in H2 as [<- _].
  - unfold twoProfiles. cbn [NMALoadRemoteCatalogOp_prepare.networkProfiles].
    apply lookup_insert_eq.
Defined.

(** ** makeHTTPSStartReplicationOp: the credentials that are sent *)

(** X25: [makeHTTPSStartReplicationOp] fails exactly when a user name
    that is to be used is rejected by [util.ValidateUsernameAndPassword].
    When it succeeds, the request the operation builds for a host
    carries the source user name and password only if the source
    password is to be used, and the body it marshals names the target
    user and password only if the target password is to be used: a user
    name or password given without that flag is never sent. *)
Theorem start_replication_sends_only_enabled_credentials :
  ∀ (ValidateUsernameAndPassword : string → bool → string → error)
    (json_Marshal : httpsStartReplicationOp.replicateRequestData → goError + string)
    dbName sourceHosts (sourceUseHTTPPassword : bool) sourceUserName sourceHTTPPassword
    (targetUseHTTPPassword : bool) targetDB targetUserName targetHosts targetHTTPSPassword
    tlsConfig sandbox,
    let r := httpsStartReplicationOp_make.makeHTTPSStartReplicationOp
               ValidateUsernameAndPassword dbName sourceHosts sourceUseHTTPPassword
               sourceUserName sourceHTTPPassword targetUseHTTPPassword targetDB
               targetUserName targetHosts targetHTTPSPassword tlsConfig sandbox in
    let data := httpsStartReplicationOp.mkReplicateData targetHosts targetDB
                  (if targetUseHTTPPassword then targetUserName else "")
                  (if targetUseHTTPPassword then targetHTTPSPassword else None)
                  tlsConfig in
    (r.2 = None
     ↔ (sourceUseHTTPPassword = true →
        ValidateUsernameAndPassword "HTTPSStartReplicationOp" true sourceUserName = None)
       ∧ (targetUseHTTPPassword = true →
          ValidateUsernameAndPassword "HTTPSStartReplicationOp" true targetUserName = None))
    ∧ hosts (httpsStartReplicationOp.base r.1) = sourceHosts
    ∧ httpsStartReplicationOp.sandbox r.1 = sandbox
    ∧ (r.2 = None →
       ∀ h,
         Username (httpsStartReplicationOp.replicationRequest r.1 h)
         = (if sourceUseHTTPPassword then sourceUserName else "")
         ∧ Password (httpsStartReplicationOp.replicationRequest r.1 h)
           = (if sourceUseHTTPPassword then sourceHTTPPassword else None)
         ∧ (∀ body, json_Marshal data = inr body →
                    httpsStartReplicationOp.setupRequestBody json_Marshal r.1 [h]
                    = (httpsStartReplicationOp.setBodyMap {[ h := body ]} r.1, None))).
Proof.
  intros validate json dbName sourceHosts sUse sUser sPwd tUse targetDB tUser targetHosts
    tPwd tls sandbox r data. subst r data.
  unfold httpsStartReplicationOp_make.makeHTTPSStartReplicationOp. cbv zeta.
  cbn.
  destruct sUse;
    [destruct (validate "HTTPSStartReplicationOp" true sUser) eqn:Hvs|]; cbn;
    (destruct tUse;
     [destruct (validate "HTTPSStartReplicationOp" true tUser) eqn:Hvt|]); cbn.
  all: split;
    [ split;
      [ intros Hn;
        first [discriminate Hn
              | split; intros Ht; first [discriminate Ht|reflexivity|assumption] ]
      | intros [H1 H2];
        first [ reflexivity
              | specialize (H1 eq_refl); congruence
              | specialize (H2 eq_refl); congruence ] ]
    | split; [reflexivity|split; [reflexivity|] ] ].
  all: intros Hn h; first [discriminate Hn|idtac].
  all: split; [reflexivity|split; [reflexivity|] ].
  all: intros body Hb; unfold httpsStartReplicationOp.setupRequestBody;
    cbn [httpsStartReplicationOp.setupRequestBody_loop httpsStartReplicationOp.setBodyMap
         httpsStartReplicationOp.targetHosts httpsStartReplicationOp.targetDB
         httpsStartReplicationOp.targetUserName httpsStartReplicationOp.targetPassword
         httpsStartReplicationOp.tlsConfig httpsStartReplicationOp.hostRequestBodyMap
         httpsStartReplicationOp.base];
    rewrite Hb; by rewrite insert_empty.
Qed.
